(** * Expensify auto-login: the code-acquisition protocol

    A shallow embedding of [email-monitor.ts], [auto-login.ts] and of
    [WebAutomation.enterEmail] ([web-automation.ts]), followed by the
    properties of the mailbox poller, of the code extraction rules and of the
    orchestration that the specification states.

    Conventions of the embedding:
    - a JavaScript string is the list of its UTF-16 code units;
    - a [Date] is its [getTime()] value, milliseconds as an integer;
    - a promise is the value it settles with (resolved, rejected, or never
      settled);
    - the event emitters of the IMAP client are a list of events in the order
      in which their handlers run to completion. *)

From Stdlib Require Import List ZArith NArith Lia Bool Ascii String.
Import ListNotations.

Set Implicit Arguments.

(* ================================================================== *)
(** ** JavaScript strings *)

(** UTF-16 code units. *)
Definition jsstring : Type := list N.

Module Js.

(** An ASCII literal of the source as a JavaScript string. *)
Definition lit (s : string) : jsstring :=
  map N_of_ascii (list_ascii_of_string s).

(** [ToBoolean] on a string: only the empty string is falsy. *)
Definition truthy (s : jsstring) : bool :=
  match s with [] => false | _ :: _ => true end.

(** [a || b] where [a] may be [undefined] (or [false]) and [b] is a string. *)
Definition orElse (a : option jsstring) (b : jsstring) : jsstring :=
  match a with
  | Some s => if truthy s then s else b
  | None => b
  end.

(** [s.startsWith(p)], returning what follows the prefix. *)
Fixpoint stripPrefix (p s : jsstring) : option jsstring :=
  match p, s with
  | [], _ => Some s
  | x :: p', y :: s' => if N.eqb x y then stripPrefix p' s' else None
  | _ :: _, [] => None
  end.

(** [s.includes(p)]. *)
Fixpoint includes (s p : jsstring) : bool :=
  match stripPrefix p s with
  | Some _ => true
  | None => match s with
            | [] => false
            | _ :: t => includes t p
            end
  end.

End Js.

(* ================================================================== *)
(** ** Regular expressions

    The fragment of ECMAScript regular expressions that the three patterns
    of the program use, with the backtracking semantics of the language:
    greedy quantifiers, leftmost match, one capturing group. *)

Module Regex.

(** [\d] *)
Definition isDigit (c : N) : bool := (48 <=? c)%N && (c <=? 57)%N.

(** [\s]: WhiteSpace and LineTerminator code units. *)
Definition isSpace (c : N) : bool :=
  ((9 <=? c) && (c <=? 13) || (c =? 32) || (c =? 160) || (c =? 5760)
   || (8192 <=? c) && (c <=? 8202) || (c =? 8232) || (c =? 8233)
   || (c =? 8239) || (c =? 8287) || (c =? 12288) || (c =? 65279))%N.

(** [[^x]] *)
Definition isNot (x : N) (c : N) : bool := negb (c =? x)%N.

Inductive regex : Type :=
| Chr (c : N)                      (* a literal character *)
| Cls (p : N -> bool)              (* a character class *)
| Star (p : N -> bool)             (* class*, greedy *)
| Plus (p : N -> bool)             (* class+, greedy *)
| Times (n : nat) (p : N -> bool)  (* class{n} *)
| Seq (r1 r2 : regex)
| Group (r : regex).               (* ( r ), capture 1 *)

(** A literal string is the sequence of its characters. *)
Fixpoint Lit (s : jsstring) (k : regex) : regex :=
  match s with
  | [] => k
  | c :: s' => Seq (Chr c) (Lit s' k)
  end.

Section Matcher.
Variable A : Type.

(** Greedy repetition: take as many as possible, give back one at a time
    while the continuation fails. *)
Fixpoint star (p : N -> bool) (s : jsstring)
         (k : jsstring -> option A) : option A :=
  match s with
  | c :: t =>
      if p c then
        match star p t k with
        | Some r => Some r
        | None => k s
        end
      else k s
  | [] => k []
  end.

Fixpoint times (n : nat) (p : N -> bool) (s : jsstring)
         (k : jsstring -> option A) : option A :=
  match n with
  | O => k s
  | S n' =>
      match s with
      | c :: t => if p c then times n' p t k else None
      | [] => None
      end
  end.

(** [exec r s cap k]: match [r] at the start of [s]; the continuation
    receives the rest of the input and the capture. *)
Fixpoint exec (r : regex) (s : jsstring) (cap : option jsstring)
         (k : jsstring -> option jsstring -> option A) : option A :=
  match r with
  | Chr c =>
      match s with
      | x :: t => if (x =? c)%N then k t cap else None
      | [] => None
      end
  | Cls p =>
      match s with
      | x :: t => if p x then k t cap else None
      | [] => None
      end
  | Star p => star p s (fun s' => k s' cap)
  | Plus p =>
      match s with
      | x :: t => if p x then star p t (fun s' => k s' cap) else None
      | [] => None
      end
  | Times n p => times n p s (fun s' => k s' cap)
  | Seq r1 r2 => exec r1 s cap (fun s' cap' => exec r2 s' cap' k)
  | Group r' =>
      exec r' s cap
           (fun s' _ => k s' (Some (firstn (List.length s - List.length s') s)))
  end.
End Matcher.

(** The result of a successful match. *)
Record MatchResult : Type := mkMatch {
  before : jsstring;          (* input before the match *)
  after : jsstring;           (* input after the match *)
  group1 : option jsstring    (* [m[1]] *)
}.

Definition matchHere (r : regex) (s : jsstring)
  : option (jsstring * option jsstring) :=
  exec r s None (fun s' cap => Some (s', cap)).

(** The leftmost match: every start index in turn, the end of the input
    included. *)
Fixpoint searchFrom (r : regex) (pre s : jsstring) : option MatchResult :=
  match matchHere r s with
  | Some (rest, cap) => Some (mkMatch pre rest cap)
  | None =>
      match s with
      | [] => None
      | c :: t => searchFrom r (pre ++ [c]) t
      end
  end.

(** [s.match(r)] for a pattern without the [g] flag. *)
Definition match_ (r : regex) (s : jsstring) : option MatchResult :=
  searchFrom r [] s.

(** [s.replace(r, by)] for a pattern without the [g] flag and a replacement
    without [$] patterns. *)
Definition replace (r : regex) (by_ : jsstring) (s : jsstring) : jsstring :=
  match match_ r s with
  | Some m => before m ++ by_ ++ after m
  | None => s
  end.

End Regex.

(* ================================================================== *)
(** ** email-monitor.ts: extraction of the code from a parsed message *)

Module Extract.
Import Regex.

(** What [simpleParser] returns, as far as the program reads it. *)
Record ParsedMail : Type := mkParsed {
  subject : option jsstring;
  date : option Z;
  text : option jsstring;
  html : option jsstring       (* [false] and [undefined] are [None] *)
}.

(** [/Expensify magic code:\s*(\d+)/] *)
Definition subjectPattern : regex :=
  Lit (Js.lit "Expensify magic code:") (Seq (Star isSpace) (Group (Plus isDigit))).

(** [/(\d{6})/] *)
Definition bodyPattern : regex := Group (Times 6 isDigit).

(** [m && m[1]] as the string it yields when truthy. *)
Definition truthyGroup (m : option MatchResult) : option jsstring :=
  match m with
  | Some r =>
      match group1 r with
      | Some g => if Js.truthy g then Some g else None
      | None => None
      end
  | None => None
  end.

Definition subjectCode (p : ParsedMail) : option jsstring :=
  truthyGroup (match_ subjectPattern (Js.orElse (subject p) [])).

Definition bodyText (p : ParsedMail) : jsstring :=
  Js.orElse (text p) (Js.orElse (html p) []).

Definition bodyCode (p : ParsedMail) : option jsstring :=
  truthyGroup (match_ bodyPattern (bodyText p)).

(** The value of [code] after the extraction block of [findCode]. *)
Definition extractCode (p : ParsedMail) : option jsstring :=
  match subjectCode p with
  | Some c => Some c
  | None => bodyCode p
  end.

End Extract.

Open Scope Z_scope.

(* ================================================================== *)
(** ** Errors and promises *)

(** The errors that the program raises itself, and those of the libraries
    that it passes on unchanged. *)
Inductive Error : Type :=
| TimeoutWaitingForEmail      (* "Timeout waiting for email" *)
| GmailAppPasswordRequired    (* "Gmail App Password required. ..." *)
| GmailAuthenticationFailed   (* "Gmail authentication failed. ..." *)
| BrowserNotInitialized       (* 'Browser not initialized' *)
| EmailInputNotFound          (* 'Could not find email input field' *)
| Thrown (message : jsstring). (* an error object of imap, mailparser or playwright *)

(** The state a promise ends in. *)
Inductive Promise (A : Type) : Type :=
| Resolved (a : A)
| Rejected (e : Error)
| Pending.                    (* never settled *)

Arguments Resolved {A} a.
Arguments Rejected {A} e.
Arguments Pending {A}.

(* ================================================================== *)
(** ** email-monitor.ts: one [findCode] cycle *)

Module Monitor.
Import Extract.

Inductive ParseResult : Type :=
| ParseFailed (message : jsstring)   (* [simpleParser] rejects *)
| Parsed (p : ParsedMail).

(** One message of the fetch: the uid of its ["attributes"] event
    ([None] when the one second fallback fires first) and the outcome of
    parsing its body. *)
Record FetchedMessage : Type := mkMessage {
  attrUid : option N;
  parsed : ParseResult
}.

(** The events of the fetch, in the order in which their handlers complete. *)
Inductive FetchEvent : Type :=
| Body (m : FetchedMessage)
| FetchError (message : jsstring).

(** The answer of the server to [imap.search]. *)
Inductive SearchResult : Type :=
| SearchError (message : jsstring)
| SearchOk (results : option (list N)).

(** An element of [validEmails]. *)
Record ValidEmail : Type := mkValid {
  uid : N;
  code : jsstring;
  vdate : Z
}.

(** The variables that the handlers of one [findCode] call share, the state
    of its promise, and the [addFlags(uid, "\\Seen")] requests issued. *)
Record Cycle : Type := mkCycle {
  pendingCount : Z;
  validEmails : list ValidEmail;
  resolved : bool;
  promise : Promise (option jsstring);
  seen : list N
}.

(** [(a, b) => b.date.getTime() - a.date.getTime()] *)
Definition compareFn (a b : ValidEmail) : Z := vdate b - vdate a.

(** [Array.prototype.sort] is stable: an element stays in front of the
    later ones that compare equal to it. *)
Fixpoint insert (a : ValidEmail) (l : list ValidEmail) : list ValidEmail :=
  match l with
  | [] => [a]
  | x :: t => if compareFn a x <=? 0 then a :: l else x :: insert a t
  end.

Fixpoint sort (l : list ValidEmail) : list ValidEmail :=
  match l with
  | [] => []
  | a :: t => insert a (sort t)
  end.

(** [resolve(v)] and [reject(e)]: only the first one settles the promise. *)
Definition settle (p v : Promise (option jsstring)) : Promise (option jsstring) :=
  match p with
  | Pending => v
  | _ => p
  end.

(** [pendingCount--] *)
Definition countDown (st : Cycle) : Cycle :=
  mkCycle (pendingCount st - 1) (validEmails st) (resolved st) (promise st)
          (seen st).

(** The block [if (pendingCount === 0 && !resolved) { ... }], which every
    path of the body handler ends with. *)
Definition finish (st : Cycle) : Cycle :=
  if (pendingCount st =? 0) && negb (resolved st) then
    match sort (validEmails st) with
    | best :: rest =>
        mkCycle (pendingCount st) (best :: rest) true
                (settle (promise st) (Resolved (Some (code best))))
                (if (uid best =? 0)%N then seen st else seen st ++ [uid best])
    | [] =>
        mkCycle (pendingCount st) [] true
                (settle (promise st) (Resolved None)) (seen st)
    end
  else st.

(** [validEmails.push({ uid, code, date })] *)
Definition push (v : ValidEmail) (st : Cycle) : Cycle :=
  mkCycle (pendingCount st) (validEmails st ++ [v]) (resolved st)
          (promise st) (seen st).

(** [sinceTime && emailDate && emailDate < sinceTime] *)
Definition isOld (sinceTime : option Z) (emailDate : option Z) : bool :=
  match sinceTime, emailDate with
  | Some since, Some d => d <? since
  | _, _ => false
  end.

(** [!uid || typeof uid !== 'number'] is false: the uid to work with. *)
Definition usableUid (u : option N) : option N :=
  match u with
  | Some n => if (n =? 0)%N then None else Some n
  | None => None
  end.

(** The handler of the ["body"] event of a message. *)
Definition onBody (sinceTime : option Z) (m : FetchedMessage) (st : Cycle)
  : Cycle :=
  match usableUid (attrUid m) with
  | None => finish (countDown st)
  | Some u =>
      match parsed m with
      | ParseFailed _ => finish (countDown st)
      | Parsed p =>
          if isOld sinceTime (date p) then finish (countDown st)
          else
            let st' :=
              match extractCode p, date p with
              | Some c, Some d =>
                  if Js.truthy c && negb (u =? 0)%N
                  then push (mkValid u c d) st else st
              | _, _ => st
              end in
            finish (countDown st')
      end
  end.

(** The handler of the ["error"] event of the fetch. *)
Definition onFetchError (message : jsstring) (st : Cycle) : Cycle :=
  if resolved st then st
  else mkCycle (pendingCount st) (validEmails st) true
               (settle (promise st) (Rejected (Thrown message))) (seen st).

Definition onEvent (sinceTime : option Z) (st : Cycle) (e : FetchEvent) : Cycle :=
  match e with
  | Body m => onBody sinceTime m st
  | FetchError message => onFetchError message st
  end.

(** The state in which the fetch starts. *)
Definition start (results : list N) : Cycle :=
  mkCycle (Z.of_nat (List.length results)) [] false Pending [].

(** The state in which [findCode] ends without a fetch. *)
Definition ended (p : Promise (option jsstring)) : Cycle :=
  mkCycle 0 [] false p [].

(** [findCode(fromEmail, sinceTime)], given the answer to the search and the
    events of the fetch. *)
Definition findCode (sinceTime : option Z) (search : SearchResult)
           (events : list FetchEvent) : Cycle :=
  match search with
  | SearchError message => ended (Rejected (Thrown message))
  | SearchOk None => ended (Resolved None)
  | SearchOk (Some []) => ended (Resolved None)
  | SearchOk (Some results) => fold_left (onEvent sinceTime) events (start results)
  end.

(* ------------------------------------------------------------------ *)
(** *** [connect] and [waitForCode] *)

(** What the IMAP client answers to [connect()]. *)
Inductive ConnectEvent : Type :=
| Ready
| ConnectError (message : jsstring).

(** The error that [connect] rejects with, from [err.message]. *)
Definition connectError (message : jsstring) : Error :=
  if Js.includes message (Js.lit "Application-specific password required")
     || (Js.includes message (Js.lit "ALERT")
         && Js.includes message (Js.lit "185833"))
  then GmailAppPasswordRequired
  else if Js.includes message (Js.lit "Invalid credentials")
          || Js.includes message (Js.lit "AUTHENTICATIONFAILED")
          || Js.includes message (Js.lit "authentication")
  then GmailAuthenticationFailed
  else Thrown message.

(** [connect()]: the new value of [connected] and the promise. *)
Definition connect (connected : bool) (answer : ConnectEvent)
  : bool * Promise unit :=
  if connected then (true, Resolved tt)
  else match answer with
       | Ready => (true, Resolved tt)
       | ConnectError message => (false, Rejected (connectError message))
       end.

(** What the mailbox does during one poll: the outcome of [openInbox], the
    answer to the search for a sender, the events of the fetch, and the time
    that the poll takes, in milliseconds. *)
Record Poll : Type := mkPoll {
  openInbox : option jsstring;           (* [Some]: the error of [openBox] *)
  search : jsstring -> SearchResult;
  events : list FetchEvent;
  duration : N
}.

(** The mailbox as the monitor meets it. *)
Record Mailbox : Type := mkMailbox {
  connectAnswer : ConnectEvent;
  polls : nat -> Poll
}.

(** The delay of [setTimeout(checkEmail, 2000)]. *)
Definition pollInterval : Z := 2000.

(** How [waitForCode] ended: its promise, the time since [startTime], the
    number of polls started, and the messages flagged [\Seen]. *)
Record Wait : Type := mkWait {
  outcome : Promise jsstring;
  elapsed : Z;
  cycles : nat;
  flagged : list N
}.

(** [checkEmail], at [now] milliseconds after [startTime], about to start
    poll number [i]; [marked] are the messages flagged by the earlier
    polls. [fuel] bounds the number of polls; the result is [None] when it
    runs out, which [enoughPolls] excludes. *)
Fixpoint checkEmail (fuel : nat) (box : Mailbox) (fromEmail : jsstring)
         (maxWaitTime : Z) (sinceTime : option Z) (i : nat) (now : Z)
         (marked : list N) : option Wait :=
  match fuel with
  | O => None
  | S fuel' =>
      if now >? maxWaitTime then
        Some (mkWait (Rejected TimeoutWaitingForEmail) now i marked)
      else
        let poll := polls box i in
        let later := now + Z.of_N (duration poll) in
        match openInbox poll with
        | Some message =>
            Some (mkWait (Rejected (Thrown message)) later (S i) marked)
        | None =>
            let c := findCode sinceTime (search poll fromEmail) (events poll) in
            let marked' := marked ++ seen c in
            match promise c with
            | Resolved (Some found) =>
                if Js.truthy found
                then Some (mkWait (Resolved found) later (S i) marked')
                else checkEmail fuel' box fromEmail maxWaitTime sinceTime
                                (S i) (later + pollInterval) marked'
            | Resolved None =>
                checkEmail fuel' box fromEmail maxWaitTime sinceTime
                           (S i) (later + pollInterval) marked'
            | Rejected e => Some (mkWait (Rejected e) later (S i) marked')
            | Pending => Some (mkWait Pending later (S i) marked')
            end
        end
  end.

(** Polls enough for any mailbox: each one takes the interval at least. *)
Definition enoughPolls (maxWaitTime : Z) : nat :=
  Z.to_nat (maxWaitTime / pollInterval) + 2.

(** [waitForCode(fromEmail, maxWaitTime, sinceTime)] *)
Definition waitForCode (connected : bool) (box : Mailbox) (fromEmail : jsstring)
           (maxWaitTime : Z) (sinceTime : option Z) : option Wait :=
  match connect connected (connectAnswer box) with
  | (_, Rejected e) => Some (mkWait (Rejected e) 0 0 [])
  | (_, Pending) => Some (mkWait Pending 0 0 [])
  | (_, Resolved _) =>
      checkEmail (enoughPolls maxWaitTime) box fromEmail maxWaitTime sinceTime
                 0 0 []
  end.

End Monitor.

(* ================================================================== *)
(** ** web-automation.ts: [enterEmail] *)

Module Web.

(** The page as [enterEmail] meets it: which selectors
    [waitForSelector] finds within its timeout, the url, and how the
    actions on the page end. *)
Record Page : Type := mkPage {
  waitForSelector : jsstring -> bool;    (* [false]: it throws or yields null *)
  url : jsstring;
  fill : jsstring -> jsstring -> option jsstring;   (* [Some]: the error thrown *)
  query : jsstring -> bool;              (* [page.$]: an element was found *)
  click : jsstring -> bool;              (* [false]: [click] throws *)
  press : jsstring -> option jsstring;   (* [Some]: the error thrown *)
  wait : option jsstring                 (* [waitForTimeout(1000)] once the
                                            address is submitted: [Some] is
                                            the error thrown *)
}.

(** What the driver did to the page. *)
Inductive Action : Type :=
| Fill (selector value : jsstring)
| Click (selector : jsstring)
| PressEnter (selector : jsstring).

(** A quoted attribute value or text of a selector. *)
Definition quoted (s : string) : jsstring := [34%N] ++ Js.lit s ++ [34%N].

Definition emailSelectors : list jsstring :=
  [ Js.lit "input[type=" ++ quoted "email" ++ Js.lit "]";
    Js.lit "input[name=" ++ quoted "email" ++ Js.lit "]";
    Js.lit "input[id*=" ++ quoted "email" ++ Js.lit "]";
    Js.lit "input[placeholder*=" ++ quoted "email" ++ Js.lit " i]";
    Js.lit "input[placeholder*=" ++ quoted "Email" ++ Js.lit " i]" ].

Definition submitSelectors : list jsstring :=
  [ Js.lit "button[type=" ++ quoted "submit" ++ Js.lit "]";
    Js.lit "button:has-text(" ++ quoted "Continue" ++ Js.lit ")";
    Js.lit "button:has-text(" ++ quoted "Send" ++ Js.lit ")";
    Js.lit "button:has-text(" ++ quoted "Next" ++ Js.lit ")";
    Js.lit "[role=" ++ quoted "button" ++ Js.lit "]:has-text("
      ++ quoted "Continue" ++ Js.lit ")" ].

(** The first loop: the selector whose [waitForSelector] succeeds. *)
Fixpoint findInput (page : Page) (selectors : list jsstring) : option jsstring :=
  match selectors with
  | [] => None
  | sel :: rest =>
      if waitForSelector page sel then Some sel else findInput page rest
  end.

(** The second loop: the first button found whose click does not throw. *)
Fixpoint clickSubmit (page : Page) (selectors : list jsstring)
  : option jsstring :=
  match selectors with
  | [] => None
  | sel :: rest =>
      if query page sel && click page sel then Some sel
      else clickSubmit page rest
  end.

(** [emailSelectors[0]] *)
Definition firstSelector : jsstring := nth 0 emailSelectors [].

(** The pause that ends [enterEmail], after the actions [acts]. *)
Definition submitted (page : Page) (acts : list Action)
  : Promise bool * list Action :=
  match wait page with
  | Some message => (Rejected (Thrown message), acts)
  | None => (Resolved true, acts)
  end.

(** [enterEmail(email)]: the promise and the actions carried out. *)
Definition enterEmail (page : option Page) (email : jsstring)
  : Promise bool * list Action :=
  match page with
  | None => (Rejected BrowserNotInitialized, [])
  | Some pg =>
      match findInput pg emailSelectors with
      | None =>
          if negb (Js.includes (url pg) (Js.lit "/login"))
             && negb (Js.includes (url pg) (Js.lit "/signin"))
          then (Resolved false, [])
          else (Rejected EmailInputNotFound, [])
      | Some _ =>
          (* [emailSelectors.find(s => emailInput) || emailSelectors[0]] is
             the first selector of the list *)
          match fill pg firstSelector email with
          | Some message => (Rejected (Thrown message), [])
          | None =>
              match clickSubmit pg submitSelectors with
              | Some sel =>
                  submitted pg [Fill firstSelector email; Click sel]
              | None =>
                  match press pg firstSelector with
                  | Some message =>
                      (Rejected (Thrown message), [Fill firstSelector email])
                  | None =>
                      submitted pg [Fill firstSelector email;
                                    PressEnter firstSelector]
                  end
              end
          end
      end
  end.

End Web.

(* ================================================================== *)
(** ** auto-login.ts *)

Module AutoLogin.
Import Regex.

Record Config : Type := mkConfig {
  email : jsstring;
  emailPassword : jsstring;
  loginUrl : jsstring;
  fromEmail : jsstring;
  headless : bool;
  devtools : bool
}.

(** [/\+[^@]+@/] *)
Definition tagPattern : regex :=
  Seq (Chr 43) (Seq (Plus (isNot 64)) (Chr 64)).

(** [email.replace(/\+[^@]+@/, '@')] *)
Definition stripEmailTag (address : jsstring) : jsstring :=
  replace tagPattern (Js.lit "@") address.

(** The configuration of the [EmailMonitor]. *)
Record EmailConfig : Type := mkEmailConfig {
  user : jsstring;
  password : jsstring;
  host : jsstring;
  port : Z;
  tls : bool
}.

(** The fields of an [AutoLogin] object. *)
Record T : Type := mkAutoLogin {
  emailMonitor : EmailConfig;
  config : Config
}.

(** The constructor. *)
Definition new (cfg : Config) : T :=
  let imapEmail := stripEmailTag (email cfg) in
  mkAutoLogin
    (mkEmailConfig imapEmail (emailPassword cfg) (Js.lit "imap.gmail.com") 993 true)
    cfg.

(** What is outside the program during a run: the mailbox, and the browser
    as far as [login] depends on it. *)
Record World : Type := mkWorld {
  mailbox : Monitor.Mailbox;
  launch : option jsstring;                (* [Some]: [init] throws *)
  goto : jsstring -> option jsstring;      (* [Some]: [navigateToLogin] throws *)
  loginPage : Web.Page;                    (* the page once loaded *)
  enterCode : jsstring -> option Error;    (* [Some]: [enterCode] throws *)
  waitForLoginSuccess : option Error
}.

(** The calls that [login] makes on its two components, with their
    arguments. *)
Inductive Call : Type :=
| Connect (account : jsstring)
| Init (headless devtools : bool)
| NavigateToLogin (url : jsstring)
| EnterEmail (address : jsstring) (actions : list Web.Action)
| WaitForCode (fromEmail : jsstring) (maxWaitTime : Z) (sinceTime : option Z)
              (flagged : list N)
| EnterCode (code : jsstring)
| WaitForLoginSuccess
| Disconnect.

(** Asynchronous code that records its calls: [None] when a loop of the
    model ran out of polls. *)
Definition Async (A : Type) : Type := list Call -> option (Promise A * list Call).

Definition ret {A} (a : A) : Async A := fun tr => Some (Resolved a, tr).

Definition bind {A B} (m : Async A) (f : A -> Async B) : Async B :=
  fun tr =>
    match m tr with
    | Some (Resolved a, tr') => f a tr'
    | Some (Rejected e, tr') => Some (Rejected e, tr')
    | Some (Pending, tr') => Some (Pending, tr')
    | None => None
    end.

(** A call and the promise it returns. *)
Definition call {A} (c : Call) (p : Promise A) : Async A :=
  fun tr => Some (p, tr ++ [c]).

(** [try { body } finally { cleanup }]; the cleanup waits for the body. *)
Definition tryFinally {A} (body : Async A) (cleanup : Async unit) : Async A :=
  fun tr =>
    match body tr with
    | Some (Pending, tr') => Some (Pending, tr')
    | Some (r, tr') =>
        match cleanup tr' with
        | Some (Resolved _, tr'') => Some (r, tr'')
        | Some (Rejected e, tr'') => Some (Rejected e, tr'')
        | Some (Pending, tr'') => Some (Pending, tr'')
        | None => None
        end
    | None => None
    end.

Notation "x <- m ;; k" := (bind m (fun x => k))
  (at level 61, m at next level, right associativity).
Notation "m ;;; k" := (bind m (fun _ => k))
  (at level 61, right associativity).

Definition ofError (e : option Error) : Promise unit :=
  match e with
  | Some err => Rejected err
  | None => Resolved tt
  end.

Definition ofThrown (e : option jsstring) : Promise unit :=
  match e with
  | Some message => Rejected (Thrown message)
  | None => Resolved tt
  end.

(** [emailMonitor.waitForCode(fromEmail, maxWaitTime, sinceTime)] as a call
    of [login]. *)
Definition callWaitForCode (connected : bool) (box : Monitor.Mailbox)
           (from : jsstring) (maxWaitTime : Z) (sinceTime : option Z)
  : Async jsstring :=
  fun tr =>
    match Monitor.waitForCode connected box from maxWaitTime sinceTime with
    | Some w =>
        Some (Monitor.outcome w,
              tr ++ [WaitForCode from maxWaitTime sinceTime (Monitor.flagged w)])
    | None => None
    end.

(** [login()]; [catch] logs the error and throws it again. *)
Definition login (self : T) (w : World) : Async unit :=
  let cfg := config self in
  let page := Some (loginPage w) in
  tryFinally
    (call (Connect (user (emailMonitor self)))
          (snd (Monitor.connect false (Monitor.connectAnswer (mailbox w)))) ;;;
     call (Init (headless cfg) (devtools cfg)) (ofThrown (launch w)) ;;;
     call (NavigateToLogin (loginUrl cfg)) (ofThrown (goto w (loginUrl cfg))) ;;;
     _ <- (let r := Web.enterEmail page (email cfg) in
           call (EnterEmail (email cfg) (snd r)) (fst r)) ;;
     code <- callWaitForCode true (mailbox w) (fromEmail cfg) 60000 None ;;
     call (EnterCode code) (ofError (enterCode w code)) ;;;
     call WaitForLoginSuccess (ofError (waitForLoginSuccess w)))
    (call Disconnect (Resolved tt)).

End AutoLogin.

(* ================================================================== *)
(** ** More of JavaScript's strings *)

Module JsText.
Import Regex.

(** [s.trimStart()], [s.trimEnd()] and [s.trim()]: the characters removed
    are those of [\s]. *)
Fixpoint trimStart (s : jsstring) : jsstring :=
  match s with
  | c :: t => if isSpace c then trimStart t else s
  | [] => []
  end.

Definition trimEnd (s : jsstring) : jsstring := rev (trimStart (rev s)).

Definition trim (s : jsstring) : jsstring := trimEnd (trimStart s).

(** [s.startsWith(p)] and [s.endsWith(p)] *)
Definition startsWith (s p : jsstring) : bool :=
  match Js.stripPrefix p s with
  | Some _ => true
  | None => false
  end.

Definition endsWith (s p : jsstring) : bool := startsWith (rev s) (rev p).

(** [s.slice(1, -1)] *)
Definition slice1 (s : jsstring) : jsstring := removelast (tl s).

(** [s.slice(0, -1)] *)
Definition dropLast (s : jsstring) : jsstring := removelast s.

(** [s.split(sep)] for a separator of one character. *)
Fixpoint split (sep : N) (s : jsstring) : list jsstring :=
  match s with
  | [] => [[]]
  | c :: t =>
      if (c =? sep)%N then [] :: split sep t
      else match split sep t with
           | h :: r => (c :: h) :: r
           | [] => [[c]]
           end
  end.

(** [parts.join(sep)] *)
Fixpoint join (sep : N) (parts : list jsstring) : jsstring :=
  match parts with
  | [] => []
  | [x] => x
  | x :: rest => x ++ sep :: join sep rest
  end.

(** [a === b] on strings. *)
Fixpoint eqb (a b : jsstring) : bool :=
  match a, b with
  | [], [] => true
  | x :: a', y :: b' => (x =? y)%N && eqb a' b'
  | _, _ => false
  end.

(** [s.replace(r, by)] for a pattern with the [g] flag: every match in
    turn, from where the last one ended; after an empty match the search
    moves on by one character. [fuel] bounds the number of matches. *)
Fixpoint replaceAllFrom (fuel : nat) (r : regex) (by_ s : jsstring) : jsstring :=
  match fuel with
  | O => s
  | S fuel' =>
      match match_ r s with
      | None => s
      | Some m =>
          if (List.length (before m) + List.length (after m) <? List.length s)%nat
          then before m ++ by_ ++ replaceAllFrom fuel' r by_ (after m)
          else match after m with
               | [] => before m ++ by_
               | c :: t => before m ++ by_ ++ c :: replaceAllFrom fuel' r by_ t
               end
      end
  end.

Definition replaceAll (r : regex) (by_ s : jsstring) : jsstring :=
  replaceAllFrom (S (List.length s)) r by_ s.

(** [s.replace(/\s/g, "")] *)
Definition removeSpaces (s : jsstring) : jsstring :=
  replaceAll (Cls isSpace) [] s.

End JsText.

(* ================================================================== *)
(** ** auto-login.ts: the environment, [loadEnv] and [main] *)

Module Env.

(** The variables of [process.env], in the order in which they were set. *)
Definition t : Type := list (jsstring * jsstring).

(** [process.env] is an object, and [__proto__] is on it the accessor of
    its prototype, not the name of a variable. *)
Definition proto : jsstring := Js.lit "__proto__".

(** [process.env[key]], for the name of a variable. *)
Fixpoint get (key : jsstring) (env : t) : option jsstring :=
  match env with
  | [] => None
  | (k, v) :: rest => if JsText.eqb key k then Some v else get key rest
  end.

(** The variable [key] gets the value [value]. *)
Fixpoint assign (key value : jsstring) (env : t) : t :=
  match env with
  | [] => [(key, value)]
  | (k, v) :: rest =>
      if JsText.eqb key k then (key, value) :: rest
      else (k, v) :: assign key value rest
  end.

(** [process.env[key] = value]: assigning a string to [__proto__] sets no
    variable and changes no prototype. *)
Definition set (key value : jsstring) (env : t) : t :=
  if JsText.eqb key proto then env else assign key value env.

End Env.

Module Launcher.
Import AutoLogin.

(** The body of the loop of [loadEnv] for one line: the variable that the
    line sets, if any. *)
Definition parseLine (line : jsstring) : option (jsstring * jsstring) :=
  let trimmed := JsText.trim line in
  if Js.truthy trimmed
     && negb (JsText.startsWith trimmed (Js.lit "#"))
     && Js.includes trimmed (Js.lit "=")
  then
    match JsText.split 61 trimmed with
    | key :: valueParts =>
        let value := JsText.trim (JsText.join 61 valueParts) in
        if Js.truthy key && Js.truthy value then Some (key, value) else None
    | [] => None
    end
  else None.

Definition loadLine (env : Env.t) (line : jsstring) : Env.t :=
  match parseLine line with
  | Some (key, value) => Env.set key value env
  | None => env
  end.

(** [loadEnv()]: [bun] tells whether the [Bun] global is defined, [file] is
    the text of [.env] when the file exists. *)
Definition loadEnv (bun : bool) (file : option jsstring) (env : Env.t) : Env.t :=
  if bun then
    match file with
    | Some text => fold_left loadLine (JsText.split 10 text) env
    | None => env
    end
  else env.

(** [process.env.X || fallback] *)
Definition envOr (env : Env.t) (key : string) (fallback : string) : jsstring :=
  Js.orElse (Env.get (Js.lit key) env) (Js.lit fallback).

(** [process.env.X === "true"] *)
Definition envIsTrue (env : Env.t) (key : string) : bool :=
  match Env.get (Js.lit key) env with
  | Some v => JsText.eqb v (Js.lit "true")
  | None => false
  end.

(** The configuration that [main] builds, unless [EMAIL] or [APP_PASSWORD]
    is missing. *)
Definition configOf (env : Env.t) : option Config :=
  let email := Env.get (Js.lit "EMAIL") env in
  let password := option_map JsText.removeSpaces (Env.get (Js.lit "APP_PASSWORD") env) in
  match email, password with
  | Some e, Some p =>
      if Js.truthy e && Js.truthy p then
        Some (mkConfig e p
                       (envOr env "LOGIN_URL" "https://new.expensify.com/")
                       (envOr env "FROM_EMAIL" "concierge@expensify.com")
                       (envIsTrue env "HEADLESS")
                       (envIsTrue env "DEVTOOLS"))
      else None
  | _, _ => None
  end.

(** How a run of [main] goes on after its last step. *)
Inductive Ending : Type :=
| Exits (code : Z)       (* [process.exit(code)] *)
| WaitsForInterrupt      (* the browser stays open until SIGINT *)
| NeverSettles.          (* a promise of [login] never settles *)

(** A run of [main]: the calls of [login], whether [close] closed the
    browser, and the ending. *)
Record Run : Type := mkRun {
  calls : list Call;
  closedBrowser : bool;
  ending : Ending
}.

(** [WebAutomation.close()] closes the browser when [init] has set it. *)
Definition launched (w : World) (tr : list Call) : bool :=
  match launch w with
  | None => existsb (fun c => match c with Init _ _ => true | _ => false end) tr
  | Some _ => false
  end.

(** [main()] *)
Definition main (bun : bool) (file : option jsstring) (env0 : Env.t) (w : World)
  : option Run :=
  let env := loadEnv bun file env0 in
  match configOf env with
  | None => Some (mkRun [] false (Exits 1))
  | Some cfg =>
      match login (new cfg) w [] with
      | Some (Resolved _, tr) => Some (mkRun tr false WaitsForInterrupt)
      | Some (Rejected _, tr) => Some (mkRun tr (launched w tr) (Exits 1))
      | Some (Pending, tr) => Some (mkRun tr false NeverSettles)
      | None => None
      end
  end.


End Launcher.

(* ================================================================== *)
(** ** credentials.ts *)

Module Credentials.

(** How a [security] process ends: the code of its ["close"] event
    ([None] when a signal ended it) and what it wrote to its output. *)
Record Security : Type := mkSecurity {
  exitCode : option Z;
  stdout : jsstring
}.

(** A ["data"] event of the terminal in raw mode: [char[0]] and
    [char.toString()]. *)
Record Chunk : Type := mkChunk {
  first : N;
  text : jsstring
}.

(** The machine on which the program runs. *)
Record Host : Type := mkHost {
  appPassword : option jsstring;                        (* [process.env.APP_PASSWORD] *)
  emailVar : option jsstring;                           (* [process.env.EMAIL] *)
  darwin : bool;                                        (* [process.platform === "darwin"] *)
  findPassword : jsstring -> jsstring -> Security;      (* service, account *)
  addPassword : jsstring -> jsstring -> jsstring -> option Z;
  keys : list Chunk                                     (* what is typed *)
}.

(** What the functions do outside the program. *)
Inductive Effect : Type :=
| FindPassword (service account : jsstring)
| AddPassword (service account password : jsstring)
| Ask (message : jsstring).

Definition service : jsstring := Js.lit "expensify-auto-login".

(** [code === 0] *)
Definition isZero (code : option Z) : bool :=
  match code with
  | Some c => c =? 0
  | None => false
  end.

(** [getFromKeychain(service, account)] *)
Definition getFromKeychain (h : Host) (svc account : jsstring)
  : option jsstring * list Effect :=
  if darwin h then
    let r := findPassword h svc account in
    (if isZero (exitCode r) && Js.truthy (JsText.trim (stdout r))
     then Some (JsText.trim (stdout r)) else None,
     [FindPassword svc account])
  else (None, []).

(** [storeInKeychain(service, account, password)] *)
Definition storeInKeychain (h : Host) (svc account password : jsstring)
  : bool * list Effect :=
  if darwin h then
    (isZero (addPassword h svc account password),
     [AddPassword svc account password])
  else (false, []).

(** How a prompt ends. *)
Inductive Prompted : Type :=
| Entered (answer : jsstring)
| Aborted                       (* [process.exit(1)] on Ctrl+C or Ctrl+D *)
| StillWaiting.                 (* the input ended before Enter *)

Definition star : jsstring := [42%N].
Definition erase : jsstring := [8%N; 32%N; 8%N].     (* "\b \b" *)
Definition newline : jsstring := [10%N].

(** The ["data"] listeners on [process.stdin], in the order in which they
    were added: the [password] variable of each. [promptPassword] adds its
    listener and never removes it, so the listeners of the prompts that
    ended still run on what is typed later. *)
Definition Listeners : Type := list jsstring.

(** One listener on a chunk that is neither Ctrl+C, Ctrl+D nor Enter: its
    [password] afterwards and what it writes to [process.stdout]. *)
Definition onKey (ch : Chunk) (password : jsstring) : jsstring * jsstring :=
  if (first ch =? 127)%N || (first ch =? 8)%N then
    match password with
    | [] => ([], [])
    | _ :: _ => (JsText.dropLast password, erase)
    end
  else (password ++ text ch, star).

(** The listeners [ls] on the input, the last of them being the one of the
    prompt that waits, and [out] what was written to [process.stdout] since
    the prompt began: how the prompt ends, what was written, the input
    left, and the listeners. On Enter every listener writes a new line and
    resolves its promise, which changes nothing for those that are
    settled. What the [readline] interface writes of its own accord is not
    modelled. *)
Fixpoint listen (ls : Listeners) (out : jsstring) (input : list Chunk)
  : Prompted * jsstring * list Chunk * Listeners :=
  match input with
  | [] => (StillWaiting, out, [], ls)
  | ch :: rest =>
      let code := first ch in
      if (code =? 3)%N || (code =? 4)%N then (Aborted, out, rest, ls)
      else if (code =? 13)%N || (code =? 10)%N
      then (Entered (last ls []),
            out ++ List.concat (map (fun _ => newline) ls), rest, ls)
      else listen (map (fun p => fst (onKey ch p)) ls)
                  (out ++ List.concat (map (fun p => snd (onKey ch p)) ls))
                  rest
  end.

(** [promptPassword(message)], [stale] being the listeners that earlier
    prompts left. *)
Definition promptPassword (stale : Listeners) (message : jsstring)
           (input : list Chunk)
  : Prompted * jsstring * list Chunk * Listeners :=
  listen (stale ++ [[]]) message input.

(** The cleaning of [APP_PASSWORD]: trimmed, a pair of quotes around it
    removed, then every white space removed. *)
Definition cleanEnvPassword (envPassword : jsstring) : jsstring :=
  let trimmed := JsText.trim envPassword in
  let unquoted :=
    if (JsText.startsWith trimmed [34%N] && JsText.endsWith trimmed [34%N])
       || (JsText.startsWith trimmed [39%N] && JsText.endsWith trimmed [39%N])
    then JsText.trim (JsText.slice1 trimmed)
    else trimmed in
  JsText.removeSpaces unquoted.

(** How [getEmailPassword] ends. *)
Inductive Answer : Type :=
| Password (password : jsstring)
| ProcessExit                   (* the prompt was aborted *)
| WaitingForInput.

(** The result of [getEmailPassword]: its answer, whether it warned about
    the length, and its effects in order. *)
Record Resolution : Type := mkResolution {
  answer : Answer;
  warned : bool;
  effects : list Effect
}.

(** [console.warn] unless [cleanPassword.length === 16] *)
Definition badLength (p : jsstring) : bool := negb (List.length p =? 16)%nat.

(** [store.toLowerCase() === "y"] *)
Definition isYes (s : jsstring) : bool :=
  JsText.eqb s (Js.lit "y") || JsText.eqb s (Js.lit "Y").

Definition enterPrompt (account : jsstring) : jsstring :=
  Js.lit "Enter Gmail App Password for " ++ account ++ Js.lit ": ".

Definition storePrompt : jsstring :=
  Js.lit "Store password in macOS Keychain? (y/n): ".

(** The interactive part of [getEmailPassword], in a process in which no
    prompt has run before; the second prompt meets the listener of the
    first. *)
Definition askPassword (h : Host) (account : jsstring) (useKeychain : bool)
           (before : list Effect) : Resolution :=
  match promptPassword [] (enterPrompt account) (keys h) with
  | (Entered password, _, rest, ls) =>
      let asked := before ++ [Ask (enterPrompt account)] in
      if useKeychain && darwin h then
        match promptPassword ls storePrompt rest with
        | (Entered store, _, _, _) =>
            mkResolution
              (Password password) false
              (asked ++ [Ask storePrompt]
                     ++ if isYes store
                        then snd (storeInKeychain h service account password)
                        else [])
        | (Aborted, _, _, _) =>
            mkResolution ProcessExit false (asked ++ [Ask storePrompt])
        | (StillWaiting, _, _, _) =>
            mkResolution WaitingForInput false (asked ++ [Ask storePrompt])
        end
      else mkResolution (Password password) false asked
  | (Aborted, _, _, _) =>
      mkResolution ProcessExit false (before ++ [Ask (enterPrompt account)])
  | (StillWaiting, _, _, _) =>
      mkResolution WaitingForInput false (before ++ [Ask (enterPrompt account)])
  end.

(** [getEmailPassword(email, useKeychain)] *)
Definition getEmailPassword (h : Host) (account : jsstring) (useKeychain : bool)
  : Resolution :=
  let fromEnv :=
    match appPassword h with
    | Some v => if Js.truthy v && Js.truthy (JsText.trim v) then Some v else None
    | None => None
    end in
  match fromEnv with
  | Some v =>
      let clean := cleanEnvPassword v in
      mkResolution (Password clean) (badLength clean) []
  | None =>
      if useKeychain && darwin h then
        match getFromKeychain h service account with
        | (Some kp, eff) =>
            if Js.truthy kp then
              let clean := JsText.removeSpaces (JsText.trim kp) in
              mkResolution (Password clean) (badLength clean) eff
            else askPassword h account useKeychain eff
        | (None, eff) => askPassword h account useKeychain eff
        end
      else askPassword h account useKeychain []
  end.

(** [getEmail()]: the address and whether it was asked for; [typed] is the
    line that answers the question. *)
Definition getEmail (h : Host) (typed : jsstring) : jsstring * bool :=
  match emailVar h with
  | Some e => if Js.truthy e then (e, false) else (JsText.trim typed, true)
  | None => (JsText.trim typed, true)
  end.

End Credentials.

(* ================================================================== *)
(** ** verify-app-password.ts *)

Module Verify.
Import Credentials.

(** [getFromKeychain(account)] of the script: no test of the platform. *)
Definition getFromKeychain (h : Host) (account : jsstring) : option jsstring :=
  let r := findPassword h service account in
  if isZero (exitCode r) && Js.truthy (JsText.trim (stdout r))
  then Some (JsText.trim (stdout r)) else None.

(** [main()]: the code with which the process exits, [argv2] being
    [process.argv[2]]. *)
Definition main (h : Host) (argv2 : option jsstring) : Z :=
  let email := Js.orElse (emailVar h) (Js.orElse argv2 []) in
  if negb (Js.truthy email) then 1
  else match getFromKeychain h email with
       | None => 1
       | Some password =>
           if Js.truthy password then
             if (List.length (JsText.removeSpaces password) =? 16)%nat
             then 0 else 1
           else 1
       end.

End Verify.

(* ================================================================== *)
(** ** The earlier [main], which asks for what the environment lacks *)

Module OldLauncher.
Import Credentials.

Definition template : jsstring := Js.lit "your-email@gmail.com".

(** The address that [main] goes on with, and whether it was asked for. *)
Definition chooseEmail (h : Host) (typed : jsstring) : jsstring * bool :=
  match emailVar h with
  | Some e =>
      if JsText.eqb e template then getEmail h typed
      else if Js.truthy e then (e, false)
      else getEmail h typed
  | None => getEmail h typed
  end.

(** [process.env.USE_KEYCHAIN !== "false"] *)
Definition useKeychain (env : Env.t) : bool :=
  match Env.get (Js.lit "USE_KEYCHAIN") env with
  | Some v => negb (JsText.eqb v (Js.lit "false"))
  | None => true
  end.

(** The address and the password with which [main] builds its
    configuration; the host reads its variables from [env]. *)
Definition credentials (env : Env.t) (h : Host) (typed : jsstring)
  : jsstring * Resolution :=
  let h' := mkHost (Env.get (Js.lit "APP_PASSWORD") env)
                   (Env.get (Js.lit "EMAIL") env)
                   (darwin h) (findPassword h) (addPassword h) (keys h) in
  let address := fst (chooseEmail h' typed) in
  (address, getEmailPassword h' address (useKeychain env)).

End OldLauncher.

(* ================================================================== *)
(** ** web-automation.ts: [enterCode] and [waitForLoginSuccess] *)

Module WebMore.
Import Web.

Definition codeSelectors : list jsstring :=
  [ Js.lit "input[inputmode=" ++ quoted "numeric" ++ Js.lit "]";
    Js.lit "input[type=" ++ quoted "number" ++ Js.lit "]";
    Js.lit "input[type=" ++ quoted "text" ++ Js.lit "][name*="
      ++ quoted "code" ++ Js.lit " i]";
    Js.lit "input[type=" ++ quoted "text" ++ Js.lit "][id*="
      ++ quoted "code" ++ Js.lit " i]";
    Js.lit "input[placeholder*=" ++ quoted "code" ++ Js.lit " i]";
    Js.lit "input[placeholder*=" ++ quoted "magic" ++ Js.lit " i]" ].

Definition codeSubmitSelectors : list jsstring :=
  [ Js.lit "button[type=" ++ quoted "submit" ++ Js.lit "]";
    Js.lit "button:has-text(" ++ quoted "Continue" ++ Js.lit ")";
    Js.lit "button:has-text(" ++ quoted "Verify" ++ Js.lit ")";
    Js.lit "button:has-text(" ++ quoted "Login" ++ Js.lit ")";
    Js.lit "[role=" ++ quoted "button" ++ Js.lit "]:has-text("
      ++ quoted "Continue" ++ Js.lit ")" ].

Definition successIndicators : list jsstring :=
  [ Js.lit "[data-testid=" ++ quoted "workspace" ++ Js.lit "]";
    Js.lit ".workspace";
    Js.lit "[aria-label*=" ++ quoted "workspace" ++ Js.lit " i]";
    Js.lit "nav";
    Js.lit "header" ].

Definition codeInputNotFound : Error :=
  Thrown (Js.lit "Could not find code input field").

(** The error of [enterCode] when no selector matched: the inputs of the
    page are listed first, and [listing] is the error of that [$$eval] when
    it throws. *)
Definition notFound (listing : option jsstring) : Error :=
  match listing with
  | Some message => Thrown message
  | None => codeInputNotFound
  end.

(** The pause [waitForTimeout] that ends a step: [pause] is its error when
    it throws, as it does when the page is closed meanwhile. *)
Definition afterPause (pause : option jsstring) (acts : list Action)
  : Promise unit * list Action :=
  match pause with
  | Some message => (Rejected (Thrown message), acts)
  | None => (Resolved tt, acts)
  end.

(** [enterCode(code)]: the promise and the actions carried out. *)
Definition enterCode (page : option Page) (listing pause : option jsstring)
           (code : jsstring) : Promise unit * list Action :=
  match page with
  | None => (Rejected BrowserNotInitialized, [])
  | Some pg =>
      match findInput pg codeSelectors with
      | None => (Rejected (notFound listing), [])
      | Some found =>
          if negb (Js.truthy found) then (Rejected (notFound listing), [])
          else
            match fill pg found code with
            | Some message => (Rejected (Thrown message), [])
            | None =>
                match clickSubmit pg codeSubmitSelectors with
                | Some sel => afterPause pause [Fill found code; Click sel]
                | None =>
                    match press pg found with
                    | Some message =>
                        (Rejected (Thrown message), [Fill found code])
                    | None =>
                        afterPause pause [Fill found code; PressEnter found]
                    end
                end
            end
      end
  end.

(** What [waitForLoginSuccess] logs before it returns. *)
Inductive Verdict : Type :=
| Indicated (selector : jsstring)   (* "Login successful!" *)
| UrlChanged                        (* "Login successful! (URL changed)" *)
| Unconfirmed.                      (* "Could not confirm login success" *)

(** [waitForLoginSuccess(successIndicators)]; [waitForSelector] is called
    for the default state, in which it yields an element or throws. *)
Definition waitForLoginSuccess (page : option Page) (pause : option jsstring)
           (indicators : list jsstring) : Promise Verdict :=
  match page with
  | None => Rejected BrowserNotInitialized
  | Some pg =>
      match findInput pg indicators with
      | Some sel => Resolved (Indicated sel)
      | None =>
          match pause with
          | Some message => Rejected (Thrown message)
          | None =>
              if negb (Js.includes (url pg) (Js.lit "/login"))
                 && negb (Js.includes (url pg) (Js.lit "/signin"))
              then Resolved UrlChanged
              else Resolved Unconfirmed
          end
      end
  end.

End WebMore.

(* ================================================================== *)
(** ** Vocabulary of the properties *)

Module Spec.
Import Regex Extract Monitor.

Section Spans.
Variable p : N -> bool.

(** The longest prefix whose characters all satisfy [p], and the rest. *)
Fixpoint takeWhile (s : jsstring) : jsstring :=
  match s with
  | c :: t => if p c then c :: takeWhile t else []
  | [] => []
  end.

Fixpoint dropWhile (s : jsstring) : jsstring :=
  match s with
  | c :: t => if p c then dropWhile t else s
  | [] => []
  end.
End Spans.

(** Six digits stand at the start of [s]. *)
Definition sixDigitsAt (s : jsstring) : bool :=
  (6 <=? List.length s)%nat && forallb isDigit (firstn 6 s).

(** The label of the subject, and the code that follows it at the start of
    [s]: the label, any white space, then the whole run of digits. *)
Definition label : jsstring := Js.lit "Expensify magic code:".

Definition labelCodeAt (s : jsstring) : option (jsstring * jsstring) :=
  match Js.stripPrefix label s with
  | Some r =>
      match takeWhile isDigit (dropWhile isSpace r) with
      | [] => None
      | ds => Some (dropWhile isDigit (dropWhile isSpace r), ds)
      end
  | None => None
  end.

(** The code after the leftmost label of [s] that a code follows. *)
Fixpoint leftmostLabelCode (s : jsstring) : option jsstring :=
  match labelCodeAt s with
  | Some (_, ds) => Some ds
  | None =>
      match s with
      | [] => None
      | _ :: t => leftmostLabelCode t
      end
  end.

(** The leftmost six consecutive digits of [s]. *)
Fixpoint leftmostSix (s : jsstring) : option jsstring :=
  if sixDigitsAt s then Some (firstn 6 s)
  else match s with
       | [] => None
       | _ :: t => leftmostSix t
       end.

(** Following the words of the specification, "the first standalone run of
    exactly six digits": the maximal runs of digits of [s], in order, [cur]
    being the run under way. *)
Fixpoint digitRuns (cur s : jsstring) : list jsstring :=
  match s with
  | [] => match cur with [] => [] | _ => [cur] end
  | c :: t =>
      if isDigit c then digitRuns (cur ++ [c]) t
      else match cur with
           | [] => digitRuns [] t
           | _ => cur :: digitRuns [] t
           end
  end.

Definition firstStandaloneSix (s : jsstring) : option jsstring :=
  find (fun r => (List.length r =? 6)%nat) (digitRuns [] s).

(** The entry of [validEmails] that a fetched message yields, if any. *)
Definition candidate (sinceTime : option Z) (m : FetchedMessage)
  : option ValidEmail :=
  match usableUid (attrUid m), parsed m with
  | Some u, Parsed p =>
      if isOld sinceTime (date p) then None
      else match extractCode p, date p with
           | Some c, Some d => Some (mkValid u c d)
           | _, _ => None
           end
  | _, _ => None
  end.

Fixpoint candidates (sinceTime : option Z) (ms : list FetchedMessage)
  : list ValidEmail :=
  match ms with
  | [] => []
  | m :: rest =>
      match candidate sinceTime m with
      | Some v => v :: candidates sinceTime rest
      | None => candidates sinceTime rest
      end
  end.

(** The promise and the flags of a cycle whose best candidate is the head
    of [sorted]. *)
Definition settledWith (sorted : list ValidEmail)
  : Promise (option jsstring) * list N :=
  match sorted with
  | best :: _ => (Resolved (Some (code best)), [uid best])
  | [] => (Resolved None, [])
  end.

(** What holds of a cycle after the events that delivered the messages
    [ms]: the array holds candidates of these messages only, and a message
    is flagged exactly when the promise resolved with its code. *)
Definition cycleInv (sinceTime : option Z) (ms : list FetchedMessage)
           (st : Cycle) : Prop :=
  (forall v, In v (validEmails st) -> In v (candidates sinceTime ms))
  /\ match promise st with
     | Resolved (Some c) =>
         resolved st = true
         /\ exists best,
             In best (validEmails st) /\ c = code best /\ seen st = [uid best]
     | Resolved None | Rejected _ => resolved st = true /\ seen st = []
     | Pending => resolved st = false /\ seen st = []
     end.

(** The messages of the body events. *)
Fixpoint bodies (es : list FetchEvent) : list FetchedMessage :=
  match es with
  | [] => []
  | Body m :: rest => m :: bodies rest
  | FetchError _ :: rest => bodies rest
  end.

(** The parsed date of a message is before [since]. *)
Definition olderThan (since : Z) (m : FetchedMessage) : bool :=
  match parsed m with
  | Parsed p => isOld (Some since) (date p)
  | ParseFailed _ => false
  end.

(** A poll in which the fetch delivers one body per search result and no
    error: [ms] are its messages in the order in which they are processed. *)
Definition regular (from : jsstring) (ms : list FetchedMessage) (poll : Poll)
  : Prop :=
  openInbox poll = None
  /\ events poll = map Body ms
  /\ exists uids, search poll from = SearchOk (Some uids)
                  /\ List.length uids = List.length ms.

(** A poll that finds no code: the inbox opens and [findCode] resolves with
    [null]. *)
Definition quiet (from : jsstring) (sinceTime : option Z) (poll : Poll) : Prop :=
  openInbox poll = None
  /\ promise (findCode sinceTime (search poll from) (events poll)) = Resolved None.

(** When poll [k] starts, the earlier ones having found no code. *)
Fixpoint startOf (box : Mailbox) (k : nat) : Z :=
  match k with
  | O => 0
  | S j => startOf box j + Z.of_N (duration (polls box j)) + pollInterval
  end.

(** When poll [k] ends. *)
Definition endOf (box : Mailbox) (k : nat) : Z :=
  startOf box k + Z.of_N (duration (polls box k)).

(** The parser accepted the message. *)
Definition parsedOk (m : FetchedMessage) : bool :=
  match parsed m with
  | Parsed _ => true
  | ParseFailed _ => false
  end.

(** [waitForCode] gets as far as poll [k]. *)
Definition reaches (box : Mailbox) (from : jsstring) (maxWaitTime : Z)
           (sinceTime : option Z) (k : nat) : Prop :=
  startOf box k <= maxWaitTime
  /\ forall j, (j < k)%nat -> quiet from sinceTime (polls box j).

(** The calls that follow the connection in a run of [login]. *)
Definition expected (cfg : AutoLogin.Config) (w : AutoLogin.World)
           (c : AutoLogin.Call) : Prop :=
  c = AutoLogin.Init (AutoLogin.headless cfg) (AutoLogin.devtools cfg)
  \/ c = AutoLogin.NavigateToLogin (AutoLogin.loginUrl cfg)
  \/ c = AutoLogin.EnterEmail
           (AutoLogin.email cfg)
           (snd (Web.enterEmail (Some (AutoLogin.loginPage w))
                                (AutoLogin.email cfg)))
  \/ (exists marked,
         c = AutoLogin.WaitForCode (AutoLogin.fromEmail cfg) 60000 None marked)
  \/ (exists found, c = AutoLogin.EnterCode found)
  \/ c = AutoLogin.WaitForLoginSuccess
  \/ c = AutoLogin.Disconnect.

End Spec.

(* ================================================================== *)
(** ** Mailboxes and messages of the examples *)

Module Scenario.
Import Extract Monitor.

(** A message with a uid, a subject, a date and a plain-text body. *)
Definition message (u : N) (subj : string) (d : Z) (body : string)
  : FetchedMessage :=
  mkMessage (Some u)
            (Parsed (mkParsed (Some (Js.lit subj)) (Some d)
                              (Some (Js.lit body)) None)).

(** A poll that fetches the messages [ms] in [dur] milliseconds. *)
Definition pollOf (ms : list FetchedMessage) (dur : N) : Poll :=
  mkPoll None
         (fun _ => SearchOk (Some (map (fun m => match attrUid m with
                                                 | Some u => u
                                                 | None => 0%N
                                                 end) ms)))
         (map Body ms) dur.

(** A poll whose search finds nothing. *)
Definition silentPoll : Poll := pollOf [] 150.

(** A mailbox that answers the polls of the list, then finds nothing. *)
Definition boxOf (l : list Poll) : Mailbox :=
  mkMailbox Ready (fun i => nth i l silentPoll).

Definition sender : jsstring := Js.lit "concierge@expensify.com".

(** The two candidates around [T]. *)
Definition before5s (T : Z) : FetchedMessage :=
  message 11 "Expensify magic code: 111111" (T - 5000) "Your code is 111111".

Definition after5s (T : Z) : FetchedMessage :=
  message 12 "Expensify magic code: 222222" (T + 5000) "Your code is 222222".

(** A message whose subject lacks the label and whose body holds the code
    482913 on its own. *)
Definition codeInBody : ParsedMail :=
  mkParsed (Some (Js.lit "Your login")) None
           (Some (Js.lit "Use 482913 to sign in.")) None.

(** The same with a longer run of digits before the code. *)
Definition longRunBeforeCode : ParsedMail :=
  mkParsed (Some (Js.lit "Your login")) None
           (Some (Js.lit "Ref 1234567, code 482913")) None.

(** The code in the subject and another six digits in the body. *)
Definition codeInBoth : ParsedMail :=
  mkParsed (Some (Js.lit "Expensify magic code: 147826")) (Some 0)
           (Some (Js.lit "Ref 999999")) None.

(** A page on which no selector finds anything, at the url [u]. *)
Definition blankPage (u : string) : Web.Page :=
  Web.mkPage (fun _ => false) (Js.lit u) (fun _ _ => None) (fun _ => false)
             (fun _ => false) (fun _ => None) None.

(** A login page on which every selector finds its element. *)
Definition loginForm : Web.Page :=
  Web.mkPage (fun _ => true) (Js.lit "https://new.expensify.com/")
             (fun _ _ => None) (fun _ => true) (fun _ => true) (fun _ => None)
             None.

(** A configuration with a tagged address. *)
Definition tagged : AutoLogin.Config :=
  AutoLogin.mkConfig (Js.lit "user+tag@gmail.com") (Js.lit "abcdefghijklmnop")
                     (Js.lit "https://new.expensify.com/") sender false false.

(** A world in which the browser works and a message from 1970 with a code
    waits unread. *)
Definition oldUnread : AutoLogin.World :=
  AutoLogin.mkWorld
    (boxOf [pollOf [message 21 "Expensify magic code: 147826" 0 "147826"] 300])
    None (fun _ => None) loginForm (fun _ => None) None.

(** A message that the parser rejects. *)
Definition unparsable : FetchedMessage :=
  mkMessage (Some 13%N) (ParseFailed (Js.lit "Unexpected end of input")).


End Scenario.

(* ================================================================== *)
(** ** More vocabulary *)

Module Spec2.
Import Regex.

(** A character that is not white space. *)
Definition notSpace (c : N) : bool := negb (isSpace c).

(** The characters outside a class. *)
Definition outside (p : N -> bool) (c : N) : bool := negb (p c).

(** [p] occurs in [s]. *)
Definition contains (s : jsstring) (p : string) : Prop :=
  exists a b, s = a ++ Js.lit p ++ b.

(** The variables that the lines of a [.env] text set, in order. *)
Fixpoint assignmentsOf (lines : list jsstring) : list (jsstring * jsstring) :=
  match lines with
  | [] => []
  | line :: rest =>
      match Launcher.parseLine line with
      | Some kv => kv :: assignmentsOf rest
      | None => assignmentsOf rest
      end
  end.

Definition assignments (text : jsstring) : list (jsstring * jsstring) :=
  assignmentsOf (JsText.split 10 text).

(** The last value that a list of assignments gives to [key]. *)
Definition lastAssigned (key : jsstring) (l : list (jsstring * jsstring))
  : option jsstring :=
  option_map snd (find (fun kv => JsText.eqb key (fst kv)) (rev l)).

(** [APP_PASSWORD] is unset or blank. *)
Definition noEnvPassword (h : Credentials.Host) : Prop :=
  Credentials.appPassword h = None
  \/ exists v, Credentials.appPassword h = Some v /\ forallb isSpace v = true.

(** The effect is a question on the terminal. *)
Definition isAsk (e : Credentials.Effect) : Prop :=
  exists m, e = Credentials.Ask m.

(** The number of the elements of [ws] equal to [w]. *)
(** What the listeners [ls] write on a key, one piece per listener that
    writes. *)
Definition writes (ch : Credentials.Chunk) (ls : Credentials.Listeners)
  : list jsstring :=
  filter Js.truthy (map (fun p => snd (Credentials.onKey ch p)) ls).

Definition count (w : jsstring) (ws : list jsstring) : nat :=
  List.length (filter (JsText.eqb w) ws).

End Spec2.

(* ================================================================== *)
(** ** Facts about the matcher *)

Module RegexFacts.
Import Regex Spec.

Section Star.
Variable A : Type.
Variable p : N -> bool.

Lemma take_drop (s : jsstring) : takeWhile p s ++ dropWhile p s = s.
Proof.
  induction s as [|c t IH]; simpl; [reflexivity|].
  destruct (p c); simpl; [now rewrite IH | reflexivity].
Qed.

Lemma takeWhile_all (s : jsstring) : forallb p (takeWhile p s) = true.
Proof.
  induction s as [|c t IH]; simpl; [reflexivity|].
  destruct (p c) eqn:E; simpl; [now rewrite E | reflexivity].
Qed.

Lemma dropWhile_length (s : jsstring) :
  (List.length (dropWhile p s) <= List.length s)%nat.
Proof.
  induction s as [|c t IH]; simpl; [lia|].
  destruct (p c); simpl; lia.
Qed.

Lemma firstn_takeWhile (s : jsstring) :
  firstn (List.length s - List.length (dropWhile p s)) s = takeWhile p s.
Proof.
  induction s as [|c t IH]; [reflexivity|].
  cbn [takeWhile dropWhile]. destruct (p c) eqn:E.
  - pose proof (dropWhile_length t).
    replace (List.length (c :: t) - List.length (dropWhile p t))%nat
      with (S (List.length t - List.length (dropWhile p t)))
      by (cbn [List.length]; lia).
    cbn [firstn]. now rewrite IH.
  - now rewrite Nat.sub_diag.
Qed.

Lemma dropWhile_head (s : jsstring) (c : N) (t : jsstring) :
  dropWhile p s = c :: t -> p c = false.
Proof.
  induction s as [|x s' IH]; simpl; [discriminate|].
  destruct (p x) eqn:E; [exact IH|].
  intros H. injection H as -> _. exact E.
Qed.

(** A continuation that cannot fail takes the longest run. *)
Lemma star_commit (k : jsstring -> option A) (s : jsstring) :
  (forall s', k s' <> None) ->
  star p s k = k (dropWhile p s).
Proof.
  intros Hk. induction s as [|c t IH]; simpl; [reflexivity|].
  destruct (p c); [|reflexivity].
  rewrite IH. destruct (k (dropWhile p t)) eqn:E; [reflexivity|].
  now apply Hk in E.
Qed.

(** Giving characters back is of no use to a continuation that fails on
    every character of the class. *)
Lemma star_greedy (k : jsstring -> option A) (s : jsstring) :
  (forall c t, p c = true -> k (c :: t) = None) ->
  star p s k = k (dropWhile p s).
Proof.
  intros Hk. induction s as [|c t IH]; simpl; [reflexivity|].
  destruct (p c) eqn:E; [|reflexivity].
  rewrite IH. destruct (k (dropWhile p t)) eqn:E'; [reflexivity|].
  now apply Hk.
Qed.

Lemma times_spec (n : nat) (k : jsstring -> option A) (s : jsstring) :
  times n p s k =
  if (n <=? List.length s)%nat && forallb p (firstn n s)
  then k (skipn n s) else None.
Proof.
  revert s. induction n as [|n IH]; intros s; simpl; [reflexivity|].
  destruct s as [|c t]; simpl; [reflexivity|].
  destruct (p c); simpl; [apply IH|].
  now rewrite andb_false_r.
Qed.
End Star.

Lemma space_not_digit (c : N) : isSpace c = true -> isDigit c = false.
Proof.
  unfold isSpace, isDigit. intros H.
  destruct (48 <=? c)%N eqn:E1; [|reflexivity].
  destruct (c <=? 57)%N eqn:E2; [|reflexivity].
  apply N.leb_le in E1, E2. exfalso.
  repeat (apply orb_true_iff in H; destruct H as [H|H]);
    repeat match goal with
      | H : (_ && _)%bool = true |- _ => apply andb_true_iff in H; destruct H
      | H : (_ <=? _)%N = true |- _ => apply N.leb_le in H
      | H : (_ =? _)%N = true |- _ => apply N.eqb_eq in H
      end; lia.
Qed.

Lemma exec_Lit (A : Type) (l : jsstring) (r : regex) (s : jsstring)
      (cap : option jsstring) (k : jsstring -> option jsstring -> option A) :
  exec (Lit l r) s cap k =
  match Js.stripPrefix l s with
  | Some s' => exec r s' cap k
  | None => None
  end.
Proof.
  revert s. induction l as [|c l IH]; intros s; simpl; [reflexivity|].
  destruct s as [|x t]; [reflexivity|].
  rewrite (N.eqb_sym x c). destruct (c =? x)%N; [apply IH | reflexivity].
Qed.

Lemma stripPrefix_app (l s r : jsstring) :
  Js.stripPrefix l s = Some r -> s = l ++ r.
Proof.
  revert s. induction l as [|c l IH]; intros s; simpl.
  - now intros [= ->].
  - destruct s as [|x t]; [discriminate|].
    destruct (c =? x)%N eqn:E; [|discriminate].
    apply N.eqb_eq in E. subst x. intros H. now rewrite (IH _ H).
Qed.

(** The subject pattern at one position. *)
Lemma matchHere_subject (s : jsstring) :
  matchHere Extract.subjectPattern s =
  match labelCodeAt s with
  | Some (rest, ds) => Some (rest, Some ds)
  | None => None
  end.
Proof.
  unfold matchHere, Extract.subjectPattern, labelCodeAt. rewrite exec_Lit.
  fold label. destruct (Js.stripPrefix label s) as [r|]; [|reflexivity].
  cbn [exec]. rewrite star_greedy.
  - destruct (dropWhile isSpace r) as [|x t] eqn:E; [reflexivity|].
    cbn [takeWhile dropWhile]. destruct (isDigit x) eqn:Ex; [|reflexivity].
    rewrite star_commit by discriminate.
    pose proof (dropWhile_length isDigit t).
    replace (List.length (x :: t) - List.length (dropWhile isDigit t))%nat
      with (S (List.length t - List.length (dropWhile isDigit t)))
      by (cbn [List.length]; lia).
    cbn [firstn]. now rewrite firstn_takeWhile.
  - intros c t Hc. now rewrite (space_not_digit c Hc).
Qed.

(** The body pattern at one position. *)
Lemma matchHere_body (s : jsstring) :
  matchHere Extract.bodyPattern s =
  if sixDigitsAt s then Some (skipn 6 s, Some (firstn 6 s)) else None.
Proof.
  unfold matchHere, Extract.bodyPattern, sixDigitsAt. cbn [exec].
  rewrite times_spec.
  destruct (6 <=? List.length s)%nat eqn:E; [|reflexivity].
  destruct (forallb isDigit (firstn 6 s)); [|reflexivity].
  cbn [andb]. apply Nat.leb_le in E.
  rewrite length_skipn.
  replace (List.length s - (List.length s - 6))%nat with 6%nat by lia.
  reflexivity.
Qed.

End RegexFacts.

(* ================================================================== *)
(** ** Facts about the extraction rules *)

Module ExtractFacts.
Import Regex Extract Spec RegexFacts.

Lemma labelCodeAt_truthy (s rest ds : jsstring) :
  labelCodeAt s = Some (rest, ds) -> Js.truthy ds = true.
Proof.
  unfold labelCodeAt. destruct (Js.stripPrefix label s) as [r|]; [|discriminate].
  destruct (takeWhile isDigit (dropWhile isSpace r)) eqn:E; [discriminate|].
  now intros [= <- <-].
Qed.

Lemma search_subject (pre s : jsstring) :
  truthyGroup (searchFrom subjectPattern pre s) = leftmostLabelCode s.
Proof.
  revert pre. induction s as [|c t IH]; intros pre.
  - reflexivity.
  - cbn [searchFrom leftmostLabelCode]. rewrite matchHere_subject.
    destruct (labelCodeAt (c :: t)) as [[rest ds]|] eqn:E; [|apply IH].
    cbn [truthyGroup group1]. now rewrite (labelCodeAt_truthy _ E).
Qed.

Lemma sixDigitsAt_length (s : jsstring) :
  sixDigitsAt s = true -> List.length (firstn 6 s) = 6%nat.
Proof.
  unfold sixDigitsAt. intros H. apply andb_true_iff in H as [H _].
  apply Nat.leb_le in H. rewrite length_firstn. lia.
Qed.

Lemma search_body (pre s : jsstring) :
  truthyGroup (searchFrom bodyPattern pre s) = leftmostSix s.
Proof.
  revert pre. induction s as [|c t IH]; intros pre.
  - reflexivity.
  - cbn [searchFrom leftmostSix]. rewrite matchHere_body.
    destruct (sixDigitsAt (c :: t)) eqn:E; [|apply IH].
    apply sixDigitsAt_length in E. cbn [truthyGroup group1].
    destruct (firstn 6 (c :: t)); [discriminate|reflexivity].
Qed.

Lemma subjectCode_spec (p : ParsedMail) :
  subjectCode p = leftmostLabelCode (Js.orElse (subject p) []).
Proof. apply search_subject. Qed.

Lemma bodyCode_spec (p : ParsedMail) :
  bodyCode p = leftmostSix (bodyText p).
Proof. apply search_body. Qed.

Lemma labelCodeAt_sound (s rest ds : jsstring) :
  labelCodeAt s = Some (rest, ds) ->
  exists ws,
    s = label ++ ws ++ ds ++ rest
    /\ forallb isSpace ws = true
    /\ forallb isDigit ds = true
    /\ ds <> []
    /\ (forall x t, rest = x :: t -> isDigit x = false).
Proof.
  unfold labelCodeAt.
  destruct (Js.stripPrefix label s) as [r|] eqn:Er; [|discriminate].
  apply stripPrefix_app in Er. subst s.
  pose proof (take_drop isSpace r) as Hws.
  pose proof (take_drop isDigit (dropWhile isSpace r)) as Hds.
  pose proof (takeWhile_all isDigit (dropWhile isSpace r)) as Hall.
  destruct (takeWhile isDigit (dropWhile isSpace r)) as [|d ds'] eqn:Ed;
    [discriminate|].
  intros [= <- <-]. exists (takeWhile isSpace r). repeat split.
  - now rewrite Hds, Hws.
  - apply takeWhile_all.
  - exact Hall.
  - discriminate.
  - intros y u. apply dropWhile_head.
Qed.

(** What the subject rule returns stands in the subject, after the label
    and white space, and is a whole run of digits. *)
Lemma leftmostLabelCode_sound (s c : jsstring) :
  leftmostLabelCode s = Some c ->
  exists pre ws rest,
    s = pre ++ label ++ ws ++ c ++ rest
    /\ forallb isSpace ws = true
    /\ forallb isDigit c = true
    /\ c <> []
    /\ (forall x t, rest = x :: t -> isDigit x = false).
Proof.
  induction s as [|x t IH]; cbn [leftmostLabelCode].
  - discriminate.
  - destruct (labelCodeAt (x :: t)) as [[rest ds]|] eqn:E.
    + intros [= <-]. destruct (labelCodeAt_sound _ E) as (ws & H).
      exists [], ws, rest. exact H.
    + intros H. destruct (IH H) as (pre & ws & rest & -> & Hr).
      exists (x :: pre), ws, rest. split; [reflexivity | exact Hr].
Qed.

Lemma sixDigitsAt_here (c post : jsstring) :
  List.length c = 6%nat -> forallb isDigit c = true ->
  sixDigitsAt (c ++ post) = true /\ firstn 6 (c ++ post) = c.
Proof.
  intros Hl Hd.
  assert (F : firstn 6 (c ++ post) = c).
  { rewrite <- Hl, firstn_app, Nat.sub_diag, firstn_all. cbn [firstn].
    apply app_nil_r. }
  split; [|exact F]. unfold sixDigitsAt. rewrite F, Hd, length_app, Hl.
  reflexivity.
Qed.

(** The leftmost window of six digits is the one returned. *)
Lemma leftmostSix_complete (pre c post : jsstring) :
  List.length c = 6%nat -> forallb isDigit c = true ->
  (forall k, (k < List.length pre)%nat ->
             sixDigitsAt (skipn k (pre ++ c ++ post)) = false) ->
  leftmostSix (pre ++ c ++ post) = Some c.
Proof.
  intros Hl Hd. induction pre as [|x pre IH]; intros Hpre.
  - cbn [app]. destruct (sixDigitsAt_here c post Hl Hd) as [H1 H2].
    destruct c as [|y c']; [discriminate|]. cbn [app] in *.
    cbn [leftmostSix]. now rewrite H1, H2.
  - assert (H0 : sixDigitsAt (x :: pre ++ c ++ post) = false)
      by (apply (Hpre 0%nat); cbn [List.length]; lia).
    cbn [app leftmostSix]. rewrite H0.
    apply IH. intros k Hk. apply (Hpre (S k)). cbn [List.length]. lia.
Qed.

Lemma leftmostSix_sound (s c : jsstring) :
  leftmostSix s = Some c ->
  List.length c = 6%nat /\ forallb isDigit c = true
  /\ exists pre post,
      s = pre ++ c ++ post
      /\ forall k, (k < List.length pre)%nat -> sixDigitsAt (skipn k s) = false.
Proof.
  revert c. induction s as [|x t IH]; intros c; cbn [leftmostSix].
  - cbn. discriminate.
  - destruct (sixDigitsAt (x :: t)) eqn:E.
    + intros H. assert (Hc : c = firstn 6 (x :: t)) by congruence.
      clear IH H. subst c. split; [now apply sixDigitsAt_length|].
      split; [unfold sixDigitsAt in E; now apply andb_true_iff in E|].
      exists [], (skipn 6 (x :: t)). split.
      * cbn [app]. symmetry. apply firstn_skipn.
      * cbn [List.length]. lia.
    + intros H. destruct (IH _ H) as (Hl & Hd & pre & post & Hs & Hm).
      split; [exact Hl|]. split; [exact Hd|].
      exists (x :: pre), post. split; [now rewrite Hs|].
      intros [|k] Hk; [exact E|]. apply Hm. cbn [List.length] in Hk. lia.
Qed.

Lemma leftmostSix_none (s : jsstring) :
  (forall k, sixDigitsAt (skipn k s) = false) -> leftmostSix s = None.
Proof.
  induction s as [|x t IH]; intros H; cbn [leftmostSix].
  - reflexivity.
  - pose proof (H 0%nat) as H0. cbn [skipn] in H0. rewrite H0.
    apply IH. intros k. apply (H (S k)).
Qed.

(** A code that was extracted is a non-empty string. *)
Lemma extractCode_truthy (p : ParsedMail) (c : jsstring) :
  extractCode p = Some c -> Js.truthy c = true.
Proof.
  assert (G : forall m, truthyGroup m = Some c -> Js.truthy c = true).
  { intros [r|]; cbn; [|discriminate].
    destruct (group1 r) as [g|]; [|discriminate].
    destruct (Js.truthy g) eqn:E; [|discriminate]. now intros [= <-]. }
  unfold extractCode. destruct (subjectCode p) eqn:E.
  - intros [= <-]. exact (G _ E).
  - apply G.
Qed.

End ExtractFacts.

(* ================================================================== *)
(** ** Facts about one [findCode] cycle *)

Module CycleFacts.
Import Extract Monitor Spec ExtractFacts.

(** The head of the sorted array is the first element of the latest date. *)
Lemma sort_head (l : list ValidEmail) (b : ValidEmail) (r : list ValidEmail) :
  sort l = b :: r ->
  exists l1 l2,
    l = l1 ++ b :: l2
    /\ (forall x, In x l1 -> vdate x < vdate b)
    /\ (forall x, In x l2 -> vdate x <= vdate b).
Proof.
  revert b r. induction l as [|a t IH]; intros b r; cbn [sort].
  - discriminate.
  - destruct (sort t) as [|x s] eqn:Es; cbn [insert].
    + intros [= <- <-]. destruct t as [|y t'].
      * exists [], []. repeat split; intros z [].
      * exfalso. cbn [sort] in Es. destruct (sort t') as [|z u]; cbn in Es.
        -- discriminate.
        -- destruct (compareFn y z <=? 0); discriminate.
    + destruct (IH _ _ eq_refl) as (l1 & l2 & -> & H1 & H2).
      unfold compareFn. destruct (vdate x - vdate a <=? 0) eqn:E.
      * apply Z.leb_le in E. intros [= <- <-]. exists [], (l1 ++ x :: l2).
        repeat split; [intros z [] |].
        intros z Hz. apply in_app_or in Hz as [Hz|[<-|Hz]].
        -- specialize (H1 _ Hz). lia.
        -- lia.
        -- specialize (H2 _ Hz). lia.
      * apply Z.leb_gt in E. intros [= <- <-]. exists (a :: l1), l2.
        repeat split; [| exact H2].
        intros z [<-|Hz]; [lia | now apply H1].
Qed.

Lemma sort_nil (l : list ValidEmail) : sort l = [] -> l = [].
Proof.
  destruct l as [|a t]; [reflexivity|]. cbn [sort].
  destruct (sort t) as [|x s]; cbn [insert]; [discriminate|].
  destruct (compareFn a x <=? 0); discriminate.
Qed.

Lemma insert_In (a x : ValidEmail) (l : list ValidEmail) :
  In x (insert a l) <-> x = a \/ In x l.
Proof.
  induction l as [|y t IH]; cbn [insert].
  - cbn. intuition.
  - destruct (compareFn a y <=? 0); cbn [In]; [intuition|].
    rewrite IH. intuition.
Qed.

Lemma sort_In (x : ValidEmail) (l : list ValidEmail) :
  In x (sort l) <-> In x l.
Proof.
  induction l as [|a t IH]; cbn [sort]; [reflexivity|].
  rewrite insert_In, IH. cbn [In]. intuition.
Qed.

Lemma usableUid_nonzero (u : option N) (n : N) :
  usableUid u = Some n -> n <> 0%N /\ u = Some n.
Proof.
  destruct u as [m|]; cbn; [|discriminate].
  destruct (m =? 0)%N eqn:E; [discriminate|].
  intros [= <-]. apply N.eqb_neq in E. now split.
Qed.

(** What a candidate is made of. *)
Lemma candidate_inv (since : option Z) (m : FetchedMessage) (v : ValidEmail) :
  candidate since m = Some v ->
  exists p,
    parsed m = Parsed p
    /\ attrUid m = Some (uid v) /\ uid v <> 0%N
    /\ extractCode p = Some (code v)
    /\ date p = Some (vdate v)
    /\ isOld since (date p) = false.
Proof.
  unfold candidate. destruct (usableUid (attrUid m)) as [u|] eqn:Eu; [|discriminate].
  destruct (parsed m) as [msg|p] eqn:Ep; [discriminate|].
  destruct (isOld since (date p)) eqn:Eo; [discriminate|].
  destruct (extractCode p) as [c|] eqn:Ec; [|discriminate].
  destruct (date p) as [d|] eqn:Ed; [|discriminate].
  intros [= <-]. cbn [uid code vdate].
  apply usableUid_nonzero in Eu as [Hn Hu].
  exists p. repeat split; auto. now rewrite Ed.
Qed.

Lemma candidates_In (since : option Z) (ms : list FetchedMessage) (v : ValidEmail) :
  In v (candidates since ms) <-> exists m, In m ms /\ candidate since m = Some v.
Proof.
  induction ms as [|m t IH]; cbn [candidates].
  - split; [intros [] | intros (m & [] & _)].
  - destruct (candidate since m) as [v'|] eqn:E; cbn [In]; rewrite IH.
    + split.
      * intros [<-|(m' & Hm & Hc)]; [exists m | exists m']; auto.
      * intros (m' & [<-|Hm] & Hc); [left; congruence | right; exists m'; auto].
    + split.
      * intros (m' & Hm & Hc). exists m'. auto.
      * intros (m' & [<-|Hm] & Hc); [congruence | exists m'; auto].
Qed.

Lemma candidates_app (since : option Z) (ms1 ms2 : list FetchedMessage) :
  candidates since (ms1 ++ ms2) = candidates since ms1 ++ candidates since ms2.
Proof.
  induction ms1 as [|m t IH]; cbn [candidates app]; [reflexivity|].
  destruct (candidate since m); cbn [app]; now rewrite IH.
Qed.

(** The body handler: the candidate of the message is pushed, the count
    goes down, and the closing block runs. *)
Lemma onBody_spec (since : option Z) (m : FetchedMessage) (st : Cycle) :
  onBody since m st =
  finish (countDown match candidate since m with
                    | Some v => push v st
                    | None => st
                    end).
Proof.
  unfold onBody, candidate.
  destruct (usableUid (attrUid m)) as [u|] eqn:Eu; [|reflexivity].
  destruct (parsed m) as [msg|p]; [reflexivity|].
  destruct (isOld since (date p)); [reflexivity|].
  destruct (extractCode p) as [c|] eqn:Ec; [|reflexivity].
  destruct (date p) as [d|]; [|reflexivity].
  rewrite (extractCode_truthy _ Ec).
  apply usableUid_nonzero in Eu as [Hn _]. apply N.eqb_neq in Hn.
  now rewrite Hn.
Qed.

Lemma finish_not_last (st : Cycle) :
  pendingCount st <> 0 -> finish st = st.
Proof.
  intros H. unfold finish. apply Z.eqb_neq in H. now rewrite H.
Qed.

(** While bodies are outstanding the handlers only collect candidates. *)
Lemma bodies_collect (since : option Z) (ms : list FetchedMessage) (st : Cycle) :
  resolved st = false ->
  Z.of_nat (List.length ms) < pendingCount st ->
  fold_left (onEvent since) (map Body ms) st =
  mkCycle (pendingCount st - Z.of_nat (List.length ms))
          (validEmails st ++ candidates since ms) false (promise st) (seen st).
Proof.
  revert st. induction ms as [|m t IH]; intros st Hr Hp.
  - cbn [map fold_left candidates List.length]. rewrite app_nil_r, Z.sub_0_r.
    destruct st; cbn in *; now subst.
  - cbn [map fold_left onEvent]. rewrite onBody_spec.
    cbn [List.length] in Hp. rewrite finish_not_last.
    + rewrite IH.
      * cbn [candidates]. destruct (candidate since m) as [v|];
          cbn [countDown push pendingCount validEmails promise seen];
          [rewrite <- app_assoc; cbn [app]|]; f_equal; cbn [List.length]; lia.
      * now destruct (candidate since m).
      * destruct (candidate since m); cbn; lia.
    + destruct (candidate since m); cbn; lia.
Qed.

(** A search that returns as many uids as the fetch delivers bodies: the
    cycle resolves with the head of the sorted candidates and flags it. *)
Lemma findCode_regular (since : option Z) (uids : list N)
      (ms : list FetchedMessage) :
  List.length uids = List.length ms ->
  (promise (findCode since (SearchOk (Some uids)) (map Body ms)),
   seen (findCode since (SearchOk (Some uids)) (map Body ms)))
  = settledWith (sort (candidates since ms)).
Proof.
  intros Hl. destruct ms as [|m0 t] using rev_ind.
  - destruct uids; [reflexivity | discriminate].
  - clear IHt.
    assert (E : findCode since (SearchOk (Some uids)) (map Body (t ++ [m0]))
                = fold_left (onEvent since) (map Body (t ++ [m0])) (start uids)).
    { destruct uids; [|reflexivity]. rewrite length_app in Hl. cbn in Hl. lia. }
    rewrite E, map_app, fold_left_app, (bodies_collect since t (start uids)).
    + cbn [map fold_left onEvent start pendingCount validEmails promise seen app].
      rewrite onBody_spec, candidates_app.
      rewrite length_app in Hl. cbn [List.length] in Hl.
      assert (Hz : Z.of_nat (List.length uids) - Z.of_nat (List.length t) - 1 = 0)
        by lia.
      cbn [candidates]. unfold finish.
      destruct (candidate since m0) as [v|] eqn:Ev;
        cbn [countDown push pendingCount validEmails resolved promise seen];
        rewrite Hz; cbn [Z.eqb negb andb app]; rewrite ?app_nil_r.
      * destruct (sort (candidates since t ++ [v])) as [|best rest] eqn:Es;
          [reflexivity|].
        cbn [promise seen settle settledWith app].
        assert (Hb : In best (candidates since (t ++ [m0]))).
        { rewrite candidates_app. cbn [candidates]. rewrite Ev.
          apply sort_In. rewrite Es. now left. }
        apply candidates_In in Hb as (m & _ & Hm).
        apply candidate_inv in Hm as (p & _ & _ & Hn & _).
        apply N.eqb_neq in Hn. now rewrite Hn.
      * destruct (sort (candidates since t)) as [|best rest] eqn:Es;
          [reflexivity|].
        cbn [promise seen settle settledWith app].
        assert (Hb : In best (candidates since t))
          by (apply sort_In; rewrite Es; now left).
        apply candidates_In in Hb as (m & _ & Hm).
        apply candidate_inv in Hm as (p & _ & _ & Hn & _).
        apply N.eqb_neq in Hn. now rewrite Hn.
    + reflexivity.
    + cbn [start pendingCount]. rewrite length_app in Hl. cbn in Hl. lia.
Qed.

Lemma cycleInv_start (since : option Z) (uids : list N) :
  cycleInv since [] (start uids).
Proof. split; [intros v [] | now split]. Qed.

Lemma cycleInv_finish (since : option Z) (ms : list FetchedMessage) (st : Cycle) :
  cycleInv since ms st -> cycleInv since ms (finish st).
Proof.
  intros [Hin Hp]. unfold finish.
  destruct ((pendingCount st =? 0) && negb (resolved st)) eqn:E;
    [|now split].
  apply andb_true_iff in E as [_ E]. apply negb_true_iff in E.
  assert (promise st = Pending /\ seen st = []) as [Ep Es].
  { destruct (promise st) as [[c|]|e|]; destruct Hp as [Hr Hs];
      try congruence. now split. }
  destruct (sort (validEmails st)) as [|best rest] eqn:Eq.
  - split; [intros v [] |]. cbn [promise resolved seen]. rewrite Ep.
    now split.
  - assert (Hb : In best (validEmails st))
      by (apply sort_In; rewrite Eq; now left).
    split.
    + cbn [validEmails]. intros v Hv. apply Hin, sort_In. now rewrite Eq.
    + cbn [promise resolved seen validEmails]. rewrite Ep. cbn [settle].
      split; [reflexivity|]. exists best. split; [now left|].
      split; [reflexivity|].
      apply Hin, candidates_In in Hb as (m & _ & Hm).
      apply candidate_inv in Hm as (p & _ & _ & Hn & _).
      apply N.eqb_neq in Hn. now rewrite Hn, Es.
Qed.

Lemma cycleInv_body (since : option Z) (ms : list FetchedMessage)
      (m : FetchedMessage) (st : Cycle) :
  cycleInv since ms st -> cycleInv since (ms ++ [m]) (onBody since m st).
Proof.
  intros [Hin Hp]. rewrite onBody_spec. apply cycleInv_finish.
  assert (Hin' : forall v, In v (validEmails st) ->
                           In v (candidates since (ms ++ [m]))).
  { intros v Hv. rewrite candidates_app. apply in_or_app. left. now apply Hin. }
  destruct (candidate since m) as [v0|] eqn:Ev.
  - split.
    + cbn [countDown push validEmails]. intros v Hv.
      apply in_app_or in Hv as [Hv|[<-|[]]]; [now apply Hin'|].
      rewrite candidates_app. apply in_or_app. right.
      cbn [candidates]. rewrite Ev. now left.
    + cbn [countDown push validEmails promise resolved seen].
      destruct (promise st) as [[c|]|e|]; try exact Hp.
      destruct Hp as (Hr & best & Hb & Hc & Hs). split; [exact Hr|].
      exists best. split; [apply in_or_app; now left | now split].
  - split; [exact Hin' | exact Hp].
Qed.

Lemma cycleInv_error (since : option Z) (ms : list FetchedMessage)
      (message : jsstring) (st : Cycle) :
  cycleInv since ms st -> cycleInv since ms (onFetchError message st).
Proof.
  intros H. unfold onFetchError.
  destruct (resolved st) eqn:E; [exact H|]. destruct H as [Hin Hp].
  split; [exact Hin|]. cbn [promise resolved seen].
  destruct (promise st) as [[c|]|e|]; destruct Hp as [Hr Hs];
    try congruence. now split.
Qed.

Lemma cycleInv_fold (since : option Z) (es : list FetchEvent)
      (ms : list FetchedMessage) (st : Cycle) :
  cycleInv since ms st ->
  cycleInv since (ms ++ bodies es) (fold_left (onEvent since) es st).
Proof.
  revert ms st. induction es as [|e es IH]; intros ms st H.
  - cbn [bodies fold_left]. now rewrite app_nil_r.
  - cbn [fold_left]. destruct e as [m|message]; cbn [bodies onEvent].
    + replace (ms ++ m :: bodies es) with ((ms ++ [m]) ++ bodies es)
        by (rewrite <- app_assoc; reflexivity).
      apply IH. now apply cycleInv_body.
    + apply IH. now apply cycleInv_error.
Qed.

(** Whatever the search answers and the fetch delivers: a cycle flags a
    message only when it resolves with a code, and then exactly the
    message of that code, a candidate of the cycle. *)
Lemma findCode_flags (since : option Z) (search : SearchResult)
      (es : list FetchEvent) :
  match promise (findCode since search es) with
  | Resolved (Some found) =>
      exists best,
        In best (candidates since (bodies es))
        /\ found = code best
        /\ seen (findCode since search es) = [uid best]
  | _ => seen (findCode since search es) = []
  end.
Proof.
  assert (G : forall st, cycleInv since (bodies es) st ->
              match promise st with
              | Resolved (Some found) =>
                  exists best,
                    In best (candidates since (bodies es))
                    /\ found = code best /\ seen st = [uid best]
              | _ => seen st = []
              end).
  { intros st [Hin Hp]. destruct (promise st) as [[c|]|e|]; try apply Hp.
    destruct Hp as (_ & best & Hb & Hc & Hs). exists best. auto. }
  destruct search as [message|[[|u uids]|]]; cbn; try reflexivity.
  apply G. apply (cycleInv_fold es (ms := [])). apply cycleInv_start.
Qed.

End CycleFacts.

(* ================================================================== *)
(** ** Facts about the polling loop *)

Module WaitFacts.
Import Extract Monitor Spec CycleFacts.

Section Loop.
Variable box : Mailbox.
Variable from : jsstring.
Variable maxWaitTime : Z.
Variable since : option Z.

(** The loop ends: every poll takes the interval at least. *)
Lemma checkEmail_total (fuel i : nat) (now : Z) (marked : list N) :
  (1 <= fuel)%nat ->
  maxWaitTime - now < pollInterval * (Z.of_nat fuel - 1) ->
  exists w, checkEmail fuel box from maxWaitTime since i now marked = Some w.
Proof.
  revert i now marked.
  induction fuel as [|f IH]; intros i now marked H1 H2; [lia|].
  cbn [checkEmail]. destruct (now >? maxWaitTime) eqn:E; [eauto|].
  destruct (openInbox (polls box i)); [eauto|].
  assert (R : forall l, exists w,
             checkEmail f box from maxWaitTime since (S i)
               (now + Z.of_N (duration (polls box i)) + pollInterval) l
             = Some w).
  { intros l. unfold pollInterval in *. apply IH; lia. }
  destruct (promise _) as [[c|]|e|]; eauto.
  destruct (Js.truthy c); eauto.
Qed.

Lemma enoughPolls_enough :
  (1 <= enoughPolls maxWaitTime)%nat
  /\ maxWaitTime - 0 < pollInterval * (Z.of_nat (enoughPolls maxWaitTime) - 1).
Proof.
  unfold enoughPolls, pollInterval. split; [lia|].
  destruct (Z.leb_spec 0 maxWaitTime) as [H|H].
  - pose proof (Z.div_mod maxWaitTime 2000 ltac:(lia)).
    pose proof (Z.mod_pos_bound maxWaitTime 2000 ltac:(lia)).
    assert (0 <= maxWaitTime / 2000) by (apply Z.div_pos; lia).
    lia.
  - assert (maxWaitTime / 2000 < 0) by (apply Z.div_lt_upper_bound; lia).
    lia.
Qed.

(** A poll that finds no code flags nothing and hands over to the next
    one. *)
Lemma checkEmail_quiet (fuel i : nat) (now : Z) (marked : list N) :
  now <= maxWaitTime ->
  quiet from since (polls box i) ->
  checkEmail (S fuel) box from maxWaitTime since i now marked =
  checkEmail fuel box from maxWaitTime since (S i)
             (now + Z.of_N (duration (polls box i)) + pollInterval) marked.
Proof.
  intros Hn [Ho Hq]. cbn [checkEmail].
  destruct (Z.gtb_spec now maxWaitTime); [lia|].
  pose proof (findCode_flags since (search (polls box i) from)
                             (events (polls box i))) as F.
  rewrite Hq in F. now rewrite Ho, Hq, F, app_nil_r.
Qed.

Lemma startOf_lower (k : nat) : pollInterval * Z.of_nat k <= startOf box k.
Proof.
  induction k as [|k IH]; cbn [startOf]; unfold pollInterval in *; lia.
Qed.

Lemma startOf_mono (j k : nat) : (j <= k)%nat -> startOf box j <= startOf box k.
Proof.
  induction 1 as [|k _ IH]; [lia|]. cbn [startOf]. unfold pollInterval. lia.
Qed.

(** The loop gets to poll [k] when the earlier polls were in time and
    found no code. *)
Lemma checkEmail_reach (k fuel : nat) :
  (forall j, (j < k)%nat ->
             startOf box j <= maxWaitTime /\ quiet from since (polls box j)) ->
  checkEmail (k + fuel) box from maxWaitTime since 0 0 [] =
  checkEmail fuel box from maxWaitTime since k (startOf box k) [].
Proof.
  revert fuel. induction k as [|k IH]; intros fuel H; [reflexivity|].
  replace (S k + fuel)%nat with (k + S fuel)%nat by lia.
  rewrite IH by (intros j Hj; apply H; lia).
  destruct (H k ltac:(lia)) as [Ht Hq].
  now rewrite checkEmail_quiet.
Qed.

Lemma reaches_fuel (k : nat) :
  reaches box from maxWaitTime since k ->
  exists fuel, enoughPolls maxWaitTime = (k + S fuel)%nat.
Proof.
  intros [Ht _]. pose proof (startOf_lower k) as Hl.
  exists (enoughPolls maxWaitTime - k - 1)%nat.
  unfold enoughPolls, pollInterval in *.
  assert (Z.of_nat k <= maxWaitTime / 2000)
    by (apply Z.div_le_lower_bound; lia).
  lia.
Qed.

(** [waitForCode] on a monitor that is or gets connected, at the poll it
    reaches. *)
Lemma waitForCode_reach (connected : bool) (k : nat) :
  snd (connect connected (connectAnswer box)) = Resolved tt ->
  reaches box from maxWaitTime since k ->
  exists fuel,
    waitForCode connected box from maxWaitTime since =
    checkEmail (S fuel) box from maxWaitTime since k (startOf box k) [].
Proof.
  intros Hc H. destruct (reaches_fuel H) as [fuel Hf]. exists fuel.
  unfold waitForCode.
  destruct (connect connected (connectAnswer box)) as [b pr].
  cbn [snd] in Hc. subst pr. rewrite Hf.
  apply checkEmail_reach. intros j Hj. destruct H as [Ht Hq].
  split; [|now apply Hq].
  pose proof (@startOf_mono j k ltac:(lia)). lia.
Qed.

(** Flags: one more, of the winning candidate, when the loop ends with a
    code; none otherwise. *)
Lemma checkEmail_flags (fuel i : nat) (now : Z) (marked : list N) (w : Wait) :
  checkEmail fuel box from maxWaitTime since i now marked = Some w ->
  match outcome w with
  | Resolved found =>
      exists k best,
        cycles w = S k
        /\ In best (candidates since (bodies (events (polls box k))))
        /\ found = code best /\ flagged w = marked ++ [uid best]
  | _ => flagged w = marked
  end.
Proof.
  revert i now marked.
  induction fuel as [|f IH]; intros i now marked; [discriminate|].
  cbn [checkEmail]. destruct (now >? maxWaitTime); [now intros [= <-]|].
  destruct (openInbox (polls box i)); [now intros [= <-]|].
  pose proof (findCode_flags since (search (polls box i) from)
                             (events (polls box i))) as F.
  destruct (promise _) as [[c|]|e|].
  - destruct F as (best & Hb & Hc & Hs). rewrite Hs.
    destruct (Js.truthy c) eqn:Et.
    + intros [= <-]. cbn [outcome cycles flagged]. exists i, best. auto.
    + exfalso. apply candidates_In in Hb as (m & _ & Hm).
      apply candidate_inv in Hm as (p & _ & _ & _ & Hx & _).
      apply ExtractFacts.extractCode_truthy in Hx. congruence.
  - rewrite F, app_nil_r. apply IH.
  - rewrite F, app_nil_r. now intros [= <-].
  - rewrite F, app_nil_r. now intros [= <-].
Qed.

(** The poll that [waitForCode] reaches delivers one body per search
    result, and some message yields a code: the call resolves with the
    head of the sorted candidates. *)
Lemma waitForCode_regular (connected : bool) (k : nat)
      (ms : list FetchedMessage) (best : ValidEmail) (rest : list ValidEmail) :
  snd (connect connected (connectAnswer box)) = Resolved tt ->
  reaches box from maxWaitTime since k ->
  regular from ms (polls box k) ->
  sort (candidates since ms) = best :: rest ->
  waitForCode connected box from maxWaitTime since =
  Some (mkWait (Resolved (code best))
               (startOf box k + Z.of_N (duration (polls box k)))
               (S k) [uid best]).
Proof.
  intros Hc Hr (Ho & He & uids & Hs & Hl) Hb.
  destruct (waitForCode_reach connected Hc Hr) as [fuel ->].
  cbn [checkEmail]. destruct Hr as [Ht _].
  destruct (Z.gtb_spec (startOf box k) maxWaitTime); [lia|].
  rewrite Ho, Hs, He.
  pose proof (findCode_regular since uids ms Hl) as F.
  rewrite Hb in F. cbn [settledWith] in F.
  pose proof (f_equal fst F) as Fp. pose proof (f_equal snd F) as Fs.
  cbn [fst snd] in Fp, Fs. rewrite Fp, Fs. cbn [app].
  assert (Hin : In best (candidates since ms))
    by (apply sort_In; rewrite Hb; now left).
  apply candidates_In in Hin as (m & _ & Hm).
  apply candidate_inv in Hm as (p & _ & _ & _ & Hx & _).
  now rewrite (ExtractFacts.extractCode_truthy _ Hx).
Qed.

(** The same poll when no message yields a code: the loop goes on. *)
Lemma regular_quiet (i : nat) (ms : list FetchedMessage) :
  regular from ms (polls box i) ->
  candidates since ms = [] ->
  quiet from since (polls box i).
Proof.
  intros (Ho & He & uids & Hs & Hl) Hc. split; [exact Ho|].
  rewrite Hs, He.
  pose proof (findCode_regular since uids ms Hl) as F.
  rewrite Hc in F. cbn [sort settledWith] in F. exact (f_equal fst F).
Qed.

(** [waitForCode] always ends, in one of the four ways of [Wait]. *)
Lemma waitForCode_total (connected : bool) :
  exists w, waitForCode connected box from maxWaitTime since = Some w.
Proof.
  unfold waitForCode.
  destruct (connect connected (connectAnswer box)) as [b [[]|e|]]; eauto.
  destruct enoughPolls_enough. now apply checkEmail_total.
Qed.

Lemma waitForCode_flags (connected : bool) (w : Wait) :
  waitForCode connected box from maxWaitTime since = Some w ->
  match outcome w with
  | Resolved found =>
      exists k best,
        cycles w = S k
        /\ In best (candidates since (bodies (events (polls box k))))
        /\ found = code best /\ flagged w = [uid best]
  | _ => flagged w = []
  end.
Proof.
  unfold waitForCode.
  destruct (connect connected (connectAnswer box)) as [b [[]|e|]].
  - apply (@checkEmail_flags _ 0%nat 0 []).
  - now intros [= <-].
  - now intros [= <-].
Qed.
End Loop.

End WaitFacts.

(* ================================================================== *)
(** ** Properties of the mailbox poller *)

Import Extract Monitor Spec.
Unset Implicit Arguments.

(** C1. In the poll in which [waitForCode] finds codes, it resolves with
    exactly one code: the code of a candidate whose date no other candidate
    of that poll exceeds, the first of them in the order of processing when
    several share that date; that message, and no other, is flagged. *)
Theorem waitForCode_returns_latest_code
        (connected : bool) (box : Mailbox) (from : jsstring) (maxWaitTime : Z)
        (since : option Z) (k : nat) (ms : list FetchedMessage) :
  snd (connect connected (connectAnswer box)) = Resolved tt ->
  reaches box from maxWaitTime since k ->
  regular from ms (polls box k) ->
  candidates since ms <> [] ->
  exists best,
    In best (candidates since ms)
    /\ (forall v, In v (candidates since ms) -> vdate v <= vdate best)
    /\ (exists earlier later,
           candidates since ms = earlier ++ best :: later
           /\ forall v, In v earlier -> vdate v < vdate best)
    /\ waitForCode connected box from maxWaitTime since =
       Some (mkWait (Resolved (code best)) (endOf box k) (S k) [uid best]).
Proof.
  intros Hc Hr Hreg Hne.
  destruct (sort (candidates since ms)) as [|best rest] eqn:Es.
  - now apply CycleFacts.sort_nil in Es.
  - exists best.
    destruct (CycleFacts.sort_head _ Es) as (l1 & l2 & Hl & H1 & H2).
    split; [rewrite Hl; apply in_or_app; right; now left|].
    split; [|split].
    + intros v Hv. rewrite Hl in Hv.
      apply in_app_or in Hv as [Hv|[<-|Hv]];
        [specialize (H1 _ Hv) | | specialize (H2 _ Hv)]; lia.
    + exists l1, l2. now split.
    + now apply (@WaitFacts.waitForCode_regular
                   box from maxWaitTime since connected k ms best rest).
Qed.

Lemma waitForCode_returns_latest_code_witness :
  exists best,
    vdate best = 14000
    /\ waitForCode false
         (Scenario.boxOf
            [Scenario.silentPoll;
             Scenario.pollOf [Scenario.before5s 9000; Scenario.after5s 9000] 300])
         Scenario.sender 60000 None =
       Some (mkWait (Resolved (code best)) (2150 + 300) 2 [uid best]).
Proof.
  destruct (waitForCode_returns_latest_code
              false
              (Scenario.boxOf
                 [Scenario.silentPoll;
                  Scenario.pollOf [Scenario.before5s 9000; Scenario.after5s 9000]
                                  300])
              Scenario.sender 60000 None 1
              [Scenario.before5s 9000; Scenario.after5s 9000])
    as (best & Hin & Hmax & _ & Hw).
  - reflexivity.
  - split.
    + vm_compute. discriminate.
    + intros [|j] Hj; [|lia]. split; reflexivity.
  - split; [reflexivity|]. split; [reflexivity|].
    exists [11%N; 12%N]. split; reflexivity.
  - vm_compute. discriminate.
  - exists best. split; [|exact Hw].
    destruct Hin as [<-|[<-|[]]].
    + specialize (Hmax (mkValid 12 (Js.lit "222222") 14000)
                       (or_intror (or_introl eq_refl))).
      cbn in Hmax. lia.
    + reflexivity.
Defined.

(** Dropping the messages dated before [T] leaves the candidates as they
    are. *)
Lemma candidates_recent (T : Z) (ms : list FetchedMessage) :
  candidates (Some T) (filter (fun m => negb (olderThan T m)) ms)
  = candidates (Some T) ms.
Proof.
  induction ms as [|m t IH]; [reflexivity|]. cbn [filter candidates].
  destruct (olderThan T m) eqn:E; cbn [negb].
  - rewrite IH. unfold candidate. unfold olderThan in E.
    destruct (usableUid (attrUid m)); [|reflexivity].
    destruct (parsed m) as [message|p]; [reflexivity|]. now rewrite E.
  - cbn [candidates]. now rewrite IH.
Qed.

Lemma extract_222222 (d : option Z) (body : option jsstring) :
  extractCode (mkParsed (Some (Js.lit "Expensify magic code: 222222")) d body None)
  = Some (Js.lit "222222").
Proof. reflexivity. Qed.

Lemma candidate_before5s (T : Z) :
  candidate (Some T) (Scenario.before5s T) = None.
Proof.
  unfold candidate, Scenario.before5s, Scenario.message.
  cbn [attrUid parsed usableUid date isOld].
  replace (T - 5000 <? T) with true by (symmetry; apply Z.ltb_lt; lia).
  reflexivity.
Qed.

Lemma candidate_after5s (T : Z) :
  candidate (Some T) (Scenario.after5s T)
  = Some (mkValid 12 (Js.lit "222222") (T + 5000)).
Proof.
  unfold candidate, Scenario.after5s, Scenario.message.
  cbn [attrUid parsed usableUid date isOld].
  replace (T + 5000 <? T) with false by (symmetry; apply Z.ltb_ge; lia).
  rewrite extract_222222. reflexivity.
Qed.

(** C2. With [sinceTime] given, a message dated strictly before it yields
    no candidate, whatever code it contains, and the candidates of a poll
    are those of its other messages; the code that [waitForCode] resolves
    with comes from a message dated at [sinceTime] or later; and of the two
    candidates five seconds before and after [sinceTime] the poller returns
    the later one's code, in either order of arrival. *)
Theorem messages_before_sinceTime_are_excluded :
  (forall (T : Z) (m : FetchedMessage) (p : ParsedMail) (d : Z),
      parsed m = Parsed p -> date p = Some d -> d < T ->
      candidate (Some T) m = None)
  /\ (forall (T : Z) (ms : list FetchedMessage),
         candidates (Some T) (filter (fun m => negb (olderThan T m)) ms)
         = candidates (Some T) ms)
  /\ (forall (connected : bool) (box : Mailbox) (from : jsstring)
             (maxWaitTime T : Z) (w : Wait) (found : jsstring),
         waitForCode connected box from maxWaitTime (Some T) = Some w ->
         outcome w = Resolved found ->
         exists k m p d u,
           cycles w = S k
           /\ In m (bodies (events (polls box k)))
           /\ parsed m = Parsed p
           /\ extractCode p = Some found
           /\ date p = Some d /\ T <= d
           /\ attrUid m = Some u /\ flagged w = [u])
  /\ (forall (T : Z) (dur : N),
         waitForCode true
           (Scenario.boxOf
              [Scenario.pollOf [Scenario.before5s T; Scenario.after5s T] dur])
           Scenario.sender 60000 (Some T)
         = Some (mkWait (Resolved (Js.lit "222222")) (Z.of_N dur) 1 [12%N])
         /\ waitForCode true
              (Scenario.boxOf
                 [Scenario.pollOf [Scenario.after5s T; Scenario.before5s T] dur])
              Scenario.sender 60000 (Some T)
            = Some (mkWait (Resolved (Js.lit "222222")) (Z.of_N dur) 1 [12%N])).
Proof.
  split; [|split; [|split]].
  - intros T m p d Hp Hd Hlt. unfold candidate. rewrite Hp, Hd.
    destruct (usableUid (attrUid m)); [|reflexivity].
    cbn [isOld]. now rewrite (proj2 (Z.ltb_lt d T) Hlt).
  - exact candidates_recent.
  - intros connected box from maxWaitTime T w found Hw Ho.
    pose proof (@WaitFacts.waitForCode_flags _ _ _ _ _ _ Hw) as F.
    rewrite Ho in F. destruct F as (k & best & Hk & Hb & Hc & Hf).
    apply CycleFacts.candidates_In in Hb as (m & Hm & Hcand).
    apply CycleFacts.candidate_inv in Hcand
      as (p & Hp & Hu & _ & Hx & Hd & Hold).
    exists k, m, p, (vdate best), (uid best). rewrite Hc.
    repeat split; try assumption.
    rewrite Hd in Hold. cbn [isOld] in Hold. now apply Z.ltb_ge in Hold.
  - intros T dur. split.
    + rewrite (@WaitFacts.waitForCode_regular
                 (Scenario.boxOf
                    [Scenario.pollOf [Scenario.before5s T; Scenario.after5s T] dur])
                 Scenario.sender 60000 (Some T) true 0%nat
                 [Scenario.before5s T; Scenario.after5s T]
                 (mkValid 12 (Js.lit "222222") (T + 5000)) []).
      * reflexivity.
      * reflexivity.
      * split; [cbn; lia | intros j Hj; lia].
      * split; [reflexivity|]. split; [reflexivity|].
        exists [11%N; 12%N]. split; reflexivity.
      * cbn [candidates]. rewrite candidate_before5s, candidate_after5s.
        reflexivity.
    + rewrite (@WaitFacts.waitForCode_regular
                 (Scenario.boxOf
                    [Scenario.pollOf [Scenario.after5s T; Scenario.before5s T] dur])
                 Scenario.sender 60000 (Some T) true 0%nat
                 [Scenario.after5s T; Scenario.before5s T]
                 (mkValid 12 (Js.lit "222222") (T + 5000)) []).
      * reflexivity.
      * reflexivity.
      * split; [cbn; lia | intros j Hj; lia].
      * split; [reflexivity|]. split; [reflexivity|].
        exists [12%N; 11%N]. split; reflexivity.
      * cbn [candidates]. rewrite candidate_before5s, candidate_after5s.
        reflexivity.
Qed.

(** C3. [waitForCode] always ends; when it resolves with a code, exactly one
    message has been flagged, the candidate whose code is returned, in the
    poll that resolved; when it fails (with the timeout in particular) or
    never settles, no message has been flagged. *)
Theorem one_flag_on_success_none_on_timeout
        (connected : bool) (box : Mailbox) (from : jsstring) (maxWaitTime : Z)
        (since : option Z) :
  exists w,
    waitForCode connected box from maxWaitTime since = Some w
    /\ match outcome w with
       | Resolved found =>
           exists k best,
             cycles w = S k
             /\ In best (candidates since (bodies (events (polls box k))))
             /\ found = code best
             /\ flagged w = [uid best]
       | Rejected _ | Pending => flagged w = []
       end
    /\ (outcome w = Rejected TimeoutWaitingForEmail -> flagged w = []).
Proof.
  destruct (WaitFacts.waitForCode_total box from maxWaitTime since connected)
    as [w Hw].
  exists w. split; [exact Hw|].
  pose proof (@WaitFacts.waitForCode_flags _ _ _ _ _ _ Hw) as F.
  split.
  - destruct (outcome w); exact F.
  - intros Ho. now rewrite Ho in F.
Qed.

Lemma one_flag_on_success_none_on_timeout_witness :
  (exists w,
      waitForCode true
        (Scenario.boxOf
           [Scenario.pollOf [Scenario.after5s 0; Scenario.before5s 0] 300])
        Scenario.sender 60000 None = Some w
      /\ outcome w = Resolved (Js.lit "222222") /\ flagged w = [12%N])
  /\ (exists w,
         waitForCode true (Scenario.boxOf []) Scenario.sender 3000 None = Some w
         /\ outcome w = Rejected TimeoutWaitingForEmail /\ flagged w = []).
Proof.
  split.
  - destruct (one_flag_on_success_none_on_timeout
                true
                (Scenario.boxOf
                   [Scenario.pollOf [Scenario.after5s 0; Scenario.before5s 0] 300])
                Scenario.sender 60000 None) as (w & Hw & _).
    exists w. split; [exact Hw|].
    vm_compute in Hw. injection Hw as <-. split; reflexivity.
  - destruct (one_flag_on_success_none_on_timeout
                true (Scenario.boxOf []) Scenario.sender 3000 None)
      as (w & Hw & _ & Ht).
    exists w. split; [exact Hw|].
    vm_compute in Hw. injection Hw as <-. split; reflexivity.
Defined.

Module TimeoutFacts.


End TimeoutFacts.





(* ================================================================== *)
(** ** Properties of the extraction rules *)

(** C5, as the specification states it, fails: the fallback pattern has no
    boundaries, so it matches inside a longer run of digits. The body
    "Ref 1234567, code 482913" has 482913 as its first standalone run of
    exactly six digits, and the fallback yields 123456. *)
Lemma fallback_matches_inside_longer_run :
  subjectCode Scenario.longRunBeforeCode = None
  /\ firstStandaloneSix (bodyText Scenario.longRunBeforeCode)
     = Some (Js.lit "482913")
  /\ extractCode Scenario.longRunBeforeCode = Some (Js.lit "123456")
  /\ extractCode Scenario.longRunBeforeCode
     <> firstStandaloneSix (bodyText Scenario.longRunBeforeCode).
Proof. repeat split; try reflexivity. vm_compute. discriminate. Qed.

(** C5, amended. The body is the plain text, else the HTML. When the
    subject rule does not match, the fallback yields the leftmost six
    consecutive digits of the body: six digits before which no window of
    six digits starts. It yields nothing when the body has no six
    consecutive digits, so a shorter run is never matched; of a longer run
    it yields the first six digits. *)
Theorem fallback_yields_leftmost_six_digits (p : ParsedMail) :
  subjectCode p = None ->
  bodyText p = Js.orElse (text p) (Js.orElse (html p) [])
  /\ (forall pre c post,
         bodyText p = pre ++ c ++ post ->
         List.length c = 6%nat ->
         forallb Regex.isDigit c = true ->
         (forall k, (k < List.length pre)%nat ->
                    sixDigitsAt (skipn k (bodyText p)) = false) ->
         extractCode p = Some c)
  /\ ((forall k, sixDigitsAt (skipn k (bodyText p)) = false) ->
      extractCode p = None)
  /\ (forall c,
         extractCode p = Some c ->
         List.length c = 6%nat
         /\ forallb Regex.isDigit c = true
         /\ exists pre post,
             bodyText p = pre ++ c ++ post
             /\ forall k, (k < List.length pre)%nat ->
                          sixDigitsAt (skipn k (bodyText p)) = false).
Proof.
  intros Hs.
  assert (E : extractCode p = leftmostSix (bodyText p)).
  { unfold extractCode. rewrite Hs. apply ExtractFacts.bodyCode_spec. }
  split; [reflexivity|]. split; [|split].
  - intros pre c post Hb Hl Hd Hm. rewrite E, Hb.
    apply ExtractFacts.leftmostSix_complete; try assumption.
    now rewrite <- Hb.
  - intros Hn. rewrite E. now apply ExtractFacts.leftmostSix_none.
  - intros c Hc. rewrite E in Hc. now apply ExtractFacts.leftmostSix_sound.
Qed.

Lemma fallback_yields_leftmost_six_digits_witness :
  extractCode Scenario.codeInBody = Some (Js.lit "482913").
Proof.
  apply (proj1 (proj2 (fallback_yields_leftmost_six_digits
                         Scenario.codeInBody eq_refl))
               (Js.lit "Use ") (Js.lit "482913") (Js.lit " to sign in.")).
  - reflexivity.
  - reflexivity.
  - reflexivity.
  - intros k Hk.
    do 4 (destruct k as [|k]; [reflexivity|]).
    cbn in Hk. lia.
Defined.

(** C6. When the subject rule and the body rule both match, the code is the
    one of the subject: the digits that follow the label and white space
    there. The subject "Expensify magic code: 147826" yields 147826 whatever
    the body is. *)
Theorem subject_code_takes_precedence (p : ParsedMail) (c b : jsstring) :
  subjectCode p = Some c ->
  bodyCode p = Some b ->
  extractCode p = Some c
  /\ (exists pre ws rest,
         Js.orElse (subject p) [] = pre ++ label ++ ws ++ c ++ rest
         /\ forallb Regex.isSpace ws = true
         /\ forallb Regex.isDigit c = true
         /\ c <> []
         /\ (forall x t, rest = x :: t -> Regex.isDigit x = false))
  /\ (forall d body markup,
         extractCode
           (mkParsed (Some (Js.lit "Expensify magic code: 147826")) d body markup)
         = Some (Js.lit "147826")).
Proof.
  intros Hs Hb. split; [|split].
  - unfold extractCode. now rewrite Hs.
  - rewrite ExtractFacts.subjectCode_spec in Hs.
    now apply ExtractFacts.leftmostLabelCode_sound.
  - reflexivity.
Qed.

Lemma subject_code_takes_precedence_witness :
  extractCode Scenario.codeInBoth = Some (Js.lit "147826")
  /\ bodyCode Scenario.codeInBoth = Some (Js.lit "999999").
Proof.
  split.
  - exact (proj1 (subject_code_takes_precedence
                    Scenario.codeInBoth (Js.lit "147826") (Js.lit "999999")
                    eq_refl eq_refl)).
  - reflexivity.
Defined.

(* ================================================================== *)
(** ** Failures during a poll *)

Module FailureFacts.
Import CycleFacts WaitFacts.

Lemma finish_promise (st : Cycle) :
  promise st <> Pending -> promise (finish st) = promise st.
Proof.
  intros H. unfold finish.
  destruct ((pendingCount st =? 0) && negb (resolved st)); [|reflexivity].
  destruct (sort (validEmails st)); cbn [promise];
    destruct (promise st); try reflexivity; now elim H.
Qed.

Lemma onEvent_promise (since : option Z) (st : Cycle) (e : FetchEvent) :
  promise st <> Pending -> promise (onEvent since st e) = promise st.
Proof.
  intros H. destruct e as [m|message]; cbn [onEvent].
  - rewrite onBody_spec. rewrite finish_promise;
      destruct (candidate since m); cbn [countDown push promise]; auto.
  - unfold onFetchError. destruct (resolved st); [reflexivity|].
    cbn [promise]. destruct (promise st); try reflexivity. now elim H.
Qed.

(** A promise that is settled stays as it is. *)
Lemma promise_settled (since : option Z) (es : list FetchEvent) (st : Cycle) :
  promise st <> Pending ->
  promise (fold_left (onEvent since) es st) = promise st.
Proof.
  revert st. induction es as [|e es IH]; intros st H; [reflexivity|].
  cbn [fold_left]. rewrite IH; rewrite onEvent_promise; auto.
Qed.

(** An error of the fetch while bodies are outstanding rejects the cycle. *)
Lemma findCode_fetch_error (since : option Z) (uids : list N)
      (ms : list FetchedMessage) (message : jsstring) (rest : list FetchEvent) :
  (List.length ms < List.length uids)%nat ->
  promise (findCode since (SearchOk (Some uids))
                    (map Body ms ++ FetchError message :: rest))
  = Rejected (Thrown message).
Proof.
  intros Hl. destruct uids as [|u uids]; [cbn in Hl; lia|].
  cbn [findCode]. rewrite fold_left_app, bodies_collect.
  - cbn [fold_left]. rewrite promise_settled; [reflexivity | discriminate].
  - reflexivity.
  - cbn [start pendingCount]. lia.
Qed.

(** Messages that the parser rejects yield no candidate. *)
Lemma candidates_parsedOk (since : option Z) (ms : list FetchedMessage) :
  candidates since (filter parsedOk ms) = candidates since ms.
Proof.
  induction ms as [|m t IH]; [reflexivity|]. cbn [filter candidates].
  unfold parsedOk at 1. destruct (parsed m) as [message|p] eqn:E.
  - rewrite IH. unfold candidate. rewrite E.
    now destruct (usableUid (attrUid m)).
  - cbn [candidates]. now rewrite IH.
Qed.

Section Reached.
Variable box : Mailbox.
Variable from : jsstring.
Variable maxWaitTime : Z.
Variable since : option Z.
Variable connected : bool.
Variable k : nat.
Hypothesis connects : snd (connect connected (connectAnswer box)) = Resolved tt.
Hypothesis reached : reaches box from maxWaitTime since k.

Lemma waitForCode_openInbox_error (message : jsstring) :
  openInbox (polls box k) = Some message ->
  waitForCode connected box from maxWaitTime since
  = Some (mkWait (Rejected (Thrown message)) (endOf box k) (S k) []).
Proof.
  intros Ho. destruct (waitForCode_reach connected connects reached) as [fuel ->].
  cbn [checkEmail]. destruct reached as [Ht _].
  destruct (Z.gtb_spec (startOf box k) maxWaitTime); [lia|].
  now rewrite Ho.
Qed.

Lemma waitForCode_cycle_rejects (e : Error) :
  openInbox (polls box k) = None ->
  promise (findCode since (search (polls box k) from) (events (polls box k)))
  = Rejected e ->
  waitForCode connected box from maxWaitTime since
  = Some (mkWait (Rejected e) (endOf box k) (S k) []).
Proof.
  intros Ho Hp. destruct (waitForCode_reach connected connects reached) as [fuel ->].
  cbn [checkEmail]. destruct reached as [Ht _].
  destruct (Z.gtb_spec (startOf box k) maxWaitTime); [lia|].
  pose proof (findCode_flags since (search (polls box k) from)
                             (events (polls box k))) as F.
  rewrite Hp in F. now rewrite Ho, Hp, F.
Qed.
End Reached.

End FailureFacts.

(** C7, as the specification states it, fails for parse failures: the body
    handler catches them. A poll that fetches a message that cannot be
    parsed and a message with a code resolves with that code. *)
Lemma parse_failure_is_not_fatal :
  In (Body Scenario.unparsable)
     (events (polls (Scenario.boxOf
                       [Scenario.pollOf [Scenario.unparsable; Scenario.after5s 0]
                                        300]) 0))
  /\ waitForCode true
       (Scenario.boxOf
          [Scenario.pollOf [Scenario.unparsable; Scenario.after5s 0] 300])
       Scenario.sender 60000 None
     = Some (mkWait (Resolved (Js.lit "222222")) 300 1 [12%N]).
Proof. split; [now left | reflexivity]. Qed.

(** C7, amended. A failure to connect rejects [waitForCode] with the error
    of [connect]. In the poll that [waitForCode] reaches, an error of
    [openInbox], of the search, or of the fetch while bodies are outstanding
    rejects [waitForCode] with that very error, and nothing is flagged. A
    message that cannot be parsed is skipped: the poll settles as if only
    the other messages had been fetched, with the code of the best of them,
    or with no code, and then polling goes on. *)
Theorem errors_propagate_except_parse_failures :
  (forall box from maxWaitTime since message,
      connectAnswer box = ConnectError message ->
      waitForCode false box from maxWaitTime since
      = Some (mkWait (Rejected (connectError message)) 0 0 []))
  /\ (forall box from maxWaitTime since connected k,
         snd (connect connected (connectAnswer box)) = Resolved tt ->
         reaches box from maxWaitTime since k ->
         (forall message,
             openInbox (polls box k) = Some message ->
             waitForCode connected box from maxWaitTime since
             = Some (mkWait (Rejected (Thrown message))
                            (endOf box k) (S k) []))
         /\ (forall message,
                openInbox (polls box k) = None ->
                search (polls box k) from = SearchError message ->
                waitForCode connected box from maxWaitTime since
                = Some (mkWait (Rejected (Thrown message))
                               (endOf box k) (S k) []))
         /\ (forall message uids ms rest,
                openInbox (polls box k) = None ->
                search (polls box k) from = SearchOk (Some uids) ->
                events (polls box k) = map Body ms ++ FetchError message :: rest ->
                (List.length ms < List.length uids)%nat ->
                waitForCode connected box from maxWaitTime since
                = Some (mkWait (Rejected (Thrown message))
                               (endOf box k) (S k) []))
         /\ (forall ms best rest,
                regular from ms (polls box k) ->
                sort (candidates since (filter parsedOk ms))
                = best :: rest ->
                waitForCode connected box from maxWaitTime since
                = Some (mkWait (Resolved (code best))
                               (endOf box k) (S k) [uid best]))
         /\ (forall ms,
                regular from ms (polls box k) ->
                candidates since (filter parsedOk ms) = [] ->
                quiet from since (polls box k))).
Proof.
  split.
  - intros box from maxWaitTime since message Hc.
    unfold waitForCode. cbn [connect]. now rewrite Hc.
  - intros box from maxWaitTime since connected k Hc Hr.
    split; [|split; [|split; [|split]]].
    + intros message Ho.
      now apply FailureFacts.waitForCode_openInbox_error.
    + intros message Ho Hs.
      apply FailureFacts.waitForCode_cycle_rejects; try assumption.
      now rewrite Hs.
    + intros message uids ms rest Ho Hs He Hl.
      apply FailureFacts.waitForCode_cycle_rejects; try assumption.
      rewrite Hs, He. now apply FailureFacts.findCode_fetch_error.
    + intros ms best rest Hreg Hb.
      rewrite FailureFacts.candidates_parsedOk in Hb.
      now apply (@WaitFacts.waitForCode_regular
                   box from maxWaitTime since connected k ms best rest).
    + intros ms Hreg Hc'.
      rewrite FailureFacts.candidates_parsedOk in Hc'.
      now apply (@WaitFacts.regular_quiet box from since k ms).
Qed.

Lemma errors_propagate_except_parse_failures_witness :
  waitForCode true
    (Scenario.boxOf
       [Scenario.pollOf [Scenario.unparsable; Scenario.after5s 0] 300])
    Scenario.sender 60000 None
  = Some (mkWait (Resolved (Js.lit "222222")) 300 1 [12%N]).
Proof.
  destruct errors_propagate_except_parse_failures as [_ H].
  destruct (H (Scenario.boxOf
                 [Scenario.pollOf [Scenario.unparsable; Scenario.after5s 0] 300])
              Scenario.sender 60000 None true 0%nat)
    as (_ & _ & _ & Hskip & _).
  - reflexivity.
  - split; [vm_compute; discriminate | intros j Hj; lia].
  - apply (Hskip [Scenario.unparsable; Scenario.after5s 0]
                 (mkValid 12 (Js.lit "222222") 5000) []).
    + split; [reflexivity|]. split; [reflexivity|].
      exists [13%N; 12%N]. split; reflexivity.
    + reflexivity.
Defined.


(* ================================================================== *)
(** ** Properties of the browser driver *)

Module WebFacts.

Lemma findInput_none (pg : Web.Page) (sels : list jsstring) :
  (forall sel, In sel sels -> Web.waitForSelector pg sel = false) ->
  Web.findInput pg sels = None.
Proof.
  induction sels as [|sel rest IH]; intros H; [reflexivity|].
  cbn [Web.findInput]. rewrite (H sel) by now left.
  apply IH. intros x Hx. apply H. now right.
Qed.

(** Whatever [enterEmail] types, it is the address it was given. *)
Lemma enterEmail_fills (page : option Web.Page) (address sel v : jsstring) :
  In (Web.Fill sel v) (snd (Web.enterEmail page address)) -> v = address.
Proof.
  unfold Web.enterEmail. destruct page as [pg|]; [|intros []].
  destruct (Web.findInput pg Web.emailSelectors).
  - destruct (Web.fill pg Web.firstSelector address); [intros []|].
    unfold Web.submitted.
    destruct (Web.clickSubmit pg Web.submitSelectors).
    + destruct (Web.wait pg); cbn; intros [H|[H|[]]]; congruence.
    + destruct (Web.press pg Web.firstSelector); cbn.
      * intros [H|[]]; congruence.
      * destruct (Web.wait pg); cbn; intros [H|[H|[]]]; congruence.
  - destruct (_ && _); intros [].
Qed.

End WebFacts.

(** C8. When no email-input selector matches, [enterEmail] does nothing to
    the page; it resolves with [false] when the url contains neither
    "/login" nor "/signin", and otherwise it fails with the error that the
    email input field was not found. *)
Theorem enterEmail_without_input (pg : Web.Page) (address : jsstring) :
  (forall sel, In sel Web.emailSelectors -> Web.waitForSelector pg sel = false) ->
  (Js.includes (Web.url pg) (Js.lit "/login") = false ->
   Js.includes (Web.url pg) (Js.lit "/signin") = false ->
   Web.enterEmail (Some pg) address = (Resolved false, []))
  /\ (Js.includes (Web.url pg) (Js.lit "/login") = true
      \/ Js.includes (Web.url pg) (Js.lit "/signin") = true ->
      Web.enterEmail (Some pg) address = (Rejected EmailInputNotFound, [])).
Proof.
  intros H. unfold Web.enterEmail. rewrite (WebFacts.findInput_none pg _ H).
  split.
  - intros -> ->. reflexivity.
  - intros [-> | ->]; [reflexivity|].
    now rewrite andb_false_r.
Qed.

Lemma enterEmail_without_input_witness :
  Web.enterEmail (Some (Scenario.blankPage "https://new.expensify.com/home"))
                 (Js.lit "user+tag@gmail.com")
  = (Resolved false, [])
  /\ Web.enterEmail (Some (Scenario.blankPage "https://new.expensify.com/login"))
                    (Js.lit "user+tag@gmail.com")
     = (Rejected EmailInputNotFound, []).
Proof.
  split.
  - apply (proj1 (enterEmail_without_input
                    (Scenario.blankPage "https://new.expensify.com/home")
                    (Js.lit "user+tag@gmail.com")
                    (fun sel _ => eq_refl)));
      reflexivity.
  - apply (proj2 (enterEmail_without_input
                    (Scenario.blankPage "https://new.expensify.com/login")
                    (Js.lit "user+tag@gmail.com")
                    (fun sel _ => eq_refl))).
    left. reflexivity.
Defined.

(* ================================================================== *)
(** ** Properties of the orchestrator *)

Module TagFacts.
Import Regex RegexFacts.

Lemma dropWhile_stop (p : N -> bool) (l : jsstring) (x : N) (r : jsstring) :
  forallb p l = true -> p x = false -> dropWhile p (l ++ x :: r) = x :: r.
Proof.
  intros Hl Hx. induction l as [|c l IH]; cbn [app dropWhile].
  - now rewrite Hx.
  - cbn [forallb] in Hl. apply andb_true_iff in Hl as [Hc Hl].
    rewrite Hc. now apply IH.
Qed.

Lemma notIn_forallb (x : N) (l : jsstring) :
  ~ In x l -> forallb (isNot x) l = true.
Proof.
  induction l as [|c l IH]; intros H; [reflexivity|].
  cbn [forallb]. apply andb_true_iff. split.
  - unfold isNot. apply negb_true_iff, N.eqb_neq. intros ->. apply H. now left.
  - apply IH. intros Hx. apply H. now right.
Qed.

(** The tag pattern where a tag starts. *)
Lemma matchHere_tag (tag dom : jsstring) :
  tag <> [] -> ~ In 64%N tag ->
  matchHere AutoLogin.tagPattern (43%N :: tag ++ 64%N :: dom) = Some (dom, None).
Proof.
  intros Hne Hat. destruct tag as [|y tag']; [now elim Hne|].
  apply notIn_forallb in Hat. cbn [forallb] in Hat.
  apply andb_true_iff in Hat as [Hy Ht].
  unfold matchHere, AutoLogin.tagPattern. cbn [exec app]. rewrite N.eqb_refl, Hy.
  rewrite star_greedy.
  - rewrite (dropWhile_stop (isNot 64) tag' 64%N dom Ht eq_refl).
    now rewrite N.eqb_refl.
  - intros c t Hc. unfold isNot in Hc. apply negb_true_iff in Hc. now rewrite Hc.
Qed.

(** The tag pattern elsewhere than at a plus sign. *)
Lemma matchHere_no_plus (x : N) (t : jsstring) :
  x <> 43%N -> matchHere AutoLogin.tagPattern (x :: t) = None.
Proof.
  intros H. unfold matchHere, AutoLogin.tagPattern. cbn [exec].
  apply N.eqb_neq in H. now rewrite H.
Qed.

Lemma search_tag (pre u tag dom : jsstring) :
  ~ In 43%N u -> tag <> [] -> ~ In 64%N tag ->
  searchFrom AutoLogin.tagPattern pre (u ++ 43%N :: tag ++ 64%N :: dom)
  = Some (mkMatch (pre ++ u) dom None).
Proof.
  intros Hu Hne Hat. revert pre. induction u as [|x u IH]; intros pre.
  - cbn [app]. cbn [searchFrom]. rewrite matchHere_tag by assumption.
    now rewrite app_nil_r.
  - cbn [app searchFrom]. rewrite matchHere_no_plus.
    + rewrite IH.
      * now rewrite <- app_assoc.
      * intros H. apply Hu. now right.
    + intros ->. apply Hu. now left.
Qed.

(** An address with a tag loses it. *)
Lemma stripEmailTag_tagged (u tag dom : jsstring) :
  ~ In 43%N u -> tag <> [] -> ~ In 64%N tag ->
  AutoLogin.stripEmailTag (u ++ [43%N] ++ tag ++ [64%N] ++ dom)
  = u ++ [64%N] ++ dom.
Proof.
  intros Hu Hne Hat. unfold AutoLogin.stripEmailTag, replace, match_.
  cbn [app]. now rewrite search_tag.
Qed.

End TagFacts.

Module LoginFacts.
Import AutoLogin.

Ltac expected_call :=
  unfold Spec.expected;
  first [ now left
        | right; first [ now left
        | right; first [ now left
        | right; first [ left; eexists; reflexivity
        | right; first [ left; eexists; reflexivity
        | right; first [ now left | now right ] ] ] ] ] ].

Ltac traced :=
  eexists; eexists; split; [reflexivity|];
  repeat (apply Forall_cons; [expected_call|]); apply Forall_nil.

(** [login] always ends; it starts by connecting to the mailbox of the
    stripped address, and its other calls are the expected ones. *)
Lemma login_trace (cfg : Config) (w : World) :
  exists r rest,
    login (new cfg) w []
    = Some (r, Connect (stripEmailTag (email cfg)) :: rest)
    /\ Forall (Spec.expected cfg w) rest.
Proof.
  unfold login, tryFinally, bind, call, callWaitForCode, new.
  cbn [config emailMonitor user app].
  destruct (snd (Monitor.connect false (Monitor.connectAnswer (mailbox w))))
    as [[]|e|]; [| traced ..].
  destruct (ofThrown (launch w)) as [[]|e|]; cbn [app]; [| traced ..].
  destruct (ofThrown (goto w (loginUrl cfg))) as [[]|e|]; cbn [app];
    [| traced ..].
  destruct (fst (Web.enterEmail (Some (loginPage w)) (email cfg)))
    as [b|e|]; cbn [app]; [| traced ..].
  destruct (WaitFacts.waitForCode_total
              (mailbox w) (fromEmail cfg) 60000 None true) as [wt ->].
  destruct (Monitor.outcome wt) as [found|e|]; cbn [app]; [| traced ..].
  destruct (ofError (enterCode w found)) as [[]|e|]; cbn [app]; [| traced ..].
  destruct (ofError (waitForLoginSuccess w)) as [[]|e|]; cbn [app]; traced.
Qed.

(** With the mailbox connected and the page loaded, the address of the
    configuration is what [enterEmail] is called with. *)
Lemma login_enters_email (cfg : Config) (w : World) :
  Monitor.connectAnswer (mailbox w) = Monitor.Ready ->
  launch w = None ->
  goto w (loginUrl cfg) = None ->
  exists r rest,
    login (new cfg) w []
    = Some (r, [Connect (stripEmailTag (email cfg));
                Init (headless cfg) (devtools cfg);
                NavigateToLogin (loginUrl cfg);
                EnterEmail (email cfg)
                           (snd (Web.enterEmail (Some (loginPage w)) (email cfg)))]
               ++ rest).
Proof.
  intros Hc Hl Hg.
  unfold login, tryFinally, bind, call, callWaitForCode, new.
  cbn [config emailMonitor user app]. rewrite Hc, Hl, Hg.
  cbn [Monitor.connect snd ofThrown app].
  destruct (fst (Web.enterEmail (Some (loginPage w)) (email cfg)))
    as [b|e|]; cbn [app]; [| eexists; eexists; reflexivity ..].
  destruct (WaitFacts.waitForCode_total
              (mailbox w) (fromEmail cfg) 60000 None true) as [wt ->].
  destruct (Monitor.outcome wt) as [found|e|]; cbn [app];
    [| eexists; eexists; reflexivity ..].
  destruct (ofError (enterCode w found)) as [[]|e|]; cbn [app];
    [| eexists; eexists; reflexivity ..].
  destruct (ofError (waitForLoginSuccess w)) as [[]|e|]; cbn [app];
    eexists; eexists; reflexivity.
Qed.

(** When [waitForCode] then resolves, its code is what [enterCode] is called
    with. *)
Lemma login_enters_code (cfg : Config) (w : World) (b : bool)
      (wt : Monitor.Wait) (found : jsstring) :
  Monitor.connectAnswer (mailbox w) = Monitor.Ready ->
  launch w = None ->
  goto w (loginUrl cfg) = None ->
  fst (Web.enterEmail (Some (loginPage w)) (email cfg)) = Resolved b ->
  Monitor.waitForCode true (mailbox w) (fromEmail cfg) 60000 None = Some wt ->
  Monitor.outcome wt = Resolved found ->
  exists r rest,
    login (new cfg) w []
    = Some (r, [Connect (stripEmailTag (email cfg));
                Init (headless cfg) (devtools cfg);
                NavigateToLogin (loginUrl cfg);
                EnterEmail (email cfg)
                           (snd (Web.enterEmail (Some (loginPage w)) (email cfg)));
                WaitForCode (fromEmail cfg) 60000 None (Monitor.flagged wt);
                EnterCode found]
               ++ rest).
Proof.
  intros Hc Hl Hg He Hw Ho.
  unfold login, tryFinally, bind, call, callWaitForCode, new.
  cbn [config emailMonitor user app]. rewrite Hc, Hl, Hg, He, Hw, Ho.
  cbn [Monitor.connect snd ofThrown app].
  destruct (ofError (enterCode w found)) as [[]|e|]; cbn [app];
    [| eexists; eexists; reflexivity ..].
  destruct (ofError (waitForLoginSuccess w)) as [[]|e|]; cbn [app];
    eexists; eexists; reflexivity.
Qed.

End LoginFacts.

Import AutoLogin.

(** C9. For an address user+tag@domain the mailbox account of the monitor is
    user@domain: that is the account [login] connects with, first of all
    calls, and no other. The address passed to [enterEmail], and typed into
    the page, is the configured one with its tag; it is passed whenever the
    mailbox connects and the page loads. *)
Theorem tag_is_stripped_for_the_mailbox_only
        (cfg : Config) (w : World) (u tag dom : jsstring) :
  email cfg = u ++ [43%N] ++ tag ++ [64%N] ++ dom ->
  ~ In 43%N u -> tag <> [] -> ~ In 64%N tag ->
  user (emailMonitor (new cfg)) = u ++ [64%N] ++ dom
  /\ (exists r rest,
         login (new cfg) w [] = Some (r, Connect (u ++ [64%N] ++ dom) :: rest)
         /\ (forall account, ~ In (Connect account) rest)
         /\ (forall a acts,
                In (EnterEmail a acts) rest ->
                a = u ++ [43%N] ++ tag ++ [64%N] ++ dom
                /\ forall sel v, In (Web.Fill sel v) acts ->
                                 v = u ++ [43%N] ++ tag ++ [64%N] ++ dom)
         /\ (connectAnswer (mailbox w) = Ready ->
             launch w = None ->
             goto w (loginUrl cfg) = None ->
             exists acts, In (EnterEmail (email cfg) acts) rest)).
Proof.
  intros He Hu Hne Hat.
  assert (Hs : stripEmailTag (email cfg) = u ++ [64%N] ++ dom)
    by (rewrite He; now apply TagFacts.stripEmailTag_tagged).
  split; [exact Hs|].
  destruct (LoginFacts.login_trace cfg w) as (r & rest & Hl & Hall).
  rewrite Hs in Hl. exists r, rest. split; [exact Hl|].
  rewrite Forall_forall in Hall. split; [|split].
  - intros account Hin. specialize (Hall _ Hin). unfold expected in Hall.
    destruct Hall as [H|[H|[H|[[m H]|[[f H]|[H|H]]]]]]; discriminate.
  - intros a acts Hin. specialize (Hall _ Hin). unfold expected in Hall.
    destruct Hall as [H|[H|[H|[[m H]|[[f H]|[H|H]]]]]]; try discriminate.
    assert (Ha : a = email cfg) by congruence.
    assert (Hacts : acts = snd (Web.enterEmail (Some (loginPage w)) (email cfg)))
      by congruence.
    rewrite <- He. split; [exact Ha|].
    intros sel v. rewrite Hacts. apply WebFacts.enterEmail_fills.
  - intros Hc Hla Hg.
    destruct (LoginFacts.login_enters_email cfg w Hc Hla Hg) as (r' & rest' & Hl').
    rewrite Hs, Hl in Hl'. injection Hl' as _ ->.
    eexists. right. right. now left.
Qed.

Lemma tag_is_stripped_for_the_mailbox_only_witness :
  user (emailMonitor (new Scenario.tagged)) = Js.lit "user@gmail.com"
  /\ (exists r rest,
         login (new Scenario.tagged) Scenario.oldUnread []
         = Some (r, Connect (Js.lit "user@gmail.com") :: rest)
         /\ In (EnterEmail (Js.lit "user+tag@gmail.com")
                           [Web.Fill Web.firstSelector (Js.lit "user+tag@gmail.com");
                            Web.Click (nth 0 Web.submitSelectors [])])
               rest).
Proof.
  destruct (tag_is_stripped_for_the_mailbox_only
              Scenario.tagged Scenario.oldUnread
              (Js.lit "user") (Js.lit "tag") (Js.lit "gmail.com"))
    as (Hu & r & rest & Hl & _ & _ & _).
  - reflexivity.
  - cbn. intros [H|[H|[H|[H|[]]]]]; discriminate.
  - discriminate.
  - cbn. intros [H|[H|[H|[]]]]; discriminate.
  - split; [exact Hu|]. exists r, rest. split; [exact Hl|].
    vm_compute in Hl. injection Hl as _ <-. vm_compute. tauto.
Defined.

(** C10. Every run of [login] calls [waitForCode] with the configured
    sender, 60000 milliseconds and no [sinceTime]. Without [sinceTime] no
    message is too old: when the first poll fetches a single unread message
    with a code, whatever its date, [waitForCode] flags it and resolves with
    its code, and [login] enters that code. *)
Theorem login_waits_without_sinceTime :
  (forall cfg w,
      exists r rest,
        login (new cfg) w []
        = Some (r, Connect (stripEmailTag (email cfg)) :: rest)
        /\ forall from maxWaitTime since marked,
            In (WaitForCode from maxWaitTime since marked) rest ->
            from = fromEmail cfg /\ maxWaitTime = 60000 /\ since = None)
  /\ (forall d, isOld None d = false)
  /\ (forall cfg w u p found d b,
         connectAnswer (mailbox w) = Ready ->
         launch w = None ->
         goto w (loginUrl cfg) = None ->
         fst (Web.enterEmail (Some (loginPage w)) (email cfg)) = Resolved b ->
         regular (fromEmail cfg) [mkMessage (Some u) (Parsed p)]
                 (polls (mailbox w) 0) ->
         u <> 0%N ->
         extractCode p = Some found ->
         date p = Some d ->
         waitForCode true (mailbox w) (fromEmail cfg) 60000 None
         = Some (mkWait (Resolved found) (endOf (mailbox w) 0) 1 [u])
         /\ exists r tr,
             login (new cfg) w [] = Some (r, tr)
             /\ In (WaitForCode (fromEmail cfg) 60000 None [u]) tr
             /\ In (EnterCode found) tr).
Proof.
  split; [|split].
  - intros cfg w.
    destruct (LoginFacts.login_trace cfg w) as (r & rest & Hl & Hall).
    exists r, rest. split; [exact Hl|].
    rewrite Forall_forall in Hall.
    intros from maxWaitTime since marked Hin.
    specialize (Hall _ Hin). unfold expected in Hall.
    destruct Hall as [H|[H|[H|[[m H]|[[f H]|[H|H]]]]]]; try discriminate.
    injection H as -> -> -> _. now repeat split.
  - reflexivity.
  - intros cfg w u p found d b Hc Hl Hg He Hreg Hu Hx Hd.
    assert (Hcand : candidates None [mkMessage (Some u) (Parsed p)]
                    = [mkValid u found d]).
    { cbn [candidates]. unfold candidate. cbn [attrUid parsed usableUid].
      apply N.eqb_neq in Hu. now rewrite Hu, Hx, Hd. }
    assert (Hw : waitForCode true (mailbox w) (fromEmail cfg) 60000 None
                 = Some (mkWait (Resolved found) (endOf (mailbox w) 0) 1 [u])).
    { apply (@WaitFacts.waitForCode_regular
               (mailbox w) (fromEmail cfg) 60000 None true 0%nat
               [mkMessage (Some u) (Parsed p)] (mkValid u found d) []).
      - reflexivity.
      - split; [cbn; lia | intros j Hj; lia].
      - exact Hreg.
      - now rewrite Hcand. }
    split; [exact Hw|].
    destruct (LoginFacts.login_enters_code cfg w b _ found Hc Hl Hg He Hw eq_refl)
      as (r & rest & Hlog).
    exists r. eexists. split; [exact Hlog|].
    cbn [flagged app In]. split; [do 4 right; now left | do 5 right; now left].
Qed.

Lemma login_waits_without_sinceTime_witness :
  waitForCode true (mailbox Scenario.oldUnread) Scenario.sender 60000 None
  = Some (mkWait (Resolved (Js.lit "147826")) 300 1 [21%N])
  /\ exists r tr,
      login (new Scenario.tagged) Scenario.oldUnread [] = Some (r, tr)
      /\ In (WaitForCode Scenario.sender 60000 None [21%N]) tr
      /\ In (EnterCode (Js.lit "147826")) tr.
Proof.
  apply (proj2 (proj2 login_waits_without_sinceTime)
               Scenario.tagged Scenario.oldUnread 21%N
               (mkParsed (Some (Js.lit "Expensify magic code: 147826")) (Some 0)
                         (Some (Js.lit "147826")) None)
               (Js.lit "147826") 0 true).
  - reflexivity.
  - reflexivity.
  - reflexivity.
  - reflexivity.
  - split; [reflexivity|]. split; [reflexivity|].
    exists [21%N]. split; reflexivity.
  - discriminate.
  - reflexivity.
  - reflexivity.
Defined.

(* ================================================================== *)
(** ** Facts about the text functions *)

Module TextFacts.
Import Regex Spec Spec2 RegexFacts.

Lemma eqb_eq (a b : jsstring) : JsText.eqb a b = true <-> a = b.
Proof.
  revert b. induction a as [|x a IH]; intros [|y b]; cbn [JsText.eqb];
    try (split; [discriminate | discriminate]); [tauto|].
  rewrite andb_true_iff, N.eqb_eq, IH. split.
  - now intros [-> ->].
  - now intros [= -> ->].
Qed.

Lemma eqb_refl (a : jsstring) : JsText.eqb a a = true.
Proof. now apply eqb_eq. Qed.

Lemma eqb_neq (a b : jsstring) : JsText.eqb a b = false <-> a <> b.
Proof.
  rewrite <- eqb_eq. destruct (JsText.eqb a b); split; congruence.
Qed.

Lemma stripPrefix_iff (p s r : jsstring) :
  Js.stripPrefix p s = Some r <-> s = p ++ r.
Proof.
  split; [apply stripPrefix_app|].
  intros ->. induction p as [|c p IH]; cbn; [reflexivity|].
  now rewrite N.eqb_refl.
Qed.

(** [includes] is the test for a substring. *)
Lemma includes_iff (s p : jsstring) :
  Js.includes s p = true <-> exists a b, s = a ++ p ++ b.
Proof.
  induction s as [|x t IH]; cbn [Js.includes].
  - destruct (Js.stripPrefix p []) as [r|] eqn:E.
    + split; [intros _|reflexivity].
      apply stripPrefix_iff in E. now exists [], r.
    + split; [discriminate|]. intros (a & b & H).
      destruct a as [|y a]; [|discriminate].
      cbn [app] in H. apply stripPrefix_iff in H. congruence.
  - destruct (Js.stripPrefix p (x :: t)) as [r|] eqn:E.
    + split; [intros _|reflexivity].
      apply stripPrefix_iff in E. now exists [], r.
    + rewrite IH. split.
      * intros (a & b & ->). now exists (x :: a), b.
      * intros (a & b & H). destruct a as [|y a].
        -- cbn [app] in H. apply stripPrefix_iff in H. congruence.
        -- injection H as _ ->. now exists a, b.
Qed.

Lemma split_not_nil (sep : N) (s : jsstring) : JsText.split sep s <> [].
Proof.
  destruct s as [|c t]; cbn [JsText.split]; [discriminate|].
  destruct (c =? sep)%N; [discriminate|].
  destruct (JsText.split sep t); discriminate.
Qed.

(** Splitting and joining again gives the string back. *)
Lemma join_split (sep : N) (s : jsstring) :
  JsText.join sep (JsText.split sep s) = s.
Proof.
  induction s as [|c t IH]; [reflexivity|]. cbn [JsText.split].
  pose proof (split_not_nil sep t) as Hn.
  destruct (JsText.split sep t) as [|h r]; [now elim Hn|].
  destruct (c =? sep)%N eqn:E.
  - apply N.eqb_eq in E. subst c.
    change (sep :: JsText.join sep (h :: r) = sep :: t). now rewrite IH.
  - destruct r as [|x r'].
    + cbn [JsText.join] in *. now rewrite IH.
    + change (c :: (h ++ sep :: JsText.join sep (x :: r')) = c :: t).
      f_equal. exact IH.
Qed.

(** The first part is what stands before the first separator. *)
Lemma split_first (sep : N) (k v : jsstring) :
  ~ In sep k ->
  JsText.split sep (k ++ sep :: v) = k :: JsText.split sep v.
Proof.
  induction k as [|c k IH]; intros H; cbn [app JsText.split].
  - now rewrite N.eqb_refl.
  - destruct (c =? sep)%N eqn:E.
    + apply N.eqb_eq in E. subst c. elim H. now left.
    + rewrite IH by (intros Hk; apply H; now right). reflexivity.
Qed.

Lemma trimStart_dropWhile (s : jsstring) :
  JsText.trimStart s = dropWhile isSpace s.
Proof. induction s as [|c t IH]; cbn; [reflexivity|]. now rewrite IH. Qed.

Lemma trimStart_app (a b : jsstring) :
  existsb notSpace a = true ->
  JsText.trimStart (a ++ b) = JsText.trimStart a ++ b.
Proof.
  induction a as [|c a IH]; cbn [existsb app JsText.trimStart]; [discriminate|].
  unfold notSpace at 1. destruct (isSpace c); cbn [negb orb]; [exact IH|reflexivity].
Qed.

Lemma trimStart_spaces (a b : jsstring) :
  forallb isSpace a = true ->
  JsText.trimStart (a ++ b) = JsText.trimStart b.
Proof.
  induction a as [|c a IH]; cbn [forallb app JsText.trimStart]; [reflexivity|].
  intros H. apply andb_true_iff in H as [-> H]. now apply IH.
Qed.

Lemma trimStart_head (c : N) (t : jsstring) :
  isSpace c = false -> JsText.trimStart (c :: t) = c :: t.
Proof. intros H. cbn. now rewrite H. Qed.

Lemma spaces_or_not (s : jsstring) :
  forallb isSpace s = true \/ existsb notSpace s = true.
Proof.
  induction s as [|c t [IH|IH]]; cbn [forallb existsb]; [now left | |].
  - unfold notSpace at 1. destruct (isSpace c); cbn; [now left | now right].
  - right. rewrite IH. apply orb_true_r.
Qed.

Lemma trimStart_all_spaces (s : jsstring) :
  forallb isSpace s = true -> JsText.trimStart s = [].
Proof.
  intros H. rewrite <- (app_nil_r s). now rewrite trimStart_spaces.
Qed.

Lemma trimStart_nonempty (s : jsstring) :
  existsb notSpace s = true ->
  exists c t, JsText.trimStart s = c :: t /\ isSpace c = false
              /\ existsb notSpace (c :: t) = true.
Proof.
  induction s as [|c t IH]; cbn [existsb JsText.trimStart]; [discriminate|].
  unfold notSpace at 1. destruct (isSpace c) eqn:E; cbn [negb orb].
  - exact IH.
  - intros _. exists c, t. repeat split; try assumption.
    cbn [existsb]. unfold notSpace at 1. now rewrite E.
Qed.

Lemma forallb_rev (p : N -> bool) (s : jsstring) :
  forallb p (rev s) = forallb p s.
Proof.
  induction s as [|c t IH]; [reflexivity|]. cbn [rev forallb].
  rewrite forallb_app, IH. cbn. rewrite andb_true_r. apply andb_comm.
Qed.

Lemma existsb_rev (p : N -> bool) (s : jsstring) :
  existsb p (rev s) = existsb p s.
Proof.
  induction s as [|c t IH]; [reflexivity|]. cbn [rev existsb].
  rewrite existsb_app, IH. cbn. rewrite orb_false_r. apply orb_comm.
Qed.

Lemma trimEnd_app (a b : jsstring) :
  existsb notSpace b = true ->
  JsText.trimEnd (a ++ b) = a ++ JsText.trimEnd b.
Proof.
  intros H. unfold JsText.trimEnd.
  rewrite rev_app_distr, trimStart_app by now rewrite existsb_rev.
  now rewrite rev_app_distr, rev_involutive.
Qed.

Lemma trimEnd_spaces (a b : jsstring) :
  forallb isSpace b = true ->
  JsText.trimEnd (a ++ b) = JsText.trimEnd a.
Proof.
  intros H. unfold JsText.trimEnd.
  now rewrite rev_app_distr, trimStart_spaces by now rewrite forallb_rev.
Qed.

Lemma trimEnd_all_spaces (s : jsstring) :
  forallb isSpace s = true -> JsText.trimEnd s = [].
Proof.
  intros H. unfold JsText.trimEnd.
  now rewrite trimStart_all_spaces by now rewrite forallb_rev.
Qed.

(** What [trimEnd] leaves of a string with a visible character starts as
    the string does and has a visible character. *)
Lemma trimEnd_head (c : N) (t : jsstring) :
  isSpace c = false ->
  exists t', JsText.trimEnd (c :: t) = c :: t'.
Proof.
  intros Hc. destruct (spaces_or_not t) as [H|H].
  - exists []. change (c :: t) with ([c] ++ t). rewrite trimEnd_spaces by assumption.
    unfold JsText.trimEnd. cbn. now rewrite Hc.
  - exists (JsText.trimEnd t). change (c :: t) with ([c] ++ t).
    now rewrite trimEnd_app.
Qed.

Lemma trimEnd_idem (s : jsstring) :
  JsText.trimEnd (JsText.trimEnd s) = JsText.trimEnd s.
Proof.
  unfold JsText.trimEnd. rewrite rev_involutive. f_equal.
  destruct (spaces_or_not (rev s)) as [H|H].
  - now rewrite (trimStart_all_spaces _ H).
  - destruct (trimStart_nonempty _ H) as (c & t & -> & Hc & _).
    now apply trimStart_head.
Qed.

Lemma trim_comm (s : jsstring) :
  JsText.trimStart (JsText.trimEnd s) = JsText.trimEnd (JsText.trimStart s).
Proof.
  destruct (spaces_or_not s) as [H|H].
  - rewrite (trimEnd_all_spaces _ H), (trimStart_all_spaces _ H). reflexivity.
  - destruct (trimStart_nonempty _ H) as (c & t & Ert & Hc & Hx).
    assert (Es : s = takeWhile isSpace s ++ c :: t).
    { rewrite <- Ert, trimStart_dropWhile. symmetry. apply take_drop. }
    destruct (trimEnd_head c t Hc) as [t' Et].
    rewrite Ert, Et. rewrite Es, trimEnd_app, Et by exact Hx.
    rewrite trimStart_spaces by apply takeWhile_all.
    now apply trimStart_head.
Qed.

(** Trimming what was trimmed at the end changes nothing more. *)
Lemma trim_trimEnd (s : jsstring) :
  JsText.trim (JsText.trimEnd s) = JsText.trim s.
Proof.
  unfold JsText.trim. now rewrite trim_comm, trimEnd_idem.
Qed.

Lemma trim_nil_iff (s : jsstring) :
  JsText.trim s = [] <-> forallb isSpace s = true.
Proof.
  unfold JsText.trim. split.
  - intros H. destruct (spaces_or_not s) as [Hs|Hs]; [exact Hs|].
    destruct (trimStart_nonempty _ Hs) as (c & t & E & Hc & _).
    rewrite E in H. destruct (trimEnd_head c t Hc) as [t' E']. congruence.
  - intros H. now rewrite (trimStart_all_spaces _ H).
Qed.

End TextFacts.

Module ReplaceFacts.
Import Regex Spec Spec2 RegexFacts.

Section Class.
Variable p : N -> bool.

Local Abbreviation q := (outside p).

Lemma search_class (pre s : jsstring) :
  searchFrom (Cls p) pre s =
  match dropWhile q s with
  | [] => None
  | _ :: t => Some (mkMatch (pre ++ takeWhile q s) t None)
  end.
Proof.
  revert pre. induction s as [|c t IH]; intros pre; [reflexivity|].
  cbn [searchFrom dropWhile takeWhile]. unfold matchHere. cbn [exec]. unfold outside at 1 3.
  destruct (p c); cbn [negb].
  - now rewrite app_nil_r.
  - rewrite IH. destruct (dropWhile q t); [reflexivity|].
    now rewrite <- app_assoc.
Qed.

Lemma filter_takeWhile (s : jsstring) : filter q (takeWhile q s) = takeWhile q s.
Proof.
  induction s as [|c t IH]; [reflexivity|]. cbn [takeWhile].
  destruct (q c) eqn:E; [|reflexivity]. cbn [filter]. now rewrite E, IH.
Qed.

Lemma filter_split (s : jsstring) :
  filter q s = takeWhile q s ++ filter q (tl (dropWhile q s)).
Proof.
  induction s as [|c t IH]; [reflexivity|]. cbn [takeWhile dropWhile filter].
  destruct (q c); cbn [app tl]; [now rewrite IH | reflexivity].
Qed.

Lemma replaceAllFrom_class (fuel : nat) (s : jsstring) :
  (List.length s < fuel)%nat ->
  JsText.replaceAllFrom fuel (Cls p) [] s = filter q s.
Proof.
  revert s. induction fuel as [|f IH]; intros s H; [lia|].
  cbn [JsText.replaceAllFrom]. unfold match_. rewrite search_class.
  pose proof (take_drop q s) as Hs. pose proof (filter_split s) as Hf.
  destruct (dropWhile q s) as [|x t] eqn:E.
  - rewrite app_nil_r in Hs. rewrite Hf. cbn [tl filter]. now rewrite app_nil_r.
  - cbn [before after app tl] in *.
    assert (Hl : List.length s = (List.length (takeWhile q s) + S (List.length t))%nat).
    { rewrite <- Hs at 1. rewrite length_app. reflexivity. }
    destruct (Nat.ltb_spec (List.length (takeWhile q s) + List.length t)
                           (List.length s)); [|lia].
    rewrite IH by lia. now rewrite Hf.
Qed.
End Class.

(** Removing the white space keeps the other characters, in their order. *)
Lemma removeSpaces_filter (s : jsstring) :
  JsText.removeSpaces s = filter notSpace s.
Proof.
  unfold JsText.removeSpaces, JsText.replaceAll.
  now rewrite replaceAllFrom_class by lia.
Qed.

Lemma removeSpaces_clean (s : jsstring) (c : N) :
  In c (JsText.removeSpaces s) -> isSpace c = false.
Proof.
  rewrite removeSpaces_filter. intros H. apply filter_In in H as [_ H].
  now apply negb_true_iff in H.
Qed.

Lemma removeSpaces_nil_iff (s : jsstring) :
  JsText.removeSpaces s = [] <-> forallb isSpace s = true.
Proof.
  rewrite removeSpaces_filter. induction s as [|c t IH]; cbn [filter forallb].
  - tauto.
  - unfold notSpace at 1. destruct (isSpace c); cbn [negb andb].
    + exact IH.
    + split; discriminate.
Qed.

(** A string without white space is left as it is. *)
Lemma removeSpaces_id (s : jsstring) :
  forallb notSpace s = true -> JsText.removeSpaces s = s.
Proof.
  rewrite removeSpaces_filter. induction s as [|c t IH]; [reflexivity|].
  cbn [forallb filter]. intros H. apply andb_true_iff in H as [-> H].
  now rewrite IH.
Qed.

Lemma filter_trimStart (s : jsstring) :
  filter notSpace (JsText.trimStart s) = filter notSpace s.
Proof.
  induction s as [|c t IH]; [reflexivity|]. cbn [JsText.trimStart filter].
  unfold notSpace at 2. destruct (isSpace c) eqn:E; cbn [negb]; [exact IH|].
  cbn [filter]. unfold notSpace at 1. now rewrite E.
Qed.

Lemma filter_rev (f : N -> bool) (s : jsstring) :
  filter f (rev s) = rev (filter f s).
Proof.
  induction s as [|c t IH]; [reflexivity|]. cbn [rev filter].
  rewrite filter_app, IH. cbn [filter]. destruct (f c); cbn [rev]; [reflexivity|].
  now rewrite app_nil_r.
Qed.

(** Trimming first makes no difference to what is left. *)
Lemma removeSpaces_trim (s : jsstring) :
  JsText.removeSpaces (JsText.trim s) = JsText.removeSpaces s.
Proof.
  rewrite !removeSpaces_filter. unfold JsText.trim, JsText.trimEnd.
  rewrite filter_rev, filter_trimStart, filter_rev, rev_involutive.
  apply filter_trimStart.
Qed.

End ReplaceFacts.

Module EnvFacts.
Import TextFacts.

Lemma get_assign_same (k v : jsstring) (env : Env.t) :
  Env.get k (Env.assign k v env) = Some v.
Proof.
  induction env as [|[k' v'] rest IH]; cbn [Env.assign Env.get].
  - now rewrite eqb_refl.
  - destruct (JsText.eqb k k') eqn:E; cbn [Env.get]; rewrite ?eqb_refl, ?E; auto.
Qed.

Lemma get_assign_other (k k' v : jsstring) (env : Env.t) :
  k' <> k -> Env.get k' (Env.assign k v env) = Env.get k' env.
Proof.
  intros H. apply eqb_neq in H.
  induction env as [|[k0 v0] rest IH]; cbn [Env.assign Env.get].
  - now rewrite H.
  - destruct (JsText.eqb k k0) eqn:E; cbn [Env.get].
    + apply eqb_eq in E. subst k0. now rewrite H.
    + now rewrite IH.
Qed.

Lemma get_set_same (k v : jsstring) (env : Env.t) :
  k <> Env.proto -> Env.get k (Env.set k v env) = Some v.
Proof.
  intros H. unfold Env.set. apply eqb_neq in H. rewrite H.
  apply get_assign_same.
Qed.

Lemma get_set_other (k k' v : jsstring) (env : Env.t) :
  k' <> k -> Env.get k' (Env.set k v env) = Env.get k' env.
Proof.
  intros H. unfold Env.set. destruct (JsText.eqb k Env.proto); [reflexivity|].
  now apply get_assign_other.
Qed.

Lemma set_proto (v : jsstring) (env : Env.t) : Env.set Env.proto v env = env.
Proof. unfold Env.set. now rewrite eqb_refl. Qed.

End EnvFacts.


(* ================================================================== *)
(** ** Properties of [loadEnv] and [main] *)

Module LoadFacts.
Import Regex Spec Spec2 RegexFacts TextFacts.

Lemma trimEnd_last (a : jsstring) (c : N) :
  isSpace c = false -> JsText.trimEnd (a ++ [c]) = a ++ [c].
Proof.
  intros H. unfold JsText.trimEnd. rewrite rev_app_distr. cbn [rev app].
  rewrite trimStart_head by assumption. cbn [rev].
  now rewrite rev_involutive.
Qed.

(** The line [k=v] once trimmed. *)
Lemma trim_assignment (k v : jsstring) (c : N) (t : jsstring) :
  k = c :: t -> isSpace c = false ->
  JsText.trim (k ++ 61%N :: v) = k ++ 61%N :: JsText.trimEnd v.
Proof.
  intros -> Hc. unfold JsText.trim. cbn [app]. rewrite trimStart_head by assumption.
  replace (c :: t ++ 61%N :: v) with (((c :: t) ++ [61%N]) ++ v)
    by (rewrite <- app_assoc; reflexivity).
  destruct (spaces_or_not v) as [H|H].
  - rewrite trimEnd_spaces, (trimEnd_all_spaces _ H) by assumption.
    rewrite trimEnd_last by reflexivity. reflexivity.
  - rewrite trimEnd_app by assumption. now rewrite <- app_assoc.
Qed.

Lemma In_trimStart (c : N) (s : jsstring) : In c (JsText.trimStart s) -> In c s.
Proof.
  induction s as [|x t IH]; cbn [JsText.trimStart]; [tauto|].
  destruct (isSpace x); [|tauto]. intros H. right. now apply IH.
Qed.

Lemma In_trim (c : N) (s : jsstring) : In c (JsText.trim s) -> In c s.
Proof.
  unfold JsText.trim, JsText.trimEnd. intros H.
  apply In_trimStart. apply in_rev. apply In_trimStart. now apply in_rev in H.
Qed.

Lemma find_append (A : Type) (f : A -> bool) (a b : list A) :
  find f (a ++ b) = match find f a with
                    | Some x => Some x
                    | None => find f b
                    end.
Proof.
  induction a as [|x a IH]; [reflexivity|]. cbn [app find].
  now destruct (f x).
Qed.

Lemma loadLine_fold (lines : list jsstring) (env : Env.t) (k : jsstring) :
  k <> Env.proto ->
  Env.get k (fold_left Launcher.loadLine lines env) =
  match lastAssigned k (assignmentsOf lines) with
  | Some v => Some v
  | None => Env.get k env
  end.
Proof.
  intros Hk.
  revert env. induction lines as [|line rest IH]; intros env; [reflexivity|].
  cbn [fold_left assignmentsOf]. rewrite IH. unfold Launcher.loadLine.
  destruct (Launcher.parseLine line) as [[k' v']|]; [|reflexivity].
  unfold lastAssigned. cbn [rev]. rewrite find_append.
  destruct (find _ (rev (assignmentsOf rest))) as [[k0 v0]|]; [reflexivity|].
  cbn [find fst option_map snd].
  destruct (JsText.eqb k k') eqn:E.
  - apply eqb_eq in E. subst k'. now apply EnvFacts.get_set_same.
  - apply eqb_neq in E. now apply EnvFacts.get_set_other.
Qed.

End LoadFacts.

Import Launcher Spec2.

(** X1. A line [k=v] of [.env], where [k] is not empty, starts with neither
    white space nor [#] and holds no [=], sets the variable [k], with any
    white space that ends it, to [v] trimmed, which may hold [=]; it sets
    nothing when [v] is blank. A line that is blank, starts with [#], holds
    no [=] or starts with [=] sets nothing. *)
Theorem env_line_sets_key_to_trimmed_value :
  (forall (k v : jsstring) (c : N) (t : jsstring),
      k = c :: t -> Regex.isSpace c = false -> c <> 35%N -> ~ In 61%N k ->
      parseLine (k ++ [61%N] ++ v)
      = if Js.truthy (JsText.trim v) then Some (k, JsText.trim v) else None)
  /\ (forall line,
         JsText.trim line = []
         \/ JsText.startsWith (JsText.trim line) (Js.lit "#") = true
         \/ ~ In 61%N line
         \/ JsText.startsWith (JsText.trim line) (Js.lit "=") = true ->
         parseLine line = None).
Proof.
  split.
  - intros k v c t Hk Hc Hh He. unfold parseLine. cbn [app].
    rewrite (LoadFacts.trim_assignment k v c t Hk Hc).
    assert (Ht : Js.truthy (k ++ 61%N :: JsText.trimEnd v) = true)
      by (rewrite Hk; reflexivity).
    assert (Hs : JsText.startsWith (k ++ 61%N :: JsText.trimEnd v) (Js.lit "#")
                 = false).
    { rewrite Hk. unfold JsText.startsWith. change (Js.lit "#") with [35%N].
      cbn [app Js.stripPrefix].
      destruct (N.eqb_spec 35 c) as [E|E]; [now elim Hh | reflexivity]. }
    assert (Hi : Js.includes (k ++ 61%N :: JsText.trimEnd v) (Js.lit "=") = true).
    { apply TextFacts.includes_iff. now exists k, (JsText.trimEnd v). }
    rewrite Ht, Hs, Hi. cbn [negb andb].
    rewrite TextFacts.split_first by assumption.
    rewrite TextFacts.join_split, TextFacts.trim_trimEnd.
    rewrite Hk at 1. reflexivity.
  - intros line H. unfold parseLine.
    destruct H as [H|[H|[H|H]]].
    + now rewrite H.
    + rewrite H. now rewrite andb_false_r.
    + assert (Hi : Js.includes (JsText.trim line) (Js.lit "=") = false).
      { destruct (Js.includes (JsText.trim line) (Js.lit "=")) eqn:E; [|reflexivity].
        apply TextFacts.includes_iff in E as (a & b & E). elim H.
        apply LoadFacts.In_trim. rewrite E. apply in_or_app. right. now left. }
      rewrite Hi. now rewrite andb_false_r.
    + unfold JsText.startsWith in H.
      destruct (Js.stripPrefix (Js.lit "=") (JsText.trim line)) as [r|] eqn:E;
        [|discriminate].
      apply TextFacts.stripPrefix_iff in E. rewrite E.
      change (Js.lit "=" ++ r) with (61%N :: r).
      cbn [JsText.split N.eqb Pos.eqb Js.truthy andb].
      now destruct (_ && _).
Qed.

(** X2. After [loadEnv] every variable has the value that the last line of
    [.env] setting it gives it, whatever the environment held, and its
    former value when no line sets it. The name [__proto__] is no
    variable: a line that assigns to it leaves the environment as it is.
    Without Bun or without the file the environment stays as it is. *)
Theorem loadEnv_last_assignment_wins
        (text : jsstring) (env : Env.t) (key : jsstring) :
  key <> Env.proto ->
  Env.get key (loadEnv true (Some text) env)
  = match lastAssigned key (assignments text) with
    | Some v => Some v
    | None => Env.get key env
    end
  /\ (forall line v, parseLine line = Some (Env.proto, v) ->
                     loadLine env line = env)
  /\ loadEnv true None env = env
  /\ (forall file, loadEnv false file env = env).
Proof.
  intros Hk. split; [now apply LoadFacts.loadLine_fold|].
  split; [|split; reflexivity].
  intros line v H. unfold loadLine. rewrite H. apply EnvFacts.set_proto.
Qed.

Lemma loadEnv_last_assignment_wins_witness :
  Env.get (Js.lit "EMAIL")
          (loadEnv true
                   (Some (Js.lit "EMAIL=a@b.c" ++ [10%N]
                          ++ Js.lit "__proto__=p1" ++ [10%N]
                          ++ Js.lit "EMAIL=d@e.f"))
                   [(Js.lit "EMAIL", Js.lit "x@y.z")])
  = Some (Js.lit "d@e.f")
  /\ loadEnv true (Some (Js.lit "__proto__=p1")) [] = [].
Proof.
  split; [|reflexivity].
  exact (proj1 (loadEnv_last_assignment_wins
                  (Js.lit "EMAIL=a@b.c" ++ [10%N]
                   ++ Js.lit "__proto__=p1" ++ [10%N]
                   ++ Js.lit "EMAIL=d@e.f")
                  [(Js.lit "EMAIL", Js.lit "x@y.z")]
                  (Js.lit "EMAIL")
                  ltac:(discriminate))).
Defined.

Lemma env_line_sets_key_to_trimmed_value_witness :
  parseLine (Js.lit "APP_PASSWORD =  abcd efgh=ijkl  ")
  = Some (Js.lit "APP_PASSWORD ", Js.lit "abcd efgh=ijkl").
Proof.
  refine (proj1 env_line_sets_key_to_trimmed_value
                (Js.lit "APP_PASSWORD ") (Js.lit "  abcd efgh=ijkl  ")
                65%N (Js.lit "PP_PASSWORD ") eq_refl eq_refl _ _).
  - discriminate.
  - cbn. intuition discriminate.
Defined.

Module MainFacts.
Import AutoLogin TextFacts ReplaceFacts.


End MainFacts.

(** X3. [main] exits with code 1 and calls nothing, neither the mailbox nor
    the browser, when after [loadEnv] the variable [EMAIL] is missing or
    empty, or [APP_PASSWORD] is missing or holds white space only. *)
Theorem main_exits_without_configuration
        (bun : bool) (file : option jsstring) (env0 : Env.t) (w : World) :
  Env.get (Js.lit "EMAIL") (loadEnv bun file env0) = None
  \/ Env.get (Js.lit "EMAIL") (loadEnv bun file env0) = Some []
  \/ Env.get (Js.lit "APP_PASSWORD") (loadEnv bun file env0) = None
  \/ (exists p, Env.get (Js.lit "APP_PASSWORD") (loadEnv bun file env0) = Some p
                /\ forallb Regex.isSpace p = true) ->
  main bun file env0 w = Some (mkRun [] false (Exits 1)).
Proof.
  intros H. unfold main, configOf.
  destruct H as [H|[H|[H|(p & H & Hp)]]]; rewrite H.
  - reflexivity.
  - now destruct (option_map _ _).
  - now destruct (Env.get (Js.lit "EMAIL") _).
  - destruct (Env.get (Js.lit "EMAIL") _) as [e|]; [|reflexivity].
    cbn [option_map].
    rewrite (proj2 (ReplaceFacts.removeSpaces_nil_iff p) Hp).
    now rewrite andb_false_r.
Qed.

Lemma main_exits_without_configuration_witness :
  main true (Some (Js.lit "EMAIL=user@gmail.com")) [] Scenario.oldUnread
  = Some (mkRun [] false (Exits 1)).
Proof.
  apply main_exits_without_configuration. right. right. left. reflexivity.
Defined.



(* ================================================================== *)
(** ** Properties of the credentials *)

Module CredentialFacts.
Import Regex Credentials Spec2 TextFacts ReplaceFacts.

Lemma visible_truthy (v : jsstring) :
  existsb notSpace v = true ->
  Js.truthy v = true /\ Js.truthy (JsText.trim v) = true.
Proof.
  intros H. split.
  - destruct v; [discriminate | reflexivity].
  - destruct (JsText.trim v) eqn:E; [|reflexivity].
    apply trim_nil_iff in E.
    destruct (trimStart_nonempty v H) as (c & t & Et & _).
    rewrite (trimStart_all_spaces v E) in Et. discriminate.
Qed.

Lemma blank_not_truthy (v : jsstring) :
  forallb isSpace v = true -> Js.truthy v && Js.truthy (JsText.trim v) = false.
Proof.
  intros H. rewrite (proj2 (trim_nil_iff v) H). apply andb_false_r.
Qed.

Lemma noEnvPassword_skips (h : Host) :
  noEnvPassword h ->
  match appPassword h with
  | Some v => if Js.truthy v && Js.truthy (JsText.trim v) then Some v else None
  | None => None
  end = None.
Proof.
  intros [H|(v & H & Hv)]; rewrite H; [reflexivity|].
  now rewrite blank_not_truthy.
Qed.

Lemma askPassword_asks (h : Host) (account : jsstring) (uk : bool)
      (before : list Effect) :
  uk = false \/ darwin h = false ->
  Forall isAsk before ->
  Forall isAsk (effects (askPassword h account uk before)).
Proof.
  intros Hk Hb. unfold askPassword.
  assert (E : uk && darwin h = false)
    by (destruct Hk as [-> | ->]; [reflexivity | apply andb_false_r]).
  rewrite E.
  destruct (promptPassword [] (enterPrompt account) (keys h))
    as [[[[a| |] out] rest] ls];
    cbn [effects]; apply Forall_app; (split; [exact Hb|]);
    repeat constructor; now eexists.
Qed.

Lemma removelast_length (s : jsstring) :
  List.length (removelast s) = (List.length s - 1)%nat.
Proof.
  induction s as [|c t IH]; [reflexivity|].
  destruct t as [|d t']; [reflexivity|].
  change (removelast (c :: d :: t')) with (c :: removelast (d :: t')).
  cbn [List.length] in *. rewrite IH. lia.
Qed.

Lemma count_app (w : jsstring) (a b : list jsstring) :
  count w (a ++ b) = (count w a + count w b)%nat.
Proof. unfold count. now rewrite filter_app, length_app. Qed.

Lemma concat_truthy (l : list jsstring) :
  List.concat (filter Js.truthy l) = List.concat l.
Proof.
  induction l as [|x l IH]; [reflexivity|]. cbn [filter List.concat].
  destruct x as [|c x]; cbn [Js.truthy]; [exact IH|].
  cbn [List.concat]. now rewrite IH.
Qed.

Lemma onKey_write (ch : Chunk) (p : jsstring) :
  snd (onKey ch p) = [] \/ snd (onKey ch p) = star \/ snd (onKey ch p) = erase.
Proof.
  unfold onKey. destruct ((first ch =? 127)%N || (first ch =? 8)%N).
  - destruct p; cbn [snd]; auto.
  - cbn [snd]. auto.
Qed.

Lemma writes_hidden (ch : Chunk) (ls : Listeners) :
  Forall (fun w => w = star \/ w = erase) (writes ch ls).
Proof.
  unfold writes. induction ls as [|p ls IH]; [constructor|].
  cbn [map filter].
  destruct (onKey_write ch p) as [E|[E|E]]; rewrite E.
  - exact IH.
  - change (Js.truthy star) with true. cbn iota.
    constructor; [now left | exact IH].
  - change (Js.truthy erase) with true. cbn iota.
    constructor; [now right | exact IH].
Qed.

Lemma newlines (A : Type) (l : list A) :
  map (fun _ => newline) l = repeat newline (List.length l).
Proof. induction l as [|x l IH]; [reflexivity|]. cbn. now rewrite IH. Qed.

(** What the listeners write and keep. *)
Lemma listen_echo (input : list Chunk) (ls : Listeners) (out : jsstring)
      (a out' : jsstring) (rest : list Chunk) (ls' : Listeners) :
  listen ls out input = (Entered a, out', rest, ls') ->
  exists ws,
    out' = out ++ List.concat ws
               ++ List.concat (repeat newline (List.length ls))
    /\ Forall (fun w => w = star \/ w = erase) ws
    /\ List.length ls' = List.length ls
    /\ last ls' [] = a
    /\ (forall p, ls = [p] ->
                  (forall ch, In ch input -> List.length (text ch) = 1%nat) ->
                  (List.length a + count erase ws
                   = List.length p + count star ws)%nat).
Proof.
  revert ls out. induction input as [|ch more IH]; intros ls out;
    cbn [listen]; [discriminate|].
  destruct ((first ch =? 3)%N || (first ch =? 4)%N); [discriminate|].
  destruct ((first ch =? 13)%N || (first ch =? 10)%N) eqn:En.
  - intros [= <- <- <- <-]. exists []. cbn [List.concat app].
    split; [now rewrite newlines|]. split; [constructor|].
    split; [reflexivity|]. split; [reflexivity|].
    intros p -> _. cbn. lia.
  - intros H. destruct (IH _ _ H) as (ws & Ho & Hw & Hl & Ha & Hc).
    exists (writes ch ls ++ ws). split; [|split; [|split; [|split]]].
    + rewrite Ho, length_map, concat_app. unfold writes.
      rewrite concat_truthy. now rewrite <- !app_assoc.
    + apply Forall_app. split; [apply writes_hidden | exact Hw].
    + now rewrite Hl, length_map.
    + exact Ha.
    + intros p -> Hs. cbn [map] in Hc.
      specialize (Hc _ eq_refl (fun x Hx => Hs x (or_intror Hx))).
      rewrite !count_app. unfold writes. cbn [map filter].
      revert Hc. unfold onKey.
      destruct ((first ch =? 127)%N || (first ch =? 8)%N).
      * destruct p as [|c p]; cbn [fst snd Js.truthy].
        -- change (count erase []) with 0%nat.
           change (count star []) with 0%nat. cbn [List.length]. lia.
        -- unfold JsText.dropLast. rewrite removelast_length.
           change (Js.truthy erase) with true. cbn iota.
           change (count erase [erase]) with 1%nat.
           change (count star [erase]) with 0%nat.
           cbn [List.length]. lia.
      * cbn [fst snd]. change (Js.truthy star) with true. cbn iota.
        rewrite length_app, (Hs ch (or_introl eq_refl)).
        change (count erase [star]) with 0%nat.
        change (count star [star]) with 1%nat. lia.
Qed.

(** The listeners that earlier prompts left change neither how a prompt
    ends nor the input it leaves. *)
Lemma listen_own (input : list Chunk) (stale : Listeners) (p out out0 : jsstring)
      (r : Prompted) (out' : jsstring) (rest : list Chunk) (ls' : Listeners) :
  listen (stale ++ [p]) out input = (r, out', rest, ls') ->
  exists out0' ls0, listen [p] out0 input = (r, out0', rest, ls0).
Proof.
  revert stale p out out0. induction input as [|ch more IH];
    intros stale p out out0; cbn [listen].
  - intros [= <- <- <- <-]. eauto.
  - destruct ((first ch =? 3)%N || (first ch =? 4)%N).
    + intros [= <- <- <- <-]. eauto.
    + destruct ((first ch =? 13)%N || (first ch =? 10)%N).
      * intros [= <- <- <- <-]. rewrite last_last. cbn [last]. eauto.
      * rewrite map_app. cbn [map]. apply IH.
Qed.

End CredentialFacts.

Import Credentials.

(** X5. When [APP_PASSWORD] holds a visible character, [getEmailPassword]
    returns it cleaned, whatever its length, and neither reads the keychain
    nor asks; it warns exactly when the length is not 16. The cleaned value
    has no white space: it is the value without its white space when the
    trimmed value does not start with a quote, and what stands between the
    quotes, without its white space, when quotes of one kind surround it;
    a value that is a single quote gives the empty password. *)
Theorem env_password_is_cleaned_and_wins
        (h : Host) (account : jsstring) (uk : bool) (v : jsstring) :
  appPassword h = Some v ->
  existsb notSpace v = true ->
  getEmailPassword h account uk
  = mkResolution (Password (cleanEnvPassword v))
                 (negb (List.length (cleanEnvPassword v) =? 16)%nat) []
  /\ (forall c, In c (cleanEnvPassword v) -> Regex.isSpace c = false)
  /\ (forall c t, JsText.trim v = c :: t -> c <> 34%N -> c <> 39%N ->
                  cleanEnvPassword v = filter notSpace v)
  /\ (forall q inner, q = 34%N \/ q = 39%N ->
                      JsText.trim v = q :: inner ++ [q] ->
                      cleanEnvPassword v = filter notSpace inner)
  /\ (forall q, q = 34%N \/ q = 39%N -> JsText.trim v = [q] ->
                cleanEnvPassword v = []).
Proof.
  intros Hv Hvis. destruct (CredentialFacts.visible_truthy v Hvis) as [H1 H2].
  split; [|split; [|split; [|split]]].
  - unfold getEmailPassword. now rewrite Hv, H1, H2.
  - intros c. unfold cleanEnvPassword. apply ReplaceFacts.removeSpaces_clean.
  - intros c t Ht H34 H39. unfold cleanEnvPassword. rewrite Ht.
    unfold JsText.startsWith at 1 2. cbn [Js.stripPrefix].
    destruct (N.eqb_spec 34 c) as [E|_]; [now elim H34|].
    destruct (N.eqb_spec 39 c) as [E|_]; [now elim H39|].
    cbn [andb orb]. rewrite <- Ht, ReplaceFacts.removeSpaces_trim.
    apply ReplaceFacts.removeSpaces_filter.
  - intros q inner Hq Ht. unfold cleanEnvPassword. rewrite Ht.
    assert (Hs : JsText.slice1 (q :: inner ++ [q]) = inner)
      by (unfold JsText.slice1; cbn [tl]; apply removelast_last).
    assert (He : JsText.endsWith (q :: inner ++ [q]) [q] = true).
    { unfold JsText.endsWith, JsText.startsWith.
      cbn [rev]. rewrite rev_app_distr. cbn [rev app Js.stripPrefix].
      now rewrite N.eqb_refl. }
    assert (Hst : JsText.startsWith (q :: inner ++ [q]) [q] = true).
    { unfold JsText.startsWith. cbn [Js.stripPrefix]. now rewrite N.eqb_refl. }
    assert (Hq' : (JsText.startsWith (q :: inner ++ [q]) [34%N]
                   && JsText.endsWith (q :: inner ++ [q]) [34%N])
                  || (JsText.startsWith (q :: inner ++ [q]) [39%N]
                      && JsText.endsWith (q :: inner ++ [q]) [39%N]) = true).
    { destruct Hq as [E | E]; rewrite <- E, Hst, He;
        [reflexivity | apply orb_true_r]. }
    rewrite Hq', Hs, ReplaceFacts.removeSpaces_trim.
    apply ReplaceFacts.removeSpaces_filter.
  - intros q Hq Ht. unfold cleanEnvPassword. rewrite Ht.
    destruct Hq as [-> | ->]; reflexivity.
Qed.

Lemma env_password_is_cleaned_and_wins_witness :
  getEmailPassword
    (mkHost (Some (Js.lit " 'abcd efgh ijkl mnop' ")) None true
            (fun _ _ => mkSecurity (Some 0) (Js.lit "zzzz"))
            (fun _ _ _ => Some 0) [])
    (Js.lit "user@gmail.com") true
  = mkResolution (Password (Js.lit "abcdefghijklmnop")) false [].
Proof.
  exact (proj1 (env_password_is_cleaned_and_wins
                  (mkHost (Some (Js.lit " 'abcd efgh ijkl mnop' ")) None true
                          (fun _ _ => mkSecurity (Some 0) (Js.lit "zzzz"))
                          (fun _ _ _ => Some 0) [])
                  (Js.lit "user@gmail.com") true
                  (Js.lit " 'abcd efgh ijkl mnop' ") eq_refl eq_refl)).
Defined.

(** X6. When [APP_PASSWORD] is unset or blank, on macOS and with the
    keychain in use, a lookup that ends with code 0 and a visible output
    gives the password: the output without its white space. The keychain
    is read once, nothing is asked and nothing is stored. *)
Theorem keychain_password_is_used_when_env_is_blank
        (h : Host) (account : jsstring) :
  noEnvPassword h ->
  darwin h = true ->
  exitCode (findPassword h service account) = Some 0 ->
  existsb notSpace (stdout (findPassword h service account)) = true ->
  getEmailPassword h account true
  = mkResolution
      (Password (filter notSpace (stdout (findPassword h service account))))
      (negb (List.length
               (filter notSpace (stdout (findPassword h service account)))
             =? 16)%nat)
      [FindPassword service account].
Proof.
  intros He Hd Hc Hv. unfold getEmailPassword.
  rewrite (CredentialFacts.noEnvPassword_skips h He), Hd. cbn [andb].
  unfold getFromKeychain. rewrite Hd, Hc.
  destruct (CredentialFacts.visible_truthy _ Hv) as [_ Ht].
  rewrite Ht. cbn [isZero Z.eqb andb].
  rewrite Ht. unfold JsText.trim at 1 2.
  rewrite <- ReplaceFacts.removeSpaces_filter.
  change (JsText.trimEnd (JsText.trimStart
            (JsText.trimEnd (JsText.trimStart
               (stdout (findPassword h service account))))))
    with (JsText.trim (JsText.trim (stdout (findPassword h service account)))).
  now rewrite !ReplaceFacts.removeSpaces_trim.
Qed.

Lemma keychain_password_is_used_when_env_is_blank_witness :
  getEmailPassword
    (mkHost (Some (Js.lit "  ")) None true
            (fun _ _ => mkSecurity (Some 0) (Js.lit "abcd efgh ijkl mnop") )
            (fun _ _ _ => Some 0) [])
    (Js.lit "user@gmail.com") true
  = mkResolution (Password (Js.lit "abcdefghijklmnop")) false
                 [FindPassword service (Js.lit "user@gmail.com")].
Proof.
  apply (keychain_password_is_used_when_env_is_blank
           (mkHost (Some (Js.lit "  ")) None true
                   (fun _ _ => mkSecurity (Some 0) (Js.lit "abcd efgh ijkl mnop"))
                   (fun _ _ _ => Some 0) [])
           (Js.lit "user@gmail.com")).
  - right. exists (Js.lit "  "). split; reflexivity.
  - reflexivity.
  - reflexivity.
  - reflexivity.
Defined.

(** X7. Off macOS, or with the keychain not in use, [getEmailPassword]
    neither reads nor writes the keychain, whatever the environment holds
    and whatever is typed: all it does outside the program is to ask. *)
Theorem keychain_is_untouched_when_not_in_use
        (h : Host) (account : jsstring) (uk : bool) :
  uk = false \/ darwin h = false ->
  Forall isAsk (effects (getEmailPassword h account uk)).
Proof.
  intros Hk. unfold getEmailPassword.
  assert (E : uk && darwin h = false)
    by (destruct Hk as [-> | ->]; [reflexivity | apply andb_false_r]).
  rewrite E.
  destruct (match appPassword h with
            | Some v => if Js.truthy v && Js.truthy (JsText.trim v)
                        then Some v else None
            | None => None
            end); [constructor|].
  now apply CredentialFacts.askPassword_asks.
Qed.

Lemma keychain_is_untouched_when_not_in_use_witness :
  Forall isAsk
         (effects
            (getEmailPassword
               (mkHost None None false
                       (fun _ _ => mkSecurity (Some 0) (Js.lit "abcdefghijklmnop"))
                       (fun _ _ _ => Some 0)
                       [mkChunk 97 (Js.lit "a"); mkChunk 13 [13%N]])
               (Js.lit "user@gmail.com") true)).
Proof.
  apply keychain_is_untouched_when_not_in_use. right. reflexivity.
Defined.

(** X8. When neither the environment nor the keychain gives a password, the
    one typed is returned as it was typed, with its white space and
    whatever its length, without a warning. On macOS with the keychain in
    use a second question follows, and the password is stored exactly when
    its answer is "y" or "Y"; the password returned does not depend on that
    answer nor on the storing. *)
Theorem typed_password_is_returned_as_typed
        (h : Host) (account : jsstring) (uk : bool)
        (typed out : jsstring) (rest : list Chunk) (ls : Listeners) :
  noEnvPassword h ->
  (uk && darwin h = true ->
   isZero (exitCode (findPassword h service account))
   && Js.truthy (JsText.trim (stdout (findPassword h service account))) = false) ->
  promptPassword [] (enterPrompt account) (keys h)
  = (Entered typed, out, rest, ls) ->
  (uk && darwin h = false ->
   getEmailPassword h account uk
   = mkResolution (Password typed) false [Ask (enterPrompt account)])
  /\ (forall store out2 rest2 ls2,
         uk && darwin h = true ->
         promptPassword ls storePrompt rest = (Entered store, out2, rest2, ls2) ->
         getEmailPassword h account uk
         = mkResolution
             (Password typed) false
             ([FindPassword service account; Ask (enterPrompt account);
               Ask storePrompt]
                ++ if isYes store then [AddPassword service account typed] else [])
         /\ (isYes store = true <-> store = Js.lit "y" \/ store = Js.lit "Y")).
Proof.
  intros He Hk Hp. unfold getEmailPassword.
  rewrite (CredentialFacts.noEnvPassword_skips h He). split.
  - intros E. rewrite E. unfold askPassword. now rewrite Hp, E.
  - intros store out2 rest2 ls2 E Hs. rewrite E. specialize (Hk E).
    apply andb_true_iff in E as [-> Hd].
    unfold askPassword, getFromKeychain, storeInKeychain.
    rewrite Hd, Hk, Hp, Hs. cbn [andb app snd].
    split.
    + destruct (isYes store); reflexivity.
    + unfold isYes. rewrite orb_true_iff, !TextFacts.eqb_eq. tauto.
Qed.

Lemma typed_password_is_returned_as_typed_witness :
  getEmailPassword
    (mkHost None None true
            (fun _ _ => mkSecurity (Some 44) [])
            (fun _ _ _ => Some 0)
            [mkChunk 97 (Js.lit "a"); mkChunk 32 (Js.lit " ");
             mkChunk 98 (Js.lit "b"); mkChunk 13 [13%N];
             mkChunk 89 (Js.lit "Y"); mkChunk 13 [13%N]])
    (Js.lit "user@gmail.com") true
  = mkResolution
      (Password (Js.lit "a b")) false
      [FindPassword service (Js.lit "user@gmail.com");
       Ask (enterPrompt (Js.lit "user@gmail.com")); Ask storePrompt;
       AddPassword service (Js.lit "user@gmail.com") (Js.lit "a b")].
Proof.
  refine (proj1 (proj2 (typed_password_is_returned_as_typed
                 (mkHost None None true
                         (fun _ _ => mkSecurity (Some 44) [])
                         (fun _ _ _ => Some 0)
                         [mkChunk 97 (Js.lit "a"); mkChunk 32 (Js.lit " ");
                          mkChunk 98 (Js.lit "b"); mkChunk 13 [13%N];
                          mkChunk 89 (Js.lit "Y"); mkChunk 13 [13%N]])
                 (Js.lit "user@gmail.com") true (Js.lit "a b") _ _ _
                 (or_introl eq_refl) (fun _ => eq_refl) eq_refl)
                (Js.lit "Y") _ _ _ eq_refl eq_refl)).
Defined.

(** X9. [promptPassword] leaves its listener on the input, so in a prompt
    that follows [k] others every key is echoed by [k + 1] listeners. Until
    Enter is pressed they write after the message only stars and erasures,
    and then [k + 1] new lines: never what was typed. In a first prompt,
    when every chunk of input holds one character, the stars written less
    the erasures are as many as the characters of the answer. The answer
    and the input left are those of a prompt that follows no other. What
    the [readline] interface writes of its own accord is not part of
    this. *)
Theorem prompt_echo_hides_the_input
        (stale : Listeners) (message : jsstring) (input : list Chunk)
        (typed out : jsstring) (rest : list Chunk) (ls : Listeners) :
  promptPassword stale message input = (Entered typed, out, rest, ls) ->
  (exists ws,
      out = message ++ List.concat ws
                    ++ List.concat (repeat newline (S (List.length stale)))
      /\ Forall (fun w => w = star \/ w = erase) ws
      /\ (stale = [] ->
          (forall ch, In ch input -> List.length (text ch) = 1%nat) ->
          (List.length typed + count erase ws = count star ws)%nat))
  /\ List.length ls = S (List.length stale)
  /\ last ls [] = typed
  /\ exists out0 ls0,
      promptPassword [] message input = (Entered typed, out0, rest, ls0).
Proof.
  unfold promptPassword. intros H.
  destruct (CredentialFacts.listen_echo _ _ _ _ _ _ _ H)
    as (ws & Ho & Hw & Hl & Ha & Hc).
  rewrite length_app in Ho, Hl. cbn [List.length] in Ho, Hl.
  rewrite Nat.add_1_r in Ho, Hl.
  split; [|split; [exact Hl | split; [exact Ha|]]].
  - exists ws. split; [exact Ho|]. split; [exact Hw|].
    intros -> Hs. exact (Hc [] eq_refl Hs).
  - exact (CredentialFacts.listen_own _ _ _ _ message _ _ _ _ H).
Qed.

Lemma prompt_echo_hides_the_input_witness :
  promptPassword [Js.lit "ab"] storePrompt
                 [mkChunk 121 (Js.lit "y"); mkChunk 13 [13%N]]
  = (Entered (Js.lit "y"),
     storePrompt ++ star ++ star ++ newline ++ newline, [],
     [Js.lit "aby"; Js.lit "y"])
  /\ exists ws,
      storePrompt ++ star ++ star ++ newline ++ newline
      = storePrompt ++ List.concat ws ++ List.concat (repeat newline 2)
      /\ Forall (fun w => w = star \/ w = erase) ws.
Proof.
  split; [reflexivity|].
  destruct (prompt_echo_hides_the_input
              [Js.lit "ab"] storePrompt
              [mkChunk 121 (Js.lit "y"); mkChunk 13 [13%N]]
              (Js.lit "y")
              (storePrompt ++ star ++ star ++ newline ++ newline) []
              [Js.lit "aby"; Js.lit "y"] eq_refl)
    as ((ws & Ho & Hw & _) & _).
  exists ws. split; assumption.
Defined.

(** X10. [verify-app-password] exits with code 0 exactly when an address is
    given by [EMAIL] or else by the first argument, the lookup in the
    keychain for it ends with code 0, and its output has 16 characters
    that are not white space; otherwise it exits with code 1. *)
Theorem verify_accepts_sixteen_characters (h : Host) (argv2 : option jsstring) :
  (Verify.main h argv2 = 0 \/ Verify.main h argv2 = 1)
  /\ (Verify.main h argv2 = 0
      <-> Js.orElse (emailVar h) (Js.orElse argv2 []) <> []
          /\ exitCode (findPassword h service
                                    (Js.orElse (emailVar h) (Js.orElse argv2 [])))
             = Some 0
          /\ List.length
               (filter notSpace
                       (stdout (findPassword h service
                                  (Js.orElse (emailVar h) (Js.orElse argv2 [])))))
             = 16%nat).
Proof.
  unfold Verify.main, Verify.getFromKeychain.
  set (email := Js.orElse (emailVar h) (Js.orElse argv2 [])).
  set (r := findPassword h service email).
  assert (Hlen : List.length (JsText.removeSpaces (JsText.trim (stdout r)))
                 = List.length (filter notSpace (stdout r)))
    by now rewrite ReplaceFacts.removeSpaces_trim, ReplaceFacts.removeSpaces_filter.
  destruct email as [|c t] eqn:Ee; cbn [Js.truthy negb].
  - split; [now right|]. split; [discriminate | intros [H _]; now elim H].
  - destruct (exitCode r) as [code|] eqn:Ec; cbn [isZero].
    + destruct (Z.eqb_spec code 0) as [-> | Hne]; cbn [andb].
      * destruct (Js.truthy (JsText.trim (stdout r))) eqn:Et.
        -- rewrite Et, Hlen.
           destruct (Nat.eqb_spec (List.length (filter notSpace (stdout r))) 16).
           ++ split; [now left|]. split; [|reflexivity].
              intros _. repeat split; [discriminate | assumption].
           ++ split; [now right|]. split; [discriminate|]. intros (_ & _ & H).
              contradiction.
        -- split; [now right|]. split; [discriminate|]. intros (_ & _ & H).
           rewrite <- Hlen in H.
           destruct (JsText.trim (stdout r)); [discriminate H | discriminate Et].
      * split; [now right|]. split; [discriminate|]. intros (_ & H & _).
        congruence.
    + split; [now right|]. split; [discriminate|]. intros (_ & H & _).
      discriminate.
Qed.

(** X11. In the earlier [main] the test for the template address changes
    nothing: [getEmail] reads [EMAIL] again, so the address is the one of
    [EMAIL] whenever that is set and not empty, the template included, and
    it is asked for only when [EMAIL] is unset or empty. *)
Theorem template_address_is_not_replaced (h : Host) (typed : jsstring) :
  OldLauncher.chooseEmail h typed = getEmail h typed
  /\ (forall e, emailVar h = Some e -> e <> [] ->
                OldLauncher.chooseEmail h typed = (e, false))
  /\ (emailVar h = None \/ emailVar h = Some [] ->
      OldLauncher.chooseEmail h typed = (JsText.trim typed, true)).
Proof.
  assert (E : OldLauncher.chooseEmail h typed = getEmail h typed).
  { unfold OldLauncher.chooseEmail, getEmail.
    destruct (emailVar h) as [e|]; [|reflexivity].
    destruct (JsText.eqb e OldLauncher.template); [reflexivity|].
    now destruct (Js.truthy e). }
  split; [exact E|]. rewrite E. unfold getEmail. split.
  - intros e -> Hne. destruct e; [now elim Hne | reflexivity].
  - intros [-> | ->]; reflexivity.
Qed.

(** X12. With [USE_KEYCHAIN] set to "false" the earlier [main] gets its
    password without reading or writing the keychain, on any machine and
    whatever is typed. *)
Theorem USE_KEYCHAIN_false_keeps_off_the_keychain
        (env : Env.t) (h : Host) (typed : jsstring) :
  Env.get (Js.lit "USE_KEYCHAIN") env = Some (Js.lit "false") ->
  Forall isAsk (effects (snd (OldLauncher.credentials env h typed))).
Proof.
  intros H. unfold OldLauncher.credentials. cbn [snd].
  unfold getEmailPassword.
  assert (E : OldLauncher.useKeychain env = false)
    by (unfold OldLauncher.useKeychain; now rewrite H).
  rewrite E. cbn [andb].
  destruct (match appPassword _ with
            | Some v => if Js.truthy v && Js.truthy (JsText.trim v)
                        then Some v else None
            | None => None
            end); [constructor|].
  apply CredentialFacts.askPassword_asks; [now left | constructor].
Qed.

Lemma USE_KEYCHAIN_false_keeps_off_the_keychain_witness :
  Forall isAsk
         (effects
            (snd (OldLauncher.credentials
                    [(Js.lit "USE_KEYCHAIN", Js.lit "false");
                     (Js.lit "EMAIL", Js.lit "user@gmail.com")]
                    (mkHost None None true
                            (fun _ _ => mkSecurity (Some 0) (Js.lit "abcdefghijklmnop"))
                            (fun _ _ _ => Some 0)
                            [mkChunk 97 (Js.lit "a"); mkChunk 13 [13%N]])
                    []))).
Proof.
  apply USE_KEYCHAIN_false_keeps_off_the_keychain. reflexivity.
Defined.

(* ================================================================== *)
(** ** More properties of the browser driver *)

Module WebMoreFacts.
Import Web.

(** The selector found is the first one of the list that matches. *)
Lemma findInput_first (pg : Page) (sels : list jsstring) (found : jsstring) :
  findInput pg sels = Some found ->
  exists l1 l2,
    sels = l1 ++ found :: l2
    /\ waitForSelector pg found = true
    /\ forall x, In x l1 -> waitForSelector pg x = false.
Proof.
  induction sels as [|sel rest IH]; cbn [findInput]; [discriminate|].
  destruct (waitForSelector pg sel) eqn:E.
  - intros [= <-]. exists [], rest. repeat split; [assumption | intros x []].
  - intros H. destruct (IH H) as (l1 & l2 & -> & Hf & Hl).
    exists (sel :: l1), l2. repeat split; [assumption|].
    intros x [<-|Hx]; [assumption | now apply Hl].
Qed.

Lemma clickSubmit_first (pg : Page) (sels : list jsstring) (sel : jsstring) :
  clickSubmit pg sels = Some sel ->
  In sel sels /\ query pg sel = true /\ click pg sel = true.
Proof.
  induction sels as [|s rest IH]; cbn [clickSubmit]; [discriminate|].
  destruct (query pg s && click pg s) eqn:E.
  - intros [= <-]. apply andb_true_iff in E as [Hq Hc].
    repeat split; [now left | assumption | assumption].
  - intros H. destruct (IH H) as (Hi & Hq & Hc). repeat split; [now right | |]; assumption.
Qed.

Lemma clickSubmit_none (pg : Page) (sels : list jsstring) :
  clickSubmit pg sels = None ->
  forall s, In s sels -> query pg s && click pg s = false.
Proof.
  induction sels as [|s rest IH]; cbn [clickSubmit]; [intros _ x []|].
  destruct (query pg s && click pg s) eqn:E; [discriminate|].
  intros H x [<-|Hx]; [assumption | now apply IH].
Qed.

End WebMoreFacts.

Import Web WebMore.

(** X13. [enterCode] never leaves a promise unsettled. When it resolves, it
    has typed the code into the first code selector that matched and
    submitted once: by a click on a submit button that was found and could
    be clicked, or else, none being so, by Enter in that same field. When
    it fails, it has done nothing to the page, or has only typed the code
    and failed to press Enter, or has submitted and failed in the pause
    that follows. When no code selector matches it fails having done
    nothing, with the error of listing the inputs if that fails, else with
    the not-found error. *)
Theorem enterCode_types_in_the_matched_field
        (pg : Page) (listing pause : option jsstring) (code : jsstring)
        (r : Promise unit) (acts : list Action) :
  enterCode (Some pg) listing pause code = (r, acts) ->
  match r with
  | Resolved _ =>
      pause = None
      /\ exists l1 found l2,
          codeSelectors = l1 ++ found :: l2
          /\ waitForSelector pg found = true
          /\ (forall x, In x l1 -> waitForSelector pg x = false)
          /\ ((exists sel, acts = [Fill found code; Click sel]
                           /\ In sel codeSubmitSelectors
                           /\ query pg sel = true /\ click pg sel = true)
              \/ (acts = [Fill found code; PressEnter found]
                  /\ forall s, In s codeSubmitSelectors ->
                               query pg s && click pg s = false))
  | Rejected e =>
      (acts = []
       \/ (exists found, acts = [Fill found code])
       \/ (exists message found submit,
              pause = Some message /\ e = Thrown message
              /\ acts = [Fill found code; submit]))
      /\ ((forall sel, In sel codeSelectors -> waitForSelector pg sel = false) ->
          acts = [] /\ e = notFound listing)
  | Pending => False
  end.
Proof.
  unfold enterCode.
  destruct (findInput pg codeSelectors) as [found|] eqn:Ef.
  - destruct (WebMoreFacts.findInput_first pg _ _ Ef) as (l1 & l2 & Hs & Hw & Hl).
    assert (Hno : ~ (forall sel, In sel codeSelectors ->
                                 waitForSelector pg sel = false)).
    { intros H. rewrite (H found) in Hw; [discriminate|].
      rewrite Hs. apply in_or_app. right. now left. }
    destruct (Js.truthy found); cbn [negb].
    + destruct (fill pg found code) as [m|].
      * intros [= <- <-]. split; [now left | intros H; now elim Hno].
      * destruct (clickSubmit pg codeSubmitSelectors) as [sel|] eqn:Ec.
        -- destruct pause as [m|]; cbn [afterPause]; intros [= <- <-].
           ++ split; [|intros H; now elim Hno].
              right. right. exists m, found, (Click sel). now repeat split.
           ++ split; [reflexivity|]. exists l1, found, l2.
              destruct (WebMoreFacts.clickSubmit_first pg _ _ Ec)
                as (Hi & Hq & Hc).
              repeat split; try assumption. left. exists sel. now repeat split.
        -- destruct (press pg found) as [m|].
           ++ intros [= <- <-]. split; [right; left; now exists found|].
              intros H; now elim Hno.
           ++ destruct pause as [m|]; cbn [afterPause]; intros [= <- <-].
              ** split; [|intros H; now elim Hno].
                 right. right. exists m, found, (PressEnter found).
                 now repeat split.
              ** split; [reflexivity|]. exists l1, found, l2.
                 repeat split; try assumption. right. split; [reflexivity|].
                 now apply WebMoreFacts.clickSubmit_none.
    + intros [= <- <-]. split; [now left | intros H; now elim Hno].
  - intros [= <- <-]. split; [now left | intros _; now split].
Qed.

Lemma enterCode_types_in_the_matched_field_witness :
  exists found sel,
    enterCode (Some Scenario.loginForm) None None (Js.lit "147826")
    = (Resolved tt, [Fill found (Js.lit "147826"); Click sel]).
Proof.
  pose proof (enterCode_types_in_the_matched_field
                Scenario.loginForm None None (Js.lit "147826")
                (Resolved tt)
                [Fill (nth 0 codeSelectors []) (Js.lit "147826");
                 Click (nth 0 codeSubmitSelectors [])]
                eq_refl) as H.
  cbn beta iota in H. destruct H as (_ & l1 & found & l2 & _).
  exists (nth 0 codeSelectors []), (nth 0 codeSubmitSelectors []).
  reflexivity.
Defined.

(** X14. On a page that [init] has set, [waitForLoginSuccess] does not
    tell a login that it cannot confirm from one that it can: it resolves
    when the first indicator that shows is found, when none shows and the
    url holds neither "/login" nor "/signin", and also when none shows and
    the url still holds one of them. It fails only when no indicator shows
    and the pause before the url is read fails. *)
Theorem waitForLoginSuccess_resolves_unconfirmed
        (pg : Page) (pause : option jsstring) (indicators : list jsstring) :
  match waitForLoginSuccess (Some pg) pause indicators with
  | Resolved (Indicated sel) =>
      exists l1 l2,
        indicators = l1 ++ sel :: l2
        /\ waitForSelector pg sel = true
        /\ forall x, In x l1 -> waitForSelector pg x = false
  | Resolved UrlChanged =>
      findInput pg indicators = None /\ pause = None
      /\ ~ contains (url pg) "/login" /\ ~ contains (url pg) "/signin"
  | Resolved Unconfirmed =>
      findInput pg indicators = None /\ pause = None
      /\ (contains (url pg) "/login" \/ contains (url pg) "/signin")
  | Rejected e =>
      findInput pg indicators = None
      /\ exists message, pause = Some message /\ e = Thrown message
  | Pending => False
  end
  /\ ((forall sel, In sel indicators -> waitForSelector pg sel = false) ->
      pause = None ->
      exists v, waitForLoginSuccess (Some pg) pause indicators = Resolved v
                /\ (v = UrlChanged \/ v = Unconfirmed)).
Proof.
  split.
  - unfold waitForLoginSuccess.
    destruct (findInput pg indicators) as [sel|] eqn:Ef.
    + now apply WebMoreFacts.findInput_first.
    + destruct pause as [m|]; [split; [reflexivity | now exists m]|].
      destruct (Js.includes (url pg) (Js.lit "/login")) eqn:E1;
        destruct (Js.includes (url pg) (Js.lit "/signin")) eqn:E2;
        cbn [negb andb]; (split; [reflexivity|]); (split; [reflexivity|]).
      * left. now apply TextFacts.includes_iff.
      * left. now apply TextFacts.includes_iff.
      * right. now apply TextFacts.includes_iff.
      * split; intros H; apply TextFacts.includes_iff in H; congruence.
  - intros Hn ->. unfold waitForLoginSuccess.
    rewrite (WebFacts.findInput_none pg _ Hn).
    destruct (negb _ && negb _); eexists; split; try reflexivity; auto.
Qed.

(* ================================================================== *)
(** ** More properties of the monitor *)

Module CycleMoreFacts.
Import Monitor Spec CycleFacts.

(** The closing block does nothing once the cycle is resolved. *)
Lemma finish_resolved (st : Cycle) : resolved st = true -> finish st = st.
Proof.
  intros H. unfold finish. now rewrite H, andb_false_r.
Qed.

Lemma onEvent_resolved (since : option Z) (st : Cycle) (e : FetchEvent) :
  resolved st = true ->
  resolved (onEvent since st e) = true
  /\ promise (onEvent since st e) = promise st
  /\ seen (onEvent since st e) = seen st.
Proof.
  intros H. destruct e as [m|message]; cbn [onEvent].
  - rewrite onBody_spec, finish_resolved;
      destruct (candidate since m); cbn; auto.
  - unfold onFetchError. rewrite H. auto.
Qed.

Lemma fold_resolved (since : option Z) (es : list FetchEvent) (st : Cycle) :
  resolved st = true ->
  promise (fold_left (onEvent since) es st) = promise st
  /\ seen (fold_left (onEvent since) es st) = seen st.
Proof.
  revert st. induction es as [|e es IH]; intros st H; [now split|].
  cbn [fold_left]. destruct (onEvent_resolved since st e H) as (Hr & Hp & Hs).
  destruct (IH _ Hr) as [-> ->]. now split.
Qed.

(** Messages that yield no candidate leave the list empty. *)
Lemma candidates_none (since : option Z) (ms : list FetchedMessage) :
  (forall m, In m ms -> candidate since m = None) ->
  candidates since ms = [].
Proof.
  induction ms as [|m t IH]; intros H; [reflexivity|].
  cbn [candidates]. rewrite (H m) by now left.
  apply IH. intros x Hx. apply H. now right.
Qed.

(** A cycle rejects with what the server said, never with an error of the
    monitor's own. *)
Lemma finish_thrown (st : Cycle) :
  (forall e, promise st = Rejected e -> exists message, e = Thrown message) ->
  forall e, promise (finish st) = Rejected e -> exists message, e = Thrown message.
Proof.
  intros H err. unfold finish.
  destruct ((pendingCount st =? 0) && negb (resolved st)); [|apply H].
  destruct (sort (validEmails st)); cbn [promise];
    destruct (promise st) as [r0|e0|] eqn:E; cbn [settle];
    try discriminate; apply H.
Qed.

Lemma onEvent_thrown (since : option Z) (st : Cycle) (ev : FetchEvent) :
  (forall e, promise st = Rejected e -> exists message, e = Thrown message) ->
  forall e, promise (onEvent since st ev) = Rejected e ->
            exists message, e = Thrown message.
Proof.
  intros H. destruct ev as [m|message]; cbn [onEvent].
  - rewrite onBody_spec. apply finish_thrown.
    destruct (candidate since m); cbn [countDown push promise]; exact H.
  - unfold onFetchError. destruct (resolved st); [exact H|].
    cbn [promise]. destruct (promise st) as [r0|e0|] eqn:E; cbn [settle];
      intros err.
    + discriminate.
    + apply H.
    + intros [= <-]. now exists message.
Qed.

Lemma findCode_thrown (since : option Z) (search : SearchResult)
      (es : list FetchEvent) (e : Error) :
  promise (findCode since search es) = Rejected e ->
  exists message, e = Thrown message.
Proof.
  assert (G : forall st,
             (forall e, promise st = Rejected e -> exists message, e = Thrown message) ->
             forall e, promise (fold_left (onEvent since) es st) = Rejected e ->
                       exists message, e = Thrown message).
  { induction es as [|ev es IH]; intros st H; [exact H|].
    cbn [fold_left]. apply IH. now apply onEvent_thrown. }
  destruct search as [message|[[|u uids]|]]; cbn [findCode ended promise].
  - intros [= <-]. now exists message.
  - discriminate.
  - revert e. apply G. cbn. discriminate.
  - discriminate.
Qed.

End CycleMoreFacts.

Module WaitMoreFacts.
Import Monitor Spec CycleFacts WaitFacts CycleMoreFacts.

Section Loop.
Variable box : Mailbox.
Variable from : jsstring.
Variable maxWaitTime : Z.
Variable since : option Z.

(** A cycle that never settles leaves [waitForCode] unsettled. *)
Lemma waitForCode_cycle_pending (connected : bool) (k : nat) :
  snd (connect connected (connectAnswer box)) = Resolved tt ->
  reaches box from maxWaitTime since k ->
  openInbox (polls box k) = None ->
  promise (findCode since (search (polls box k) from) (events (polls box k)))
  = Pending ->
  waitForCode connected box from maxWaitTime since
  = Some (mkWait Pending (endOf box k) (S k) []).
Proof.
  intros Hc Hr Ho Hp.
  destruct (@waitForCode_reach box from maxWaitTime since connected k Hc Hr)
    as [fuel ->].
  cbn [checkEmail]. destruct Hr as [Ht _].
  destruct (Z.gtb_spec (startOf box k) maxWaitTime); [lia|].
  pose proof (findCode_flags since (search (polls box k) from)
                             (events (polls box k))) as F.
  rewrite Hp in F. now rewrite Ho, Hp, F.
Qed.

(** The polls started, the time at which the loop gives up, and where the
    timeout error comes from. *)
Lemma checkEmail_bounds (fuel i : nat) (now : Z) (marked : list N) (w : Wait) :
  pollInterval * Z.of_nat i <= now ->
  (i = 0%nat \/ pollInterval * (Z.of_nat i - 1) <= maxWaitTime) ->
  checkEmail fuel box from maxWaitTime since i now marked = Some w ->
  (cycles w = 0%nat \/ pollInterval * (Z.of_nat (cycles w) - 1) <= maxWaitTime)
  /\ (outcome w = Rejected TimeoutWaitingForEmail -> maxWaitTime < elapsed w)
  /\ (forall c, outcome w = Resolved c -> Js.truthy c = true).
Proof.
  revert i now marked.
  induction fuel as [|f IH]; intros i now marked Hn Hi; [discriminate|].
  cbn [checkEmail]. destruct (Z.gtb_spec now maxWaitTime) as [Hgt|Hle].
  - intros [= <-]. cbn [cycles outcome elapsed].
    split; [exact Hi|]. split; [intros _; lia | discriminate].
  - assert (Hs : S i = 0%nat \/ pollInterval * (Z.of_nat (S i) - 1) <= maxWaitTime)
      by (right; unfold pollInterval in *; lia).
    assert (R : forall l,
               checkEmail f box from maxWaitTime since (S i)
                 (now + Z.of_N (duration (polls box i)) + pollInterval) l
               = Some w ->
               (cycles w = 0%nat
                \/ pollInterval * (Z.of_nat (cycles w) - 1) <= maxWaitTime)
               /\ (outcome w = Rejected TimeoutWaitingForEmail ->
                   maxWaitTime < elapsed w)
               /\ (forall c, outcome w = Resolved c -> Js.truthy c = true)).
    { intros l. apply IH; [unfold pollInterval in *; lia | exact Hs]. }
    destruct (openInbox (polls box i)) as [message|].
    + intros [= <-]. cbn [cycles outcome elapsed].
      split; [exact Hs|]. split; discriminate.
    + destruct (promise (findCode since (search (polls box i) from)
                                  (events (polls box i))))
        as [[c|]|e|] eqn:Ep.
      * destruct (Js.truthy c) eqn:Et; [|apply R].
        intros [= <-]. cbn [cycles outcome elapsed].
        split; [exact Hs|]. split; [discriminate|]. now intros c' [= <-].
      * apply R.
      * intros [= <-]. cbn [cycles outcome elapsed].
        split; [exact Hs|]. split; [|discriminate].
        intros [= ->]. apply findCode_thrown in Ep as [message Hm]. discriminate.
      * intros [= <-]. cbn [cycles outcome elapsed].
        split; [exact Hs|]. split; discriminate.
Qed.

(** When no poll finds a code the loop ends with the timeout error. *)
Lemma checkEmail_all_quiet (fuel i : nat) (now : Z) (marked : list N) (w : Wait) :
  (forall j, quiet from since (polls box j)) ->
  checkEmail fuel box from maxWaitTime since i now marked = Some w ->
  outcome w = Rejected TimeoutWaitingForEmail /\ flagged w = marked.
Proof.
  intros Hq. revert i now marked.
  induction fuel as [|f IH]; intros i now marked; [discriminate|].
  destruct (Z.gtb_spec now maxWaitTime) as [Hgt|Hle].
  - cbn [checkEmail]. destruct (Z.gtb_spec now maxWaitTime); [|lia].
    intros [= <-]. now split.
  - rewrite (@checkEmail_quiet box from maxWaitTime since f i now marked Hle (Hq i)).
    apply IH.
Qed.

End Loop.

End WaitMoreFacts.

Import Monitor Spec.

(** X15. The time limit is looked at only when a poll starts. In a poll
    whose fetch delivers fewer bodies than the search found messages, and
    no error, nothing settles the promise of [findCode]: [waitForCode]
    stays unsettled from that poll on, whatever [maxWaitTime] is, and no
    message is flagged. *)
Theorem short_fetch_leaves_waitForCode_pending
        (box : Mailbox) (from : jsstring) (maxWaitTime : Z) (since : option Z)
        (connected : bool) (k : nat) (uids : list N) (ms : list FetchedMessage) :
  snd (connect connected (connectAnswer box)) = Resolved tt ->
  reaches box from maxWaitTime since k ->
  openInbox (polls box k) = None ->
  search (polls box k) from = SearchOk (Some uids) ->
  events (polls box k) = map Body ms ->
  (List.length ms < List.length uids)%nat ->
  waitForCode connected box from maxWaitTime since
  = Some (mkWait Pending (endOf box k) (S k) []).
Proof.
  intros Hc Hr Ho Hs He Hl.
  apply WaitMoreFacts.waitForCode_cycle_pending; try assumption.
  rewrite Hs, He. destruct uids as [|u uids]; [cbn in Hl; lia|].
  cbn [findCode]. rewrite CycleFacts.bodies_collect; [reflexivity..|].
  cbn [start pendingCount]. lia.
Qed.

Lemma short_fetch_leaves_waitForCode_pending_witness :
  waitForCode true
    (mkMailbox Ready
       (fun _ => mkPoll None (fun _ => SearchOk (Some [31%N; 32%N]))
                        [Body (Scenario.after5s 0)] 150))
    Scenario.sender 60000 None
  = Some (mkWait Pending 150 1 []).
Proof.
  apply (short_fetch_leaves_waitForCode_pending
           (mkMailbox Ready
              (fun _ => mkPoll None (fun _ => SearchOk (Some [31%N; 32%N]))
                               [Body (Scenario.after5s 0)] 150))
           Scenario.sender 60000 None true 0 [31%N; 32%N]
           [Scenario.after5s 0]).
  - reflexivity.
  - split; [cbn; lia | intros j Hj; lia].
  - reflexivity.
  - reflexivity.
  - reflexivity.
  - cbn. lia.
Defined.

(** X16. A message whose uid did not arrive or is 0, or whose [Date] header
    is missing, is never used, whatever code it holds: when the fetch
    delivers only such messages, one per search result, [findCode] resolves
    with no code and flags nothing. *)
Theorem messages_without_uid_or_date_are_ignored
        (since : option Z) (uids : list N) (ms : list FetchedMessage) :
  List.length uids = List.length ms ->
  (forall m, In m ms ->
             usableUid (attrUid m) = None
             \/ exists p, parsed m = Parsed p /\ Extract.date p = None) ->
  promise (findCode since (SearchOk (Some uids)) (map Body ms)) = Resolved None
  /\ seen (findCode since (SearchOk (Some uids)) (map Body ms)) = [].
Proof.
  intros Hl H.
  pose proof (CycleFacts.findCode_regular since uids ms Hl) as F.
  rewrite CycleMoreFacts.candidates_none in F.
  - cbn [sort settledWith] in F.
    split; [exact (f_equal fst F) | exact (f_equal snd F)].
  - intros m Hm. unfold candidate.
    destruct (H m Hm) as [->|(p & -> & Hd)]; [reflexivity|].
    destruct (usableUid (attrUid m)); [|reflexivity].
    rewrite Hd. destruct (isOld since None); [reflexivity|].
    now destruct (Extract.extractCode p).
Qed.

Lemma messages_without_uid_or_date_are_ignored_witness :
  promise (findCode None (SearchOk (Some [41%N; 42%N]))
             (map Body
                [mkMessage None
                   (Parsed (Extract.mkParsed
                              (Some (Js.lit "Expensify magic code: 147826"))
                              (Some 0) None None));
                 mkMessage (Some 42%N)
                   (Parsed (Extract.mkParsed
                              (Some (Js.lit "Expensify magic code: 147826"))
                              None None None))]))
  = Resolved None.
Proof.
  apply (messages_without_uid_or_date_are_ignored
           None [41%N; 42%N]
           [mkMessage None
              (Parsed (Extract.mkParsed
                         (Some (Js.lit "Expensify magic code: 147826"))
                         (Some 0) None None));
            mkMessage (Some 42%N)
              (Parsed (Extract.mkParsed
                         (Some (Js.lit "Expensify magic code: 147826"))
                         None None None))]).
  - reflexivity.
  - intros m [<-|[<-|[]]].
    + left. reflexivity.
    + right. eexists. split; reflexivity.
Defined.

(** X17. Once a cycle of [findCode] has set [resolved], by a result or by
    an error of the fetch, the events that come later change neither its
    promise nor the messages it flagged. *)
Theorem events_after_the_result_are_ignored
        (since : option Z) (u : N) (uids : list N) (es1 es2 : list FetchEvent) :
  resolved (findCode since (SearchOk (Some (u :: uids))) es1) = true ->
  promise (findCode since (SearchOk (Some (u :: uids))) (es1 ++ es2))
  = promise (findCode since (SearchOk (Some (u :: uids))) es1)
  /\ seen (findCode since (SearchOk (Some (u :: uids))) (es1 ++ es2))
     = seen (findCode since (SearchOk (Some (u :: uids))) es1).
Proof.
  cbn [findCode]. intros H. rewrite fold_left_app.
  now apply CycleMoreFacts.fold_resolved.
Qed.

Lemma events_after_the_result_are_ignored_witness :
  promise (findCode None (SearchOk (Some [11%N; 12%N]))
             ([FetchError (Js.lit "Connection lost")]
                ++ [Body (Scenario.before5s 0); Body (Scenario.after5s 0)]))
  = Rejected (Thrown (Js.lit "Connection lost"))
  /\ seen (findCode None (SearchOk (Some [11%N; 12%N]))
             ([FetchError (Js.lit "Connection lost")]
                ++ [Body (Scenario.before5s 0); Body (Scenario.after5s 0)]))
     = [].
Proof.
  apply (events_after_the_result_are_ignored
           None 11%N [12%N] [FetchError (Js.lit "Connection lost")]
           [Body (Scenario.before5s 0); Body (Scenario.after5s 0)]).
  reflexivity.
Defined.

(** X18. [waitForCode] starts a poll only while the time limit has not
    passed: as every poll is followed by a pause of 2000 ms, at most
    [maxWaitTime / 2000 + 1] polls are started.
    The timeout error is given only after more than [maxWaitTime], and a
    code that the call resolves with is never the empty string. *)
Theorem waitForCode_polls_within_the_limit
        (box : Mailbox) (from : jsstring) (maxWaitTime : Z) (since : option Z)
        (connected : bool) :
  exists w,
    waitForCode connected box from maxWaitTime since = Some w
    /\ (cycles w = 0%nat
        \/ pollInterval * (Z.of_nat (cycles w) - 1) <= maxWaitTime)
    /\ (outcome w = Rejected TimeoutWaitingForEmail -> maxWaitTime < elapsed w)
    /\ (forall c, outcome w = Resolved c -> Js.truthy c = true).
Proof.
  destruct (@WaitFacts.waitForCode_total box from maxWaitTime since connected)
    as [w Hw].
  exists w. split; [exact Hw|]. revert Hw. unfold waitForCode.
  destruct (connect connected (connectAnswer box)) as [b [[]|e|]] eqn:Ec.
  - apply WaitMoreFacts.checkEmail_bounds; [cbn; lia | now left].
  - intros [= <-]. cbn [cycles outcome elapsed].
    split; [now left|]. split; [|discriminate].
    intros [= ->]. unfold connect in Ec. destruct connected; [discriminate|].
    destruct (connectAnswer box) as [|message]; [discriminate|].
    injection Ec as _ Ec. unfold connectError in Ec.
    destruct (_ || _) in Ec; [discriminate|].
    destruct (_ || _) in Ec; discriminate.
  - intros [= <-]. cbn [cycles outcome elapsed].
    split; [now left|]. split; discriminate.
Qed.

(* ================================================================== *)
(** ** More properties of [login] *)

Module LoginMoreFacts.
Import AutoLogin.

(** A code that [waitForCode] resolves with is not the empty string. *)
Lemma waitForCode_truthy (box : Mailbox) (from : jsstring) (maxWaitTime : Z)
      (since : option Z) (connected : bool) (w : Wait) (c : jsstring) :
  waitForCode connected box from maxWaitTime since = Some w ->
  outcome w = Resolved c -> Js.truthy c = true.
Proof.
  unfold waitForCode.
  destruct (connect connected (connectAnswer box)) as [b [[]|e|]].
  - intros H. revert c.
    apply (@WaitMoreFacts.checkEmail_bounds box from maxWaitTime since
             (enoughPolls maxWaitTime) 0%nat 0 [] w);
      [cbn; lia | now left | exact H].
  - intros [= <-]. discriminate.
  - intros [= <-]. discriminate.
Qed.

(** When no poll finds a code, [waitForCode] ends with the timeout error
    and no flag. *)
Lemma waitForCode_all_quiet (box : Mailbox) (from : jsstring) (maxWaitTime : Z)
      (since : option Z) :
  connectAnswer box = Ready ->
  (forall j, quiet from since (polls box j)) ->
  exists w,
    waitForCode true box from maxWaitTime since = Some w
    /\ outcome w = Rejected TimeoutWaitingForEmail /\ flagged w = [].
Proof.
  intros Hc Hq.
  destruct (@WaitFacts.waitForCode_total box from maxWaitTime since true)
    as [w Hw].
  exists w. split; [exact Hw|]. revert Hw. unfold waitForCode. cbn [connect].
  now apply WaitMoreFacts.checkEmail_all_quiet.
Qed.

Lemma ofThrown_resolved (e : option jsstring) (u : unit) :
  ofThrown e = Resolved u -> e = None.
Proof. destruct e; [discriminate | reflexivity]. Qed.

Lemma ofError_resolved (e : option Error) (u : unit) :
  ofError e = Resolved u -> e = None.
Proof. destruct e; [discriminate | reflexivity]. Qed.

Lemma connect_resolved (answer : ConnectEvent) (u : unit) :
  snd (connect false answer) = Resolved u -> answer = Ready.
Proof. destruct answer; [reflexivity | discriminate]. Qed.

Ltac ends :=
  eexists; eexists; split; [reflexivity|];
  cbn [app last removelast In]; split; [reflexivity|];
  intuition congruence.

Ltac hangs :=
  eexists; eexists; split; [reflexivity|];
  cbn [app In]; intuition congruence.

End LoginMoreFacts.

Import AutoLogin.

(** X19. [login] calls [disconnect] exactly when it settles: whether it
    resolves or fails, and at whatever step, [disconnect] is its last call
    and is made once; while one of its steps stays unsettled, [disconnect]
    is not called. *)
Theorem login_disconnects_when_it_settles (cfg : Config) (w : World) :
  exists r tr,
    login (new cfg) w [] = Some (r, tr)
    /\ match r with
       | Pending => ~ In Disconnect tr
       | _ => last tr (Connect []) = Disconnect
              /\ ~ In Disconnect (removelast tr)
       end.
Proof.
  unfold login, tryFinally, bind, call, callWaitForCode, new.
  cbn [config emailMonitor user app].
  destruct (snd (connect false (connectAnswer (mailbox w))))
    as [[]|e|]; [| LoginMoreFacts.ends | LoginMoreFacts.hangs].
  destruct (ofThrown (launch w)) as [[]|e|]; cbn [app];
    [| LoginMoreFacts.ends | LoginMoreFacts.hangs].
  destruct (ofThrown (goto w (loginUrl cfg))) as [[]|e|]; cbn [app];
    [| LoginMoreFacts.ends | LoginMoreFacts.hangs].
  destruct (fst (Web.enterEmail (Some (loginPage w)) (email cfg)))
    as [b|e|]; cbn [app]; [| LoginMoreFacts.ends | LoginMoreFacts.hangs].
  destruct (WaitFacts.waitForCode_total
              (mailbox w) (fromEmail cfg) 60000 None true) as [wt ->].
  destruct (outcome wt) as [found|e|]; cbn [app];
    [| LoginMoreFacts.ends | LoginMoreFacts.hangs].
  destruct (ofError (enterCode w found)) as [[]|e|]; cbn [app];
    [| LoginMoreFacts.ends | LoginMoreFacts.hangs].
  destruct (ofError (waitForLoginSuccess w)) as [[]|e|]; cbn [app];
    [LoginMoreFacts.ends | LoginMoreFacts.ends | LoginMoreFacts.hangs].
Qed.

(** X20. [login] does not look at what [enterEmail] returns. On a page
    without an email input whose url holds neither "/login" nor "/signin"
    (the user may be signed in already), it still waits for a code: when
    no poll finds one, it fails with the timeout error, having typed
    nothing, entered no code and flagged no message, and disconnects. *)
Theorem login_times_out_when_no_email_was_entered (cfg : Config) (w : World) :
  connectAnswer (mailbox w) = Ready ->
  launch w = None ->
  goto w (loginUrl cfg) = None ->
  (forall sel, In sel Web.emailSelectors ->
               Web.waitForSelector (loginPage w) sel = false) ->
  Js.includes (Web.url (loginPage w)) (Js.lit "/login") = false ->
  Js.includes (Web.url (loginPage w)) (Js.lit "/signin") = false ->
  (forall j, quiet (fromEmail cfg) None (polls (mailbox w) j)) ->
  login (new cfg) w []
  = Some (Rejected TimeoutWaitingForEmail,
          [Connect (stripEmailTag (email cfg));
           Init (headless cfg) (devtools cfg);
           NavigateToLogin (loginUrl cfg);
           EnterEmail (email cfg) [];
           WaitForCode (fromEmail cfg) 60000 None [];
           Disconnect]).
Proof.
  intros Hc Hl Hg Hn H1 H2 Hq.
  destruct (LoginMoreFacts.waitForCode_all_quiet
              (mailbox w) (fromEmail cfg) 60000 None Hc Hq)
    as (wt & Hw & Ho & Hf).
  unfold login, tryFinally, bind, call, callWaitForCode, new.
  cbn [config emailMonitor user app]. rewrite Hc, Hl, Hg, Hw, Ho, Hf.
  unfold Web.enterEmail. rewrite (WebFacts.findInput_none _ _ Hn), H1, H2.
  reflexivity.
Qed.

Lemma login_times_out_when_no_email_was_entered_witness :
  fst (Web.enterEmail (Some (Scenario.blankPage "https://new.expensify.com/home"))
                      (Js.lit "user+tag@gmail.com"))
  = Resolved false
  /\ login (new Scenario.tagged)
           (mkWorld (Scenario.boxOf []) None (fun _ => None)
                    (Scenario.blankPage "https://new.expensify.com/home")
                    (fun _ => None) None)
           []
     = Some (Rejected TimeoutWaitingForEmail,
             [Connect (Js.lit "user@gmail.com");
              Init false false;
              NavigateToLogin (Js.lit "https://new.expensify.com/");
              EnterEmail (Js.lit "user+tag@gmail.com") [];
              WaitForCode Scenario.sender 60000 None [];
              Disconnect]).
Proof.
  split; [reflexivity|].
  apply (login_times_out_when_no_email_was_entered
           Scenario.tagged
           (mkWorld (Scenario.boxOf []) None (fun _ => None)
                    (Scenario.blankPage "https://new.expensify.com/home")
                    (fun _ => None) None)).
  - reflexivity.
  - reflexivity.
  - reflexivity.
  - intros sel _. reflexivity.
  - reflexivity.
  - reflexivity.
  - intros j. split; [|destruct j as [|[|j]]; reflexivity].
    destruct j as [|[|j]]; reflexivity.
Defined.

(** X21. [login] resolves only when every step has succeeded: its calls
    are then the eight calls in their order, with the address as
    configured, the code that [waitForCode] resolved with, which is not
    empty, typed into the page, and [disconnect] last. *)
Theorem login_resolves_only_after_every_step
        (cfg : Config) (w : World) (tr : list Call) :
  login (new cfg) w [] = Some (Resolved tt, tr) ->
  exists wt found,
    waitForCode true (mailbox w) (fromEmail cfg) 60000 None = Some wt
    /\ outcome wt = Resolved found
    /\ Js.truthy found = true
    /\ tr = [Connect (stripEmailTag (email cfg));
             Init (headless cfg) (devtools cfg);
             NavigateToLogin (loginUrl cfg);
             EnterEmail (email cfg)
                        (snd (Web.enterEmail (Some (loginPage w)) (email cfg)));
             WaitForCode (fromEmail cfg) 60000 None (flagged wt);
             EnterCode found;
             WaitForLoginSuccess;
             Disconnect]
    /\ connectAnswer (mailbox w) = Ready
    /\ launch w = None
    /\ goto w (loginUrl cfg) = None
    /\ (exists b, fst (Web.enterEmail (Some (loginPage w)) (email cfg))
                  = Resolved b)
    /\ enterCode w found = None
    /\ waitForLoginSuccess w = None.
Proof.
  unfold login, tryFinally, bind, call, callWaitForCode, new.
  cbn [config emailMonitor user app].
  destruct (snd (connect false (connectAnswer (mailbox w))))
    as [[]|e|] eqn:Ec; [| discriminate ..].
  destruct (ofThrown (launch w)) as [[]|e|] eqn:El; cbn [app];
    [| discriminate ..].
  destruct (ofThrown (goto w (loginUrl cfg))) as [[]|e|] eqn:Eg; cbn [app];
    [| discriminate ..].
  destruct (fst (Web.enterEmail (Some (loginPage w)) (email cfg)))
    as [b|e|] eqn:Ee; cbn [app]; [| discriminate ..].
  destruct (WaitFacts.waitForCode_total
              (mailbox w) (fromEmail cfg) 60000 None true) as [wt Hw].
  rewrite Hw.
  destruct (outcome wt) as [found|e|] eqn:Eo; cbn [app]; [| discriminate ..].
  destruct (ofError (enterCode w found)) as [[]|e|] eqn:Ex; cbn [app];
    [| discriminate ..].
  destruct (ofError (waitForLoginSuccess w)) as [[]|e|] eqn:Es; cbn [app];
    [| discriminate ..].
  intros [= <-]. exists wt, found.
  split; [reflexivity|]. split; [exact Eo|].
  split; [exact (LoginMoreFacts.waitForCode_truthy _ _ _ _ _ _ _ Hw Eo)|].
  split; [reflexivity|].
  split; [exact (LoginMoreFacts.connect_resolved _ _ Ec)|].
  split; [exact (LoginMoreFacts.ofThrown_resolved _ _ El)|].
  split; [exact (LoginMoreFacts.ofThrown_resolved _ _ Eg)|].
  split; [now exists b|].
  split; [exact (LoginMoreFacts.ofError_resolved _ _ Ex)|].
  exact (LoginMoreFacts.ofError_resolved _ _ Es).
Qed.

Lemma login_resolves_only_after_every_step_witness :
  exists wt,
    waitForCode true (mailbox Scenario.oldUnread) Scenario.sender 60000 None
    = Some wt
    /\ outcome wt = Resolved (Js.lit "147826").
Proof.
  destruct (login_resolves_only_after_every_step
              Scenario.tagged Scenario.oldUnread
              [Connect (Js.lit "user@gmail.com");
               Init false false;
               NavigateToLogin (Js.lit "https://new.expensify.com/");
               EnterEmail (Js.lit "user+tag@gmail.com")
                          [Web.Fill Web.firstSelector (Js.lit "user+tag@gmail.com");
                           Web.Click (nth 0 Web.submitSelectors [])];
               WaitForCode Scenario.sender 60000 None [21%N];
               EnterCode (Js.lit "147826");
               WaitForLoginSuccess;
               Disconnect]
              eq_refl)
    as (wt & found & Hw & Ho & _ & Htr & _).
  exists wt. split; [exact Hw|].
  rewrite Ho. assert (E : EnterCode (Js.lit "147826") = EnterCode found).
  { exact (f_equal (fun l => nth 5 l Disconnect) Htr). }
  congruence.
Defined.

(* ================================================================== *)
(** ** Addresses without a tag, and errors of the connection *)

Module TagMoreFacts.
Import Regex RegexFacts TagFacts.

Lemma dropWhile_all (p : N -> bool) (l : jsstring) :
  forallb p l = true -> dropWhile p l = [].
Proof.
  induction l as [|c l IH]; [reflexivity|]. cbn [forallb dropWhile].
  intros H. apply andb_true_iff in H as [-> H]. now apply IH.
Qed.

(** Without an at sign the tag pattern matches nowhere. *)
Lemma matchHere_no_at (s : jsstring) :
  ~ In 64%N s -> matchHere AutoLogin.tagPattern s = None.
Proof.
  intros H. apply notIn_forallb in H.
  unfold matchHere, AutoLogin.tagPattern.
  destruct s as [|x [|y t]]; cbn [exec]; [reflexivity | now destruct (x =? 43)%N |].
  destruct (x =? 43)%N; [|reflexivity].
  cbn [forallb] in H. apply andb_true_iff in H as [_ H].
  apply andb_true_iff in H as [Hy Ht]. rewrite Hy.
  rewrite star_greedy.
  - now rewrite (dropWhile_all _ _ Ht).
  - intros c r Hc. unfold isNot in Hc. apply negb_true_iff in Hc. now rewrite Hc.
Qed.

(** A plus sign with the at sign right after it starts no tag. *)
Lemma matchHere_empty_tag (dom : jsstring) :
  matchHere AutoLogin.tagPattern (43%N :: 64%N :: dom) = None.
Proof. reflexivity. Qed.

Lemma search_none (pre s : jsstring) :
  (forall a b, s = a ++ b -> matchHere AutoLogin.tagPattern b = None) ->
  searchFrom AutoLogin.tagPattern pre s = None.
Proof.
  revert pre. induction s as [|c t IH]; intros pre H.
  - cbn [searchFrom]. now rewrite (H [] []).
  - cbn [searchFrom]. rewrite (H [] (c :: t)) by reflexivity.
    apply IH. intros a b ->. now apply (H (c :: a) b).
Qed.

End TagMoreFacts.

(** X22. [stripEmailTag] leaves an address as it is when it holds no plus
    sign, when it holds no at sign, and when its only plus sign stands right
    before the at sign. *)
Theorem stripEmailTag_leaves_untagged_addresses (s : jsstring) :
  (~ In 43%N s -> stripEmailTag s = s)
  /\ (~ In 64%N s -> stripEmailTag s = s)
  /\ (forall u dom, s = u ++ [43%N; 64%N] ++ dom ->
                    ~ In 43%N u -> ~ In 43%N dom -> stripEmailTag s = s).
Proof.
  assert (G : (forall a b, s = a ++ b -> Regex.matchHere tagPattern b = None) ->
              stripEmailTag s = s).
  { intros H. unfold stripEmailTag, Regex.replace, Regex.match_.
    now rewrite TagMoreFacts.search_none. }
  assert (P : forall b, ~ In 43%N b -> Regex.matchHere tagPattern b = None).
  { intros [|x t] Hb; [reflexivity|]. apply TagFacts.matchHere_no_plus.
    intros ->. apply Hb. now left. }
  split; [|split].
  - intros H. apply G. intros a b ->. apply P.
    intros Hb. apply H, in_or_app. now right.
  - intros H. apply G. intros a b ->. apply TagMoreFacts.matchHere_no_at.
    intros Hb. apply H, in_or_app. now right.
  - intros u dom -> Hu Hd. apply G. clear G. intros a b E.
    revert a E. induction u as [|x u IH]; intros a E.
    + destruct a as [|y a]; cbn [app] in E.
      * subst b. reflexivity.
      * injection E as _ E. apply P.
        destruct a as [|z a]; cbn [app] in E.
        -- subst b. cbn [In]. intros [H|H]; [discriminate | now apply Hd].
        -- injection E as _ E. intros Hb. apply Hd. rewrite E.
           apply in_or_app. now right.
    + destruct a as [|y a]; cbn [app] in E.
      * subst b. apply TagFacts.matchHere_no_plus.
        intros ->. apply Hu. now left.
      * injection E as _ E. apply (IH (fun H => Hu (or_intror H)) a E).
Qed.

(** X23. An error of the connection is reported as the missing app password
    when its message holds "Application-specific password required", or
    "ALERT" and "185833"; else as a failed authentication when it holds
    "Invalid credentials", "AUTHENTICATIONFAILED" or "authentication"; else
    as it came. [login] then fails with that error before the browser is
    launched: it calls [connect] and [disconnect] only. A monitor that is
    connected does not connect again. *)
Theorem connection_errors_are_classified_and_stop_login (message : jsstring) :
  (contains message "Application-specific password required"
   \/ (contains message "ALERT" /\ contains message "185833") ->
   connectError message = GmailAppPasswordRequired)
  /\ (~ contains message "Application-specific password required" ->
      ~ (contains message "ALERT" /\ contains message "185833") ->
      (contains message "Invalid credentials"
       \/ contains message "AUTHENTICATIONFAILED"
       \/ contains message "authentication" ->
       connectError message = GmailAuthenticationFailed)
      /\ (~ contains message "Invalid credentials" ->
          ~ contains message "AUTHENTICATIONFAILED" ->
          ~ contains message "authentication" ->
          connectError message = Thrown message))
  /\ (forall cfg w,
         connectAnswer (mailbox w) = ConnectError message ->
         login (new cfg) w []
         = Some (Rejected (connectError message),
                 [Connect (stripEmailTag (email cfg)); Disconnect]))
  /\ (forall answer, connect true answer = (true, Resolved tt)).
Proof.
  assert (I : forall p, Js.includes message (Js.lit p) = true
                        <-> contains message p)
    by (intros p; apply TextFacts.includes_iff).
  assert (F : forall p, ~ contains message p ->
                        Js.includes message (Js.lit p) = false).
  { intros p H. destruct (Js.includes message (Js.lit p)) eqn:E; [|reflexivity].
    elim H. now apply I. }
  split; [|split; [|split]].
  - unfold connectError. intros [H|[H1 H2]].
    + apply I in H. now rewrite H.
    + apply I in H1. apply I in H2. rewrite H1, H2. now rewrite orb_true_r.
  - intros N1 N2. assert (E : Js.includes message (Js.lit "ALERT")
                               && Js.includes message (Js.lit "185833") = false).
    { destruct (Js.includes message (Js.lit "ALERT")) eqn:E1;
        destruct (Js.includes message (Js.lit "185833")) eqn:E2;
        try reflexivity.
      elim N2. split; now apply I. }
    unfold connectError. rewrite (F _ N1), E. cbn [orb]. split.
    + intros [H|[H|H]]; apply I in H; rewrite H;
        rewrite ?orb_true_r; reflexivity.
    + intros M1 M2 M3. now rewrite (F _ M1), (F _ M2), (F _ M3).
  - intros cfg w H.
    unfold login, tryFinally, bind, call, callWaitForCode, new.
    cbn [config emailMonitor user app]. now rewrite H.
  - reflexivity.
Qed.
